(** * Aileana communication backend: call state, messaging and presence

    A shallow embedding of the call service ([src/services/callService.ts]),
    the message service ([src/services/messageService.ts]) and the socket
    handler ([src/socket/socketHandler.ts]), together with the properties
    the written specification states about them.

    Conventions.
    - The relational store is a record of tables; a table is the list of its
      rows in insertion order.  A knex query is the corresponding list
      operation: [where] is a boolean row predicate, [first] is [find],
      [update] rewrites every matching row, [insert] appends.
    - Instants are milliseconds since the epoch, in [Z].  Every evaluation of
      [new Date()] is one read of the clock oracle carried by the store, so
      two reads made by one request may differ.
    - [gen_random_uuid()] is one draw from an identifier oracle.
    - Identifiers are the texts of uuid column values, in the form the
      database returns them.  Their syntax is checked at the HTTP boundary;
      the socket listeners pass them on unchecked.  The conversion of such
      a text by the database is modelled in the statements the listeners
      reach with a text that need not name a stored row
      ([markMessageAsRead], [markMessagesAsRead], [createOffer],
      [addIceCandidate]); the other queries compare identifiers as texts.
    - Thrown exceptions are an explicit outcome; the state reached before
      the throw is kept, as in the source. *)

From Stdlib Require Import ZArith NArith Ascii String List Bool Lia.
From stdpp Require Import gmap strings list fin_maps pretty.
Import ListNotations.

Local Open Scope string_scope.
Local Open Scope Z_scope.
Local Open Scope list_scope.

(** ** Exceptions and the state-and-exception monad *)

(** [AppError] is the class of [middleware/errorHandler.ts]; its status
    code carries the taxonomy of the specification: 404 [NotFound], 403
    [Forbidden], 409 [Conflict], and 400 for both [InvalidArgument] and
    [InvalidState].  The other two constructors stand for an SQL statement
    the database rejects and for an [Error] the query builder throws. *)
Inductive Failure : Type :=
  | AppError (message : string) (statusCode : Z)
  | DatabaseError (message : string)
  | QueryBuilderError (message : string).

Inductive Outcome (A : Type) : Type :=
  | Ok (a : A)
  | Throw (e : Failure).
Arguments Ok {A} a.
Arguments Throw {A} e.

Definition M (S A : Type) : Type := S -> Outcome A * S.

Definition ret {S A : Type} (a : A) : M S A := fun s => (Ok a, s).

Definition throw {S A : Type} (e : Failure) : M S A := fun s => (Throw e, s).

Definition bind {S A B : Type} (m : M S A) (k : A -> M S B) : M S B :=
  fun s =>
    match m s with
    | (Ok a, s') => k a s'
    | (Throw e, s') => (Throw e, s')
    end.

Definition gets {S A : Type} (f : S -> A) : M S A := fun s => (Ok (f s), s).

Definition modify {S : Type} (f : S -> S) : M S unit := fun s => (Ok tt, f s).

Notation "'let*' x := c 'in' k" := (bind c (fun x => k))
  (at level 10, x name, c at level 100, k at level 200).

(** JavaScript truthiness of an optional string: [undefined] and the empty
    string are falsy. *)
Definition truthy (s : option string) : bool :=
  match s with
  | Some s => negb (String.eqb s "")
  | None => false
  end.

(** ** Parameters of type [uuid] *)

(** A hexadecimal digit, in lower case. *)
Definition hex_digit (c : ascii) : option ascii :=
  let n := N_of_ascii c in
  if (48 <=? n)%N && (n <=? 57)%N then Some c
  else if (97 <=? n)%N && (n <=? 102)%N then Some c
  else if (65 <=? n)%N && (n <=? 70)%N then Some (ascii_of_N (n + 32))
  else None.

(** [count] bytes of a uuid from byte [i] on, each two hexadecimal digits;
    a hyphen is passed over after every second byte but the last.  The
    result is the digits read, hyphenated 8-4-4-4-12, and the text left. *)
Fixpoint uuid_bytes (count i : nat) (src : string) : option (string * string) :=
  match count with
  | O => Some ("", src)
  | S count' =>
      match src with
      | String a (String b rest) =>
          match hex_digit a, hex_digit b with
          | Some a', Some b' =>
              let rest' :=
                match rest with
                | String "-"%char after =>
                    if Nat.odd i && (i <? 15)%nat then after else rest
                | _ => rest
                end in
              match uuid_bytes count' (S i) rest' with
              | Some (digits, tail) =>
                  let hyphen :=
                    if (i =? 3)%nat || (i =? 5)%nat || (i =? 7)%nat || (i =? 9)%nat
                    then "-" else "" in
                  Some (String a' (String b' hyphen) +:+ digits, tail)
              | None => None
              end
          | _, _ => None
          end
      | _ => None
      end
  end.

(** The input conversion of the [uuid] type of PostgreSQL: thirty-two
    hexadecimal digits in either case, with an optional hyphen after any
    group of four and optional braces around the whole.  The result is the
    text the database returns for the value, under which the rows hold
    it. *)
Definition uuid_in (text : string) : option string :=
  let '(braces, src) :=
    match text with
    | String "{"%char inner => (true, inner)
    | _ => (false, text)
    end in
  match uuid_bytes 16 0 src with
  | Some (digits, tail) =>
      if String.eqb tail (if braces then "}" else "") then Some digits else None
  | None => None
  end.

(** A text bound to a parameter that is compared with a [uuid] column: the
    statement is rejected (SQLSTATE 22P02) unless the text is a uuid. *)
Definition uuid_param {S : Type} (text : string) : M S string :=
  match uuid_in text with
  | Some id => ret id
  | None => throw (DatabaseError "invalid input syntax for type uuid")
  end.

(** ** JSON values (the [json] columns and the signalling payloads) *)

Set Warnings "-register-all".

(** Numbers are restricted to integers.  [JIsoDate t] is the JSON string
    produced by [new Date(t).toISOString()], kept by its instant. *)
Inductive Json : Type :=
  | JNull
  | JBool (b : bool)
  | JNum (z : Z)
  | JStr (s : string)
  | JIsoDate (t : Z)
  | JArr (items : list Json)
  | JObj (fields : list (string * Json)).

Fixpoint obj_get (key : string) (fields : list (string * Json)) : option Json :=
  match fields with
  | [] => None
  | (k, v) :: rest => if String.eqb k key then Some v else obj_get key rest
  end.

Fixpoint obj_set (key : string) (v : Json) (fields : list (string * Json))
  : list (string * Json) :=
  match fields with
  | [] => [(key, v)]
  | (k, v0) :: rest =>
      if String.eqb k key then (k, v) :: rest else (k, v0) :: obj_set key v rest
  end.

Fixpoint holds_nul (s : string) : bool :=
  match s with
  | EmptyString => false
  | String c rest => Ascii.eqb c Ascii.zero || holds_nul rest
  end.

(** The values [jsonb] can hold: every JSON value but those with the
    character U+0000 in a string or in a key.  (Limits of size and of
    nesting depth are left out.) *)
Fixpoint jsonb_accepts (v : Json) : bool :=
  match v with
  | JStr s => negb (holds_nul s)
  | JArr items => forallb jsonb_accepts items
  | JObj fields =>
      forallb (fun '(k, x) => negb (holds_nul k) && jsonb_accepts x) fields
  | JNull | JBool _ | JNum _ | JIsoDate _ => true
  end.

(** [JSON.stringify(v)] bound to a parameter of type [jsonb]: the statement
    is rejected (SQLSTATE 22P05) when [jsonb] cannot hold the value. *)
Definition jsonb_param {S : Type} (v : Json) : M S Json :=
  if jsonb_accepts v then ret v
  else throw (DatabaseError "unsupported Unicode escape sequence").

(** [target -> 'key'] of PostgreSQL: SQL NULL unless the target is an object
    holding the key. *)
Definition jsonb_get (target : option Json) (key : string) : option Json :=
  match target with
  | Some (JObj fields) => obj_get key fields
  | _ => None
  end.

(** [a || b] on jsonb values, for the case the source uses (the right
    operand is an array): a left operand that is not an array is first
    wrapped into a one-element array. *)
Definition jsonb_concat_array (a : Json) (b : list Json) : Json :=
  match a with
  | JArr items => JArr (items ++ b)
  | other => JArr (other :: b)
  end.

(** [jsonb_set(target, '{key}', v, true)]: strict in its arguments (a NULL
    target gives NULL), sets or adds the key of an object, and is rejected
    on arrays and scalars. *)
Definition jsonb_set (target : option Json) (key : string) (v : Json)
  : Outcome (option Json) :=
  match target with
  | None => Ok None
  | Some (JObj fields) => Ok (Some (JObj (obj_set key v fields)))
  | Some (JArr _) => Throw (DatabaseError "path element at position 1 is not an integer")
  | Some _ => Throw (DatabaseError "cannot set path in scalar")
  end.

(** ** Tables (migrations 001, 002 and 004) *)

Module User.
(** The columns of [users] that the modelled queries read. *)
Record t : Type := mk {
  id : string;
  name : string;
  avatar : option string;
  is_active : bool
}.
End User.

Inductive CallType : Type := voice | video.

Inductive Status : Type :=
  | initiated | ringing | answered | ended | missed | rejected.

Definition Status_eqb (a b : Status) : bool :=
  match a, b with
  | initiated, initiated | ringing, ringing | answered, answered
  | ended, ended | missed, missed | rejected, rejected => true
  | _, _ => false
  end.

Module Call.
Record t : Type := mk {
  id : string;
  caller_id : string;
  callee_id : string;
  call_type : CallType;
  status : Status;
  started_at : Z;
  answered_at : option Z;
  ended_at : option Z;
  duration_seconds : option Z;
  end_reason : option string;
  metadata : option Json;
  created_at : Z;
  updated_at : Z
}.
End Call.

Module Message.
Record t : Type := mk {
  id : string;
  sender_id : string;
  recipient_id : string;
  content : string;
  message_type : string;
  file_url : option string;
  is_read : bool;
  read_at : option Z;
  is_deleted : bool;
  deleted_at : option Z;
  metadata : option Json;
  created_at : Z;
  updated_at : Z
}.
End Message.

(** The store, with the clock and identifier oracles and the number of
    reads made of each. *)
Record World : Type := mkWorld {
  users : list User.t;
  calls : list Call.t;
  messages : list Message.t;
  clock : nat -> Z;
  clock_reads : nat;
  uuid : nat -> string;
  uuids_drawn : nat
}.

Definition set_calls (f : list Call.t -> list Call.t) (w : World) : World :=
  mkWorld (users w) (f (calls w)) (messages w)
          (clock w) (clock_reads w) (uuid w) (uuids_drawn w).

Definition set_messages (f : list Message.t -> list Message.t) (w : World) : World :=
  mkWorld (users w) (calls w) (f (messages w))
          (clock w) (clock_reads w) (uuid w) (uuids_drawn w).

(** [new Date()], and [now()] on the database side. *)
Definition new_Date : M World Z :=
  fun w =>
    (Ok (clock w (clock_reads w)),
     mkWorld (users w) (calls w) (messages w)
             (clock w) (S (clock_reads w)) (uuid w) (uuids_drawn w)).

Definition gen_random_uuid : M World string :=
  fun w =>
    (Ok (uuid w (uuids_drawn w)),
     mkWorld (users w) (calls w) (messages w)
             (clock w) (clock_reads w) (uuid w) (S (uuids_drawn w))).

(** [db('users').where('id', x).andWhere('is_active', true).first()] *)
Definition active_user (userId : string) (w : World) : option User.t :=
  find (fun u => String.eqb (User.id u) userId && User.is_active u) (users w).

(** The foreign keys of [calls] and [messages] into [users]. *)
Definition references_user (userId : string) (w : World) : bool :=
  existsb (fun u => String.eqb (User.id u) userId) (users w).

(** ** Ordering *)

(** [ORDER BY key DESC], as a stable insertion sort: rows with equal keys
    keep their table order (PostgreSQL leaves the order of ties open). *)
Fixpoint insert_desc {R : Type} (key : R -> Z) (x : R) (sorted : list R) : list R :=
  match sorted with
  | [] => [x]
  | y :: rest =>
      if key y <? key x then x :: y :: rest else y :: insert_desc key x rest
  end.

Definition order_by_desc {R : Type} (key : R -> Z) (rows : list R) : list R :=
  fold_right (insert_desc key) [] rows.

(** ** Statements on the [calls] table *)

(** [insert(...).returning('*')] of one row: the database checks the two
    foreign keys, draws the primary key and stamps [created_at] and
    [updated_at] (the defaults of [table.timestamps(true, true)]); the
    columns the source does not give take their NULL default.  The result
    is the stored row. *)
Definition insert_call (caller_id callee_id : string) (call_type : CallType)
    (status : Status) (started_at : Z) (metadata : option Json) : M World Call.t :=
  fun w =>
    if references_user caller_id w && references_user callee_id w then
      (let* id := gen_random_uuid in
       let* stamp := new_Date in
       let row := Call.mk id caller_id callee_id call_type status started_at
                          None None None None metadata stamp stamp in
       let* _ := modify (set_calls (fun rows => rows ++ [row])) in
       ret row) w
    else (Throw (DatabaseError "violates foreign key constraint"), w).

(** The object given to [update]: a column is written when its key is
    present. *)
Record CallUpdate : Type := mkCallUpdate {
  set_status : option Status;
  set_answered_at : option Z;
  set_ended_at : option Z;
  set_duration_seconds : option Z;
  set_end_reason : option string;
  set_updated_at : option Z
}.

Definition or_keep {A : Type} (new : option A) (old : A) : A :=
  match new with Some a => a | None => old end.

Definition or_keep_null {A : Type} (new : option A) (old : option A) : option A :=
  match new with Some a => Some a | None => old end.

Definition apply_update (u : CallUpdate) (c : Call.t) : Call.t :=
  Call.mk (Call.id c) (Call.caller_id c) (Call.callee_id c) (Call.call_type c)
          (or_keep (set_status u) (Call.status c))
          (Call.started_at c)
          (or_keep_null (set_answered_at u) (Call.answered_at c))
          (or_keep_null (set_ended_at u) (Call.ended_at c))
          (or_keep_null (set_duration_seconds u) (Call.duration_seconds c))
          (or_keep_null (set_end_reason u) (Call.end_reason c))
          (Call.metadata c)
          (Call.created_at c)
          (or_keep (set_updated_at u) (Call.updated_at c)).

Definition rewrite_rows {R : Type} (p : R -> bool) (f : R -> R) (rows : list R)
  : list R :=
  map (fun r => if p r then f r else r) rows.

(** [where(p).update(u).returning('*')]: every matching row is rewritten;
    the result lists the rewritten rows. *)
Definition update_calls (p : Call.t -> bool) (u : CallUpdate)
  : M World (list Call.t) :=
  fun w =>
    (Ok (map (apply_update u) (List.filter p (calls w))),
     set_calls (rewrite_rows p (apply_update u)) w).

(** A statement whose new column value is an SQL expression that can be
    rejected: one rejected row rejects the statement, and then no row is
    written. *)
Fixpoint rewrite_rows_checked {R : Type} (p : R -> bool) (f : R -> Outcome R)
    (rows : list R) : Outcome (list R) :=
  match rows with
  | [] => Ok []
  | r :: rest =>
      match (if p r then f r else Ok r) with
      | Throw e => Throw e
      | Ok r' =>
          match rewrite_rows_checked p f rest with
          | Throw e => Throw e
          | Ok rest' => Ok (r' :: rest')
          end
      end
  end.

Definition update_calls_checked (p : Call.t -> bool) (f : Call.t -> Outcome Call.t)
  : M World unit :=
  fun w =>
    match rewrite_rows_checked p f (calls w) with
    | Ok rows => (Ok tt, set_calls (fun _ => rows) w)
    | Throw e => (Throw e, w)
    end.

Definition with_metadata (md : option Json) (stamp : Z) (c : Call.t) : Call.t :=
  Call.mk (Call.id c) (Call.caller_id c) (Call.callee_id c) (Call.call_type c)
          (Call.status c) (Call.started_at c) (Call.answered_at c)
          (Call.ended_at c) (Call.duration_seconds c) (Call.end_reason c)
          md (Call.created_at c) stamp.

(** ** [CallService] *)

Module CallService.

Definition involves (userId : string) (c : Call.t) : bool :=
  String.eqb (Call.caller_id c) userId || String.eqb (Call.callee_id c) userId.

(** [status in ('initiated', 'ringing', 'answered')] *)
Definition non_terminal (s : Status) : bool :=
  match s with
  | initiated | ringing | answered => true
  | ended | missed | rejected => false
  end.

Definition has_id (callId : string) (c : Call.t) : bool :=
  String.eqb (Call.id c) callId.

(** The query of lines 23-32. *)
Definition activeCall_of (callerId calleeId : string) (w : World) : option Call.t :=
  find (fun c =>
          (String.eqb (Call.caller_id c) callerId
           || String.eqb (Call.callee_id c) callerId
           || String.eqb (Call.caller_id c) calleeId
           || String.eqb (Call.callee_id c) calleeId)
          && non_terminal (Call.status c))
       (calls w).

(** The three guards of [startCall] (lines 8-36): two reads of the store
    and the comparison of the identities between them. *)
Definition startCall_checks (callerId calleeId : string) : M World unit :=
  let* callee := gets (active_user calleeId) in
  match callee with
  | None => throw (AppError "Callee not found" 404)
  | Some _ =>
      if String.eqb callerId calleeId
      then throw (AppError "Cannot call yourself" 400)
      else
        let* activeCall := gets (activeCall_of callerId calleeId) in
        match activeCall with
        | Some _ => throw (AppError "User is already in a call" 409)
        | None => ret tt
        end
  end.

(** The insertion of lines 38-51. *)
Definition startCall_insert (callerId calleeId : string) (callType : CallType)
  : M World Call.t :=
  let* started_at := new_Date in
  let* client_timestamp := new_Date in
  insert_call callerId calleeId callType initiated started_at
    (Some (JObj [("created_via", JStr "api");
                 ("client_timestamp", JIsoDate client_timestamp)])).

Definition startCall (callerId calleeId : string) (callType : CallType)
  : M World Call.t :=
  let* _ := startCall_checks callerId calleeId in
  startCall_insert callerId calleeId callType.

(** [userId && call.caller_id !== userId && call.callee_id !== userId] *)
Definition not_a_party (userId : option string) (call : Call.t) : bool :=
  match userId with
  | Some u =>
      negb (String.eqb u "")
      && negb (String.eqb (Call.caller_id call) u)
      && negb (String.eqb (Call.callee_id call) u)
  | None => false
  end.

(** The [updateData] object of lines 76-97, for every value of the
    [status] column ([initiated] is outside the parameter type of the
    source and takes the path of [ringing], which sets no timestamp).
    The clock is read once for [updated_at], once more for [answered_at]
    or [ended_at], and a third time inside the duration of an answered
    call. *)
Definition updateData_for (status : Status) (call : Call.t) : M World CallUpdate :=
  let* updated_at := new_Date in
  match status with
  | answered =>
      let* t := new_Date in
      ret (mkCallUpdate (Some status) (Some t) None None None (Some updated_at))
  | ended | missed | rejected =>
      let* t_end := new_Date in
      match Call.answered_at call with
      | Some t_answered =>
          let* t := new_Date in
          let duration := (t - t_answered) / 1000 in
          ret (mkCallUpdate (Some status) None (Some t_end) (Some duration) None
                            (Some updated_at))
      | None =>
          ret (mkCallUpdate (Some status) None (Some t_end) None None
                            (Some updated_at))
      end
  | initiated | ringing =>
      ret (mkCallUpdate (Some status) None None None None (Some updated_at))
  end.

(** The result is the first rewritten row ([const [updatedCall] = ...]),
    [None] standing for [undefined]. *)
Definition updateCallStatus (callId : string) (status : Status)
    (userId : option string) : M World (option Call.t) :=
  let* call := gets (fun w => find (has_id callId) (calls w)) in
  match call with
  | None => throw (AppError "Call not found" 404)
  | Some call =>
      if not_a_party userId call
      then throw (AppError "Unauthorized to update this call" 403)
      else
        let* updateData := updateData_for status call in
        let* rows := update_calls (has_id callId) updateData in
        ret (head rows)
  end.

(** [endCall] (lines 109-150).  The width of the column [end_reason],
    fifty characters, is not modelled: a longer reason is stored as
    given. *)
Definition endCall (callId userId : string) (endReason : option string)
  : M World (option Call.t) :=
  let endReason := or_keep endReason "completed" in
  let* call := gets (fun w =>
                 find (fun c => has_id callId c && involves userId c) (calls w)) in
  match call with
  | None => throw (AppError "Call not found or unauthorized" 404)
  | Some call =>
      if Status_eqb (Call.status call) ended
      then throw (AppError "Call already ended" 400)
      else
        let* endedAt := new_Date in
        let duration :=
          match Call.answered_at call with
          | Some t_answered => (endedAt - t_answered) / 1000
          | None => 0
          end in
        let* rows := update_calls (has_id callId)
                       (mkCallUpdate (Some ended) None (Some endedAt)
                                     (Some duration) (Some endReason)
                                     (Some endedAt)) in
        ret (head rows)
  end.

(** The rows [getActiveCall] selects (lines 238-244). *)
Definition getActiveCall_rows (userId : string) (w : World) : list Call.t :=
  List.filter (fun c => involves userId c && non_terminal (Call.status c)) (calls w).

Definition getActiveCall (userId : string) : M World (option Call.t) :=
  gets (fun w => head (order_by_desc Call.started_at (getActiveCall_rows userId w))).

Definition deleteCall (callId userId : string) : M World unit :=
  let matches := fun c => has_id callId c && involves userId c in
  let* result := gets (fun w => length (List.filter matches (calls w))) in
  let* _ := modify (set_calls (List.filter (fun c => negb (matches c)))) in
  if Nat.eqb result 0
  then throw (AppError "Call not found or unauthorized" 404)
  else ret tt.

(** [jsonb_set(metadata::jsonb, '{offer}', offer, true)::json].  The
    bindings of the statement are the offer, of type [jsonb], and the call
    identifier, of type [uuid]; a text the database cannot convert rejects
    the statement, whether or not a row has the identifier.
    ([createAnswer] writes the [answer] key in the same way, without the
    cast of the column; it touches no other column and is left out.) *)
Definition createOffer (callId : string) (offer : Json) : M World unit :=
  let* updated_at := new_Date in
  let* offer := jsonb_param offer in
  let* id := uuid_param callId in
  update_calls_checked (has_id id)
    (fun c =>
       match jsonb_set (Call.metadata c) "offer" offer with
       | Ok md => Ok (with_metadata md updated_at c)
       | Throw e => Throw e
       end).

(** [jsonb_set(metadata::jsonb, '{ice_candidates}',
      COALESCE(metadata::jsonb->'ice_candidates', '[]'::jsonb) || [candidate],
      true)::json] *)
Definition addIceCandidate (callId : string) (candidate : Json) : M World unit :=
  let* updated_at := new_Date in
  let* candidate := jsonb_param candidate in
  let* id := uuid_param callId in
  update_calls_checked (has_id id)
    (fun c =>
       let accumulated :=
         jsonb_concat_array
           (or_keep (jsonb_get (Call.metadata c) "ice_candidates") (JArr []))
           [candidate] in
       match jsonb_set (Call.metadata c) "ice_candidates" accumulated with
       | Ok md => Ok (with_metadata md updated_at c)
       | Throw e => Throw e
       end).

(** [getCall] (lines 152-165): the party filter is added only for a truthy
    [userId]. *)
Definition getCall (callId : string) (userId : option string)
  : M World (option Call.t) :=
  gets (fun w =>
    find (fun c => has_id callId c
                   && (if truthy userId
                       then involves (or_keep userId "") c
                       else true))
         (calls w)).

End CallService.

(** ** Statements on the [messages] table *)

Definition insert_message (sender_id recipient_id content message_type : string)
    (file_url : option string) (metadata : option Json) : M World Message.t :=
  fun w =>
    if references_user sender_id w && references_user recipient_id w then
      (let* id := gen_random_uuid in
       let* stamp := new_Date in
       let row := Message.mk id sender_id recipient_id content message_type
                             file_url false None false None metadata stamp stamp in
       let* _ := modify (set_messages (fun rows => rows ++ [row])) in
       ret row) w
    else (Throw (DatabaseError "violates foreign key constraint"), w).

(** [update({ is_read: true, read_at, updated_at })] on one row. *)
Definition mark_row_read (read_at updated_at : Z) (m : Message.t) : Message.t :=
  Message.mk (Message.id m) (Message.sender_id m) (Message.recipient_id m)
             (Message.content m) (Message.message_type m) (Message.file_url m)
             true (Some read_at)
             (Message.is_deleted m) (Message.deleted_at m) (Message.metadata m)
             (Message.created_at m) updated_at.

(** [where(p).update(...)]: the result is the number of rows written. *)
Definition update_messages (p : Message.t -> bool) (f : Message.t -> Message.t)
  : M World nat :=
  fun w =>
    (Ok (length (List.filter p (messages w))),
     set_messages (rewrite_rows p f) w).

(** [LIMIT limit OFFSET offset] of a raw statement; the executor rejects a
    negative offset, then a negative limit. *)
Definition limit_offset {R : Type} (limit offset : Z) (rows : list R)
  : Outcome (list R) :=
  if offset <? 0 then Throw (DatabaseError "OFFSET must not be negative")
  else if limit <? 0 then Throw (DatabaseError "LIMIT must not be negative")
  else Ok (firstn (Z.to_nat limit) (skipn (Z.to_nat offset) rows)).

(** [.limit(limit).offset(offset)] of the query builder, which itself
    refuses a negative offset before the statement is sent. *)
Definition knex_limit_offset {R : Type} (limit offset : Z) (rows : list R)
  : Outcome (list R) :=
  if offset <? 0
  then Throw (QueryBuilderError "A non-negative integer must be provided to offset.")
  else limit_offset limit offset rows.

Definition run_query {A : Type} (q : World -> Outcome A) : M World A :=
  fun w => (q w, w).

(** The [pagination] object; [pages] is [Math.ceil(total / limit)], which is
    a finite number only for a limit other than zero. *)
Record Pagination : Type := mkPagination {
  page : Z;
  limit : Z;
  total : Z;
  pages : option Z
}.

Definition pagination_of (page limit : Z) (total : nat) : Pagination :=
  mkPagination page limit (Z.of_nat total)
    (if limit =? 0 then None
     else Some (- ((- Z.of_nat total) / limit))).

Record Paginated (R : Type) : Type := mkPaginated {
  data : list R;
  pagination : Pagination
}.
Arguments mkPaginated {R} data pagination.
Arguments data {R} p.
Arguments pagination {R} p.

(** ** [MessageService] *)

Module MessageService.

Definition sendMessage (senderId recipientId content : string)
    (messageType : option string) (fileUrl : option string) : M World Message.t :=
  let messageType := or_keep messageType "text" in
  let* recipient := gets (active_user recipientId) in
  match recipient with
  | None => throw (AppError "Recipient not found" 404)
  | Some _ =>
      let* client_timestamp := new_Date in
      insert_message senderId recipientId content messageType fileUrl
        (Some (JObj [("sent_via", JStr "api");
                     ("client_timestamp", JIsoDate client_timestamp)]))
  end.

(** [where({sender_id: a, recipient_id: b}).orWhere({sender_id: b, recipient_id: a})] *)
Definition between (userId otherUserId : string) (m : Message.t) : bool :=
  (String.eqb (Message.sender_id m) userId
   && String.eqb (Message.recipient_id m) otherUserId)
  || (String.eqb (Message.sender_id m) otherUserId
      && String.eqb (Message.recipient_id m) userId).

Definition party (userId : string) (m : Message.t) : bool :=
  String.eqb (Message.sender_id m) userId
  || String.eqb (Message.recipient_id m) userId.

Definition getMessageHistory (userId otherUserId : string) (page limit : Z)
  : M World (Paginated Message.t) :=
  let* otherUser := gets (active_user otherUserId) in
  match otherUser with
  | None => throw (AppError "User not found" 404)
  | Some _ =>
      let offset := (page - 1) * limit in
      let selected := fun m => between userId otherUserId m
                               && negb (Message.is_deleted m) in
      let* rows := run_query (fun w =>
        knex_limit_offset limit offset
          (order_by_desc Message.created_at (List.filter selected (messages w)))) in
      let* total := gets (fun w => length (List.filter selected (messages w))) in
      ret (mkPaginated (rev rows) (pagination_of page limit total))
  end.

(** [markMessageAsRead] (lines 352-366).  The identifiers are bound to
    parameters compared with the [uuid] columns [id] and [recipient_id]. *)
Definition markMessageAsRead (messageId userId : string) : M World unit :=
  let* read_at := new_Date in
  let* updated_at := new_Date in
  let* id := uuid_param messageId in
  let* recipient_id := uuid_param userId in
  let* result := update_messages
    (fun m => String.eqb (Message.id m) id
              && String.eqb (Message.recipient_id m) recipient_id
              && negb (Message.is_read m))
    (mark_row_read read_at updated_at) in
  ret tt.

(** [markMessagesAsRead] (lines 368-384), on the [uuid] columns
    [sender_id] and [recipient_id]. *)
Definition markMessagesAsRead (senderId recipientId : string) : M World nat :=
  let* read_at := new_Date in
  let* updated_at := new_Date in
  let* sender_id := uuid_param senderId in
  let* recipient_id := uuid_param recipientId in
  let* result := update_messages
    (fun m => String.eqb (Message.sender_id m) sender_id
              && String.eqb (Message.recipient_id m) recipient_id
              && negb (Message.is_read m))
    (mark_row_read read_at updated_at) in
  ret result.

Definition getUnreadMessagesCount (userId : string) : M World nat :=
  gets (fun w =>
    length (List.filter
              (fun m => String.eqb (Message.recipient_id m) userId
                        && negb (Message.is_read m)
                        && negb (Message.is_deleted m))
              (messages w))).

(** *** [getConversations] *)

(** A row of the outer [SELECT] of lines 455-481. *)
Record Conversation : Type := mkConversation {
  id : string;
  sender_id : string;
  recipient_id : string;
  content : string;
  message_type : string;
  is_read : bool;
  created_at : Z;
  other_user_id : string;
  other_user_name : string;
  other_user_avatar : option string;
  unread_count : nat
}.

(** [CASE WHEN sender_id = ? THEN recipient_id ELSE sender_id END] *)
Definition other_user_of (userId : string) (m : Message.t) : string :=
  if String.eqb (Message.sender_id m) userId
  then Message.recipient_id m
  else Message.sender_id m.

(** The [FROM messages WHERE ...] of [ranked_messages]. *)
Definition visible_to (userId : string) (m : Message.t) : bool :=
  party userId m && negb (Message.is_deleted m).

(** The rows with [rn = 1] of a list already in the order of the window:
    the first row of each partition. *)
Fixpoint first_of_each {R : Type} (key : R -> string) (seen : list string)
    (rows : list R) : list R :=
  match rows with
  | [] => []
  | r :: rest =>
      if existsb (String.eqb (key r)) seen
      then first_of_each key seen rest
      else r :: first_of_each key (key r :: seen) rest
  end.

Definition latest_messages (userId : string) (w : World) : list Message.t :=
  first_of_each (other_user_of userId) []
    (order_by_desc Message.created_at
       (List.filter (visible_to userId) (messages w))).

(** The [unread] subquery, read at one sender. *)
Definition unread_from (userId sender : string) (w : World) : nat :=
  length (List.filter
            (fun m => String.eqb (Message.recipient_id m) userId
                      && negb (Message.is_read m)
                      && negb (Message.is_deleted m)
                      && String.eqb (Message.sender_id m) sender)
            (messages w)).

(** [JOIN users u ON u.id = lm.other_user_id ... WHERE u.is_active = true] *)
Definition joined (userId : string) (w : World) (lm : Message.t)
  : list Conversation :=
  let other := other_user_of userId lm in
  map (fun u =>
         mkConversation (Message.id lm) (Message.sender_id lm)
           (Message.recipient_id lm) (Message.content lm)
           (Message.message_type lm) (Message.is_read lm)
           (Message.created_at lm) other (User.name u) (User.avatar u)
           (unread_from userId other w))
      (List.filter (fun u => String.eqb (User.id u) other && User.is_active u)
                   (users w)).

Fixpoint distinct (seen : list string) (keys : list string) : list string :=
  match keys with
  | [] => []
  | k :: rest =>
      if existsb (String.eqb k) seen
      then distinct seen rest
      else k :: distinct (k :: seen) rest
  end.

Definition getConversations (userId : string) (page limit : Z)
  : M World (Paginated Conversation) :=
  let offset := (page - 1) * limit in
  let* rows := run_query (fun w =>
    limit_offset limit offset
      (order_by_desc created_at
         (flat_map (joined userId w) (latest_messages userId w)))) in
  let* total := gets (fun w =>
    length (distinct []
      (List.filter
         (fun other =>
            existsb (fun u => String.eqb (User.id u) other && User.is_active u)
                    (users w))
         (map (other_user_of userId)
              (List.filter (visible_to userId) (messages w)))))) in
  ret (mkPaginated rows (pagination_of page limit total)).

(** *** [searchMessages] *)

Record Found : Type := mkFound {
  message : Message.t;
  sender_name : string;
  recipient_name : string
}.

Section Search.

(** [content ILIKE pattern] of PostgreSQL, given the text and the
    pattern. *)
Variable ilike : string -> string -> bool.

Definition matching (userId query : string) (m : Message.t) : bool :=
  party userId m
  && negb (Message.is_deleted m)
  && ilike (Message.content m) ("%" +:+ query +:+ "%").

(** The two inner joins with [users]. *)
Definition with_names (w : World) (m : Message.t) : list Found :=
  flat_map
    (fun sender =>
       map (fun recipient => mkFound m (User.name sender) (User.name recipient))
           (List.filter
              (fun u => String.eqb (User.id u) (Message.recipient_id m))
              (users w)))
    (List.filter (fun u => String.eqb (User.id u) (Message.sender_id m))
                 (users w)).

Definition searchMessages (userId query : string) (page limit : Z)
  : M World (Paginated Found) :=
  let offset := (page - 1) * limit in
  let* rows := run_query (fun w =>
    knex_limit_offset limit offset
      (order_by_desc (fun r => Message.created_at (message r))
         (List.filter (fun r => matching userId query (message r))
                      (flat_map (with_names w) (messages w))))) in
  let* total := gets (fun w =>
    length (List.filter (matching userId query) (messages w))) in
  ret (mkPaginated rows (pagination_of page limit total)).

End Search.

(** *** Soft deletion and single reads *)


Definition with_id (messageId : string) (m : Message.t) : bool :=
  String.eqb (Message.id m) messageId.


(** [getMessageById] (lines 573-585). *)
Definition getMessageById (messageId userId : string) : M World (option Message.t) :=
  gets (fun w =>
    find (fun m => with_id messageId m && party userId m
                   && negb (Message.is_deleted m))
         (messages w)).


End MessageService.

(** ** [CallService.getCallHistory] and [CallController.getCall] *)

(** The text stored in the [status] column. *)
Definition status_text (s : Status) : string :=
  match s with
  | initiated => "initiated"
  | ringing => "ringing"
  | answered => "answered"
  | ended => "ended"
  | missed => "missed"
  | rejected => "rejected"
  end.

Definition CallType_eqb (a b : CallType) : bool :=
  match a, b with
  | voice, voice | video, video => true
  | _, _ => false
  end.

Module CallHistory.

(** A row of [select('calls.*', 'caller.name as caller_name',
    'callee.name as callee_name')]. *)
Record Row : Type := mkRow {
  call : Call.t;
  caller_name : string;
  callee_name : string
}.

(** The [where] of both queries of [getCallHistory]: the party clause, and
    the two filters, each added for a truthy argument only. *)
Definition selected (userId : string) (callType : option CallType)
    (status : option string) (c : Call.t) : bool :=
  CallService.involves userId c
  && match callType with
     | Some t => CallType_eqb (Call.call_type c) t
     | None => true
     end
  && (if truthy status
      then String.eqb (status_text (Call.status c)) (or_keep status "")
      else true).

(** The two inner joins with [users]. *)
Definition with_names (w : World) (c : Call.t) : list Row :=
  flat_map
    (fun caller =>
       map (fun callee => mkRow c (User.name caller) (User.name callee))
           (List.filter (fun u => String.eqb (User.id u) (Call.callee_id c))
                        (users w)))
    (List.filter (fun u => String.eqb (User.id u) (Call.caller_id c)) (users w)).

(** [getCallHistory] (lines 167-235). *)
Definition getCallHistory (userId : string) (page limit : Z)
    (callType : option CallType) (status : option string)
  : M World (Paginated Row) :=
  let offset := (page - 1) * limit in
  let* rows := run_query (fun w =>
    knex_limit_offset limit offset
      (order_by_desc (fun r => Call.started_at (call r))
         (List.filter (fun r => selected userId callType status (call r))
                      (flat_map (with_names w) (calls w))))) in
  let* total := gets (fun w =>
    length (List.filter (selected userId callType status) (calls w))) in
  ret (mkPaginated rows (pagination_of page limit total)).

End CallHistory.

Module CallController.

(** [CallController.getCall] (callController.ts, lines 90-107), as the
    value it responds with or the error it throws; [userId] is the
    identity of the verified token. *)
Definition getCall (userId callId : string) : M World Call.t :=
  let* call := CallService.getCall callId (Some userId) in
  match call with
  | None => throw (AppError "Call not found" 404)
  | Some call => ret call
  end.

End CallController.

(** ** [SocketHandler] *)

Module SocketHandler.

Record SocketUser : Type := mkSocketUser {
  userId : string;
  socketId : string;
  isOnline : bool;
  lastSeen : Z
}.

(** A socket that passed the authentication middleware: its session
    identifier and the identity taken from the token. *)
Record AuthenticatedSocket : Type := mkSocket {
  socket_id : string;
  socket_userId : string
}.

(** The events the modelled handlers emit, with their payloads. *)
Inductive Event : Type :=
  | user_status (userId : string) (isOnline : bool) (timestamp : Z)
  | new_message (message : Message.t) (sender_name : option string)
  | message_read (readBy : string) (messageId : option string) (timestamp : Z).

(** [io.to(room).emit(...)] is [emit_to (Some room)]; [io.emit(...)] is
    [emit_to None]. *)
Record Emission : Type := mkEmission {
  room : option string;
  event : Event
}.

(** The handler object: the store it reaches through the services, its
    two maps, and the emissions made so far, oldest first. *)
Record Server : Type := mkServer {
  world : World;
  connectedUsers : gmap string SocketUser;
  userSocketMap : gmap string string;
  emitted : list Emission
}.

(** The object passed to the acknowledgement callback. *)
Inductive Ack : Type :=
  | success (data : option Message.t)
  | failure (error : string).

Definition error_message (e : Failure) : string :=
  match e with
  | AppError message _ => message
  | DatabaseError message => message
  | QueryBuilderError message => message
  end.

Definition service {A : Type} (m : M World A) : M Server A :=
  fun s =>
    let '(r, w) := m (world s) in
    (r, mkServer w (connectedUsers s) (userSocketMap s) (emitted s)).

Definition emit_to (room : option string) (e : Event) : M Server unit :=
  modify (fun s =>
    mkServer (world s) (connectedUsers s) (userSocketMap s)
             (emitted s ++ [mkEmission room e])).

Definition broadcastUserStatus (userId : string) (isOnline : bool) : M Server unit :=
  let* timestamp := service new_Date in
  emit_to None (user_status userId isOnline timestamp).

(** [this.userSocketMap.get(key)], also at an [undefined] key. *)
Definition userSocketMap_get (key : option string) : M Server (option string) :=
  gets (fun s =>
    match key with
    | Some k => userSocketMap s !! k
    | None => None
    end).

Definition handleConnection (socket : AuthenticatedSocket) : M Server unit :=
  let userId := socket_userId socket in
  let* lastSeen := service new_Date in
  let* _ := modify (fun s =>
    mkServer (world s)
      (<[socket_id socket := mkSocketUser userId (socket_id socket) true lastSeen]>
         (connectedUsers s))
      (userSocketMap s) (emitted s)) in
  let* _ := modify (fun s =>
    mkServer (world s) (connectedUsers s)
      (<[userId := socket_id socket]> (userSocketMap s)) (emitted s)) in
  broadcastUserStatus userId true.

Definition handleDisconnection (socket : AuthenticatedSocket) : M Server unit :=
  let userId := socket_userId socket in
  let* _ := modify (fun s =>
    mkServer (world s) (delete (socket_id socket) (connectedUsers s))
             (userSocketMap s) (emitted s)) in
  let* _ := modify (fun s =>
    mkServer (world s) (connectedUsers s)
             (delete userId (userSocketMap s)) (emitted s)) in
  broadcastUserStatus userId false.

Definition getUserOnlineStatus (userId : string) (s : Server) : bool :=
  bool_decide (is_Some (userSocketMap s !! userId)).

(** [try { body } catch (error) { callback({ success: false, ... }) }] *)
Definition try_catch (body : M Server Ack) : Server -> Ack * Server :=
  fun s =>
    match body s with
    | (Ok ack, s') => (ack, s')
    | (Throw e, s') => (failure (error_message e), s')
    end.

Record SendMessageData : Type := mkSendMessageData {
  recipientId : option string;
  content : option string;
  messageType : option string;
  fileUrl : option string
}.

(** The string held by a value a truthiness test has let through. *)
Definition the (v : option string) : string := or_keep v "".

(** The listener of [send_message] (lines 182-215); the result is the
    acknowledgement. *)
Definition on_send_message (socket : AuthenticatedSocket) (data : SendMessageData)
  : Server -> Ack * Server :=
  let userId := socket_userId socket in
  try_catch
    (if negb (truthy (recipientId data)) || negb (truthy (content data))
     then ret (failure "Missing required fields")
     else
       let* message := service
         (MessageService.sendMessage userId (the (recipientId data))
            (the (content data))
            (Some (or_keep (messageType data) "text")) (fileUrl data)) in
       let* recipientSocketId := userSocketMap_get (recipientId data) in
       let* _ :=
         if truthy recipientSocketId
         then
           let* sender := gets (fun s => connectedUsers s !! socket_id socket) in
           emit_to (Some (the recipientSocketId))
             (new_message message
                (match sender with
                 | Some u => Some (SocketHandler.userId u)
                 | None => None
                 end))
         else ret tt in
       ret (success (Some message))).

Record MarkReadData : Type := mkMarkReadData {
  messageId : option string;
  senderId : option string
}.

(** The listener of [mark_read] (lines 218-243). *)
Definition on_mark_read (socket : AuthenticatedSocket) (data : MarkReadData)
  : Server -> Ack * Server :=
  let userId := socket_userId socket in
  try_catch
    (let* _ :=
       if truthy (messageId data)
       then service (MessageService.markMessageAsRead (the (messageId data)) userId)
       else if truthy (senderId data)
       then
         let* _ := service
           (MessageService.markMessagesAsRead (the (senderId data)) userId) in
         ret tt
       else ret tt in
     let* senderSocketId := userSocketMap_get (senderId data) in
     let* _ :=
       if truthy senderSocketId
       then
         let* timestamp := service new_Date in
         emit_to (Some (the senderSocketId))
           (message_read userId (messageId data) timestamp)
       else ret tt in
     ret (success None)).

End SocketHandler.

(** ** [SocketHandler]: call, signalling and typing listeners *)

Module SocketEvents.

(** The events these listeners emit, each to the room of one session. *)
Inductive Signal : Type :=
  | incoming_call (callId callerId callerName : string) (callType : CallType)
  | call_answered (callId answeredBy : string)
  | call_rejected (callId rejectedBy : string)
  | call_ended (callId endedBy endReason : string) (duration : option Z)
  | webrtc_offer (callId : string) (offer : Json) (fromUserId : string)
  | webrtc_ice_candidate (callId : string) (candidate : Json) (fromUserId : string)
  | user_typing (userId : string) (typing : bool)
  | notification (payload : Json).

(** The handler object together with the log of these emissions, oldest
    first; each entry is the session addressed and the event. *)
Record Hub : Type := mkHub {
  server : SocketHandler.Server;
  signalled : list (string * Signal)
}.

Inductive CallAck : Type :=
  | call_success (data : option Call.t)
  | call_failure (error : string).

Definition service {A : Type} (m : M World A) : M Hub A :=
  fun h =>
    let '(r, s) := SocketHandler.service m (server h) in
    (r, mkHub s (signalled h)).

(** [this.io.to(socketId).emit(...)] *)
Definition signal (socketId : string) (e : Signal) : M Hub unit :=
  modify (fun h => mkHub (server h) (signalled h ++ [(socketId, e)])).

(** [this.userSocketMap.get(key)] *)
Definition lookup_session (key : option string) : M Hub (option string) :=
  gets (fun h =>
    match key with
    | Some k => SocketHandler.userSocketMap (server h) !! k
    | None => None
    end).

(** [if (socketId) { this.io.to(socketId).emit(...) }] *)
Definition signal_if_online (socketId : option string) (e : Signal) : M Hub unit :=
  if truthy socketId then signal (SocketHandler.the socketId) e else ret tt.

Definition try_catch (body : M Hub CallAck) : Hub -> CallAck * Hub :=
  fun h =>
    match body h with
    | (Ok ack, h') => (ack, h')
    | (Throw e, h') => (call_failure (SocketHandler.error_message e), h')
    end.

(** The acknowledgement of a listener that read a field of [undefined]. *)
Definition undefined_call : CallAck :=
  call_failure "Cannot read properties of undefined (reading 'caller_id')".

Record StartCallData : Type := mkStartCallData {
  calleeId : string;
  callType : CallType
}.

(** The listener of [start_call] (lines 266-293). *)
Definition on_start_call (socket : SocketHandler.AuthenticatedSocket)
    (data : StartCallData) : Hub -> CallAck * Hub :=
  let userId := SocketHandler.socket_userId socket in
  try_catch
    (let* call := service
       (CallService.startCall userId (calleeId data) (callType data)) in
     let* calleeSocketId := lookup_session (Some (calleeId data)) in
     let* _ :=
       if truthy calleeSocketId
       then
         let* _ := signal (SocketHandler.the calleeSocketId)
                     (incoming_call (Call.id call) userId "Unknown" (callType data)) in
         let* _ := service
                     (CallService.updateCallStatus (Call.id call) ringing None) in
         ret tt
       else ret tt in
     ret (call_success (Some call))).

(** The listeners of [answer_call] and [reject_call] (lines 296-343), which
    differ in the status asked for and the event pushed to the caller. *)
Definition on_call_reply (status : Status) (pushed : string -> string -> Signal)
    (socket : SocketHandler.AuthenticatedSocket) (callId : string)
  : Hub -> CallAck * Hub :=
  let userId := SocketHandler.socket_userId socket in
  try_catch
    (let* call := service
       (CallService.updateCallStatus callId status (Some userId)) in
     match call with
     | None => ret undefined_call
     | Some call =>
         let* callerSocketId := lookup_session (Some (Call.caller_id call)) in
         let* _ := signal_if_online callerSocketId (pushed callId userId) in
         ret (call_success (Some call))
     end).

Definition on_answer_call := on_call_reply answered call_answered.

Definition on_reject_call := on_call_reply rejected call_rejected.



Record RelayData : Type := mkRelayData {
  relay_callId : string;
  payload : Json;
  targetUserId : option string
}.

(** The listeners of [webrtc_offer] and [webrtc_ice_candidate] (lines
    374-383 and 396-405): no acknowledgement and no [catch]; a rejected
    statement is the outcome of the listener. *)
Definition on_webrtc_offer (socket : SocketHandler.AuthenticatedSocket)
    (data : RelayData) : M Hub unit :=
  let userId := SocketHandler.socket_userId socket in
  let* _ := service (CallService.createOffer (relay_callId data) (payload data)) in
  let* targetSocketId := lookup_session (targetUserId data) in
  signal_if_online targetSocketId
    (webrtc_offer (relay_callId data) (payload data) userId).

Definition on_webrtc_ice_candidate (socket : SocketHandler.AuthenticatedSocket)
    (data : RelayData) : M Hub unit :=
  let userId := SocketHandler.socket_userId socket in
  let* _ := service
    (CallService.addIceCandidate (relay_callId data) (payload data)) in
  let* targetSocketId := lookup_session (targetUserId data) in
  signal_if_online targetSocketId
    (webrtc_ice_candidate (relay_callId data) (payload data) userId).

(** The listeners of [typing_start] and [typing_stop] (lines 411-433). *)
Definition on_typing (typing : bool) (socket : SocketHandler.AuthenticatedSocket)
    (recipientId : option string) : M Hub unit :=
  let userId := SocketHandler.socket_userId socket in
  let* recipientSocketId := lookup_session recipientId in
  signal_if_online recipientSocketId (user_typing userId typing).

(** [sendNotificationToUser] (lines 464-469). *)
Definition sendNotificationToUser (userId : string) (payload : Json) : M Hub unit :=
  let* socketId := lookup_session (Some userId) in
  signal_if_online socketId (notification payload).

(** [[userId1, userId2].sort()]: the two identifiers in ascending order of
    their texts, compared character by character. *)
Definition sorted_pair (userId1 userId2 : string) : string * string :=
  if String.ltb userId2 userId1 then (userId2, userId1) else (userId1, userId2).

(** [getConversationRoom] (lines 457-461). *)
Definition getConversationRoom (userId1 userId2 : string) : string :=
  let sortedIds := sorted_pair userId1 userId2 in
  "conversation:" +:+ fst sortedIds +:+ ":" +:+ snd sortedIds.

End SocketEvents.

(** ** Histories of the sessions *)

(** The handler states reached from empty maps by connections of sockets
    with a new session identifier, disconnections of connected sockets,
    and message events. *)
Inductive sessions_reachable : SocketHandler.Server -> Prop :=
  | sessions_init (w : World) :
      sessions_reachable (SocketHandler.mkServer w ∅ ∅ [])
  | sessions_connect (s : SocketHandler.Server)
      (socket : SocketHandler.AuthenticatedSocket) :
      sessions_reachable s ->
      SocketHandler.connectedUsers s !! SocketHandler.socket_id socket = None ->
      sessions_reachable (snd (SocketHandler.handleConnection socket s))
  | sessions_disconnect (s : SocketHandler.Server)
      (socket : SocketHandler.AuthenticatedSocket) (u : SocketHandler.SocketUser) :
      sessions_reachable s ->
      SocketHandler.connectedUsers s !! SocketHandler.socket_id socket = Some u ->
      SocketHandler.userId u = SocketHandler.socket_userId socket ->
      sessions_reachable (snd (SocketHandler.handleDisconnection socket s))
  | sessions_send (s : SocketHandler.Server)
      (socket : SocketHandler.AuthenticatedSocket)
      (data : SocketHandler.SendMessageData) :
      sessions_reachable s ->
      sessions_reachable (snd (SocketHandler.on_send_message socket data s))
  | sessions_mark (s : SocketHandler.Server)
      (socket : SocketHandler.AuthenticatedSocket)
      (data : SocketHandler.MarkReadData) :
      sessions_reachable s ->
      sessions_reachable (snd (SocketHandler.on_mark_read socket data s)).

(** ** Histories of the call store *)

(** The requests that write to [calls]. *)
Inductive Request : Type :=
  | start_call (callerId calleeId : string) (callType : CallType)
  | update_status (callId : string) (status : Status) (userId : option string)
  | end_call (callId userId : string) (endReason : option string)
  | delete_call (callId userId : string)
  | webrtc_offer (callId : string) (offer : Json)
  | webrtc_ice_candidate (callId : string) (candidate : Json).

(** The store after a request, whether it returned or threw. *)
Definition serve (r : Request) (w : World) : World :=
  match r with
  | start_call callerId calleeId callType =>
      snd (CallService.startCall callerId calleeId callType w)
  | update_status callId status userId =>
      snd (CallService.updateCallStatus callId status userId w)
  | end_call callId userId endReason =>
      snd (CallService.endCall callId userId endReason w)
  | delete_call callId userId =>
      snd (CallService.deleteCall callId userId w)
  | webrtc_offer callId offer =>
      snd (CallService.createOffer callId offer w)
  | webrtc_ice_candidate callId candidate =>
      snd (CallService.addIceCandidate callId candidate w)
  end.

(** The stores reached from an empty [calls] table. *)
Inductive reachable : World -> Prop :=
  | reachable_init (w : World) : calls w = [] -> reachable w
  | reachable_step (w : World) (r : Request) :
      reachable w -> reachable (serve r w).

(** A status update that asks for a non-terminal status while a row with
    that identifier holds a terminal one. *)
Definition revives (r : Request) (w : World) : bool :=
  match r with
  | update_status callId status _ =>
      CallService.non_terminal status
      && existsb (fun c => CallService.has_id callId c
                           && negb (CallService.non_terminal (Call.status c)))
                 (calls w)
  | _ => false
  end.

Inductive reachable_without_revival : World -> Prop :=
  | rwr_init (w : World) : calls w = [] -> reachable_without_revival w
  | rwr_step (w : World) (r : Request) :
      reachable_without_revival w -> revives r w = false ->
      reachable_without_revival (serve r w).

(** The one-active-call invariant: the rows [getActiveCall] selects for a
    user are at most one. *)
Definition one_active_call_per_user (w : World) : Prop :=
  forall U : string, (length (CallService.getActiveCall_rows U w) <= 1)%nat.

(** The accumulated candidates of a call: the array under
    [ice_candidates] of its metadata, empty when the key is absent. *)
Definition ice_candidates (c : Call.t) : list Json :=
  match jsonb_get (Call.metadata c) "ice_candidates" with
  | Some (JArr items) => items
  | _ => []
  end.

(** The metadata every stored call has: an object whose [ice_candidates],
    when present, is an array. *)
Definition metadata_ready (c : Call.t) : bool :=
  match Call.metadata c with
  | Some (JObj fields) =>
      match obj_get "ice_candidates" fields with
      | None | Some (JArr _) => true
      | Some _ => false
      end
  | _ => false
  end.

(** [c'] is selected by [getActiveCall] for a user only if [c] is. *)
Definition no_more_active (c c' : Call.t) : Prop :=
  forall U : string,
    CallService.involves U c' && CallService.non_terminal (Call.status c') = true ->
    CallService.involves U c && CallService.non_terminal (Call.status c) = true.

(** What a rewrite of the metadata leaves in place. *)
Definition same_call_state (c c' : Call.t) : Prop :=
  Call.id c' = Call.id c
  /\ Call.caller_id c' = Call.caller_id c
  /\ Call.callee_id c' = Call.callee_id c
  /\ Call.status c' = Call.status c.

(** [c'] is [c] with [candidates] appended to its accumulated candidates
    when its identifier is [callId], and with the same candidates
    otherwise. *)
Definition appended (callId : string) (candidates : list Json) (c c' : Call.t)
  : Prop :=
  same_call_state c c'
  /\ metadata_ready c' = true
  /\ ice_candidates c' =
     if CallService.has_id callId c
     then ice_candidates c ++ candidates
     else ice_candidates c.

(** A sequence of invocations, stopping at the first that throws. *)
Fixpoint for_each {S A : Type} (f : A -> M S unit) (l : list A) : M S unit :=
  match l with
  | [] => ret tt
  | a :: rest => let* _ := f a in for_each f rest
  end.

(** The store without its soft-deleted messages. *)
Definition without_deleted (w : World) : World :=
  set_messages (List.filter (fun m => negb (Message.is_deleted m))) w.


(** Every entry of [userSocketMap] names a session that [connectedUsers]
    holds for the same user. *)
Definition registry_live (s : SocketHandler.Server) : Prop :=
  forall (u sid : string),
    SocketHandler.userSocketMap s !! u = Some sid ->
    exists su, SocketHandler.connectedUsers s !! sid = Some su
               /\ SocketHandler.userId su = u.

(** The two maps of the handler are the same in [s] and [s']. *)
Definition same_sessions (s s' : SocketHandler.Server) : Prop :=
  SocketHandler.connectedUsers s' = SocketHandler.connectedUsers s
  /\ SocketHandler.userSocketMap s' = SocketHandler.userSocketMap s.

(** ** Orders of rows *)

(** Every row is followed by rows of a key no greater, resp. no smaller. *)
Fixpoint descending {R : Type} (key : R -> Z) (rows : list R) : Prop :=
  match rows with
  | [] => True
  | x :: rest => (forall y, In y rest -> key y <= key x) /\ descending key rest
  end.

Fixpoint ascending {R : Type} (key : R -> Z) (rows : list R) : Prop :=
  match rows with
  | [] => True
  | x :: rest => (forall y, In y rest -> key x <= key y) /\ ascending key rest
  end.

(** ** Sample data *)

Module Sample.

(** Identifiers, in the form the database returns them. *)
Definition alice : string := "a11ce000-0000-4000-8000-000000000001".
Definition bob : string := "b0b00000-0000-4000-8000-000000000002".
Definition carol : string := "ca201000-0000-4000-8000-000000000003".
Definition dave : string := "da7e0000-0000-4000-8000-000000000004".
Definition m1 : string := "e0000000-0000-4000-8000-000000000001".
Definition m2 : string := "e0000000-0000-4000-8000-000000000002".
Definition m3 : string := "e0000000-0000-4000-8000-000000000003".
Definition m9 : string := "e0000000-0000-4000-8000-000000000009".
Definition id_0 : string := "00000000-0000-4000-8000-000000000000".
Definition id_1 : string := "00000000-0000-4000-8000-000000000001".

Definition people : list User.t :=
  [ User.mk alice "Alice" None true;
    User.mk bob "Bob" (Some "bob.png") true;
    User.mk carol "Carol" None true;
    User.mk dave "Dave" None false ].

(** A clock that advances by 700 ms between two reads. *)
Definition ticking (n : nat) : Z := 1700000000000 + 700 * Z.of_nat n.

(** The identifier oracle: the uuid whose last twelve digits are [n] in
    decimal. *)
Definition numbered (n : nat) : string :=
  let digits := "000000000000" +:+ pretty n in
  "00000000-0000-4000-8000-" +:+ substring (String.length (pretty n)) 12 digits.

Definition fresh : World := mkWorld people [] [] ticking 0 numbered 0.

Definition hello (id : string) (is_read is_deleted : bool) (at_ : Z) : Message.t :=
  Message.mk id bob alice "hello" "text" None
             is_read (if is_read then Some (at_ + 5) else None)
             is_deleted (if is_deleted then Some (at_ + 9) else None)
             None at_ at_.

Definition mailbox : World :=
  mkWorld people []
    [ hello m1 false false 100; hello m2 true false 200;
      hello m3 false true 300 ]
    ticking 0 numbered 0.

Definition alice_1 := SocketHandler.mkSocket "sock-a1" alice.
Definition alice_2 := SocketHandler.mkSocket "sock-a2" alice.
Definition bob_1 := SocketHandler.mkSocket "sock-b1" bob.

(** Alice has called Bob. *)
Definition dialing : World := serve (start_call alice bob voice) fresh.

(** Alice has called Bob and hung up. *)
Definition hung_up : World := serve (end_call id_0 alice None) dialing.

(** Bob answered, and Alice hung up later. *)
Definition talked : World :=
  serve (end_call id_0 alice (Some "completed"))
        (serve (update_status id_0 answered (Some bob)) dialing).

(** After hanging up Alice called Carol, and then the first call was
    moved to [ringing]. *)
Definition double_booked : World :=
  serve (update_status id_0 ringing (Some alice))
        (serve (start_call alice carol video) hung_up).

Definition idle (w : World) : SocketHandler.Server :=
  SocketHandler.mkServer w ∅ ∅ [].

Definition after {A : Type} (m : M SocketHandler.Server A)
    (s : SocketHandler.Server) : SocketHandler.Server := snd (m s).

(** Alice connected twice, the second connection last. *)
Definition reconnected : SocketHandler.Server :=
  after (SocketHandler.handleConnection alice_2)
        (after (SocketHandler.handleConnection alice_1) (idle fresh)).

(** Bob is connected; the store holds his three messages to Alice. *)
Definition bob_online : SocketHandler.Server :=
  after (SocketHandler.handleConnection bob_1) (idle mailbox).

Definition ack_m1 : SocketHandler.MarkReadData :=
  SocketHandler.mkMarkReadData (Some m1) (Some bob).

(** Alice has acknowledged [m1] once, and twice. *)
Definition acknowledged_once : SocketHandler.Server :=
  snd (SocketHandler.on_mark_read alice_1 ack_m1 bob_online).

Definition acknowledged_twice : SocketHandler.Server :=
  snd (SocketHandler.on_mark_read alice_1 ack_m1 acknowledged_once).


End Sample.

(** * Properties *)

(** ** Lists and queries *)


Lemma find_first_of {A : Type} (p q : A -> bool) (l : list A) (x : A) :
  find p l = Some x -> q x = true ->
  find (fun a => p a && q a) l = Some x.
Proof.
  induction l as [|a l IH]; simpl; [discriminate|].
  destruct (p a) eqn:Hp; simpl.
  - intros [= ->] Hq. now rewrite Hq.
  - auto.
Qed.

Lemma head_map_filter {A B : Type} (p : A -> bool) (f : A -> B) (l : list A) :
  head (map f (List.filter p l)) = option_map f (find p l).
Proof.
  induction l as [|a l IH]; simpl; [reflexivity|].
  destruct (p a); simpl; auto.
Qed.

Lemma rewrite_rows_In {R : Type} (p : R -> bool) (f : R -> R) (l : list R) (x : R) :
  In x l -> p x = true -> In (f x) (rewrite_rows p f l).
Proof.
  intros Hin Hp. unfold rewrite_rows.
  apply in_map_iff. exists x. now rewrite Hp.
Qed.

Lemma rewrite_rows_none {R : Type} (p : R -> bool) (f : R -> R) (l : list R) :
  (forall x, In x l -> p x = false) -> rewrite_rows p f l = l.
Proof.
  intros H. unfold rewrite_rows.
  induction l as [|a l IH]; simpl; [reflexivity|].
  rewrite (H a) by now left.
  f_equal. apply IH. intros x Hx. apply H. now right.
Qed.

(** Rows that keep, pairwise, at most the property [q] are selected no
    more often. *)
Lemma filter_length_Forall2 {R : Type} (q : R -> bool) (l l' : list R) :
  Forall2 (fun r r' => q r' = true -> q r = true) l l' ->
  (length (List.filter q l') <= length (List.filter q l))%nat.
Proof.
  induction 1 as [|r r' l l' Hrr' _ IH]; simpl; [lia|].
  destruct (q r') eqn:Hq'.
  - rewrite (Hrr' eq_refl). simpl. lia.
  - destruct (q r); simpl; lia.
Qed.

Lemma Forall2_rewrite_rows {R : Type} (P : R -> R -> Prop) (p : R -> bool)
    (f : R -> R) (l : list R) :
  (forall r, P r r) -> (forall r, In r l -> p r = true -> P r (f r)) ->
  Forall2 P l (rewrite_rows p f l).
Proof.
  intros Hrefl Hf. unfold rewrite_rows.
  induction l as [|a l IH]; simpl; constructor.
  - destruct (p a) eqn:Hp; [apply Hf; auto using in_eq | apply Hrefl].
  - apply IH. intros r Hr. apply Hf. now right.
Qed.

Lemma Forall2_rewrite_rows_checked {R : Type} (P : R -> R -> Prop) (p : R -> bool)
    (f : R -> Outcome R) (l l' : list R) :
  (forall r, P r r) -> (forall r r', In r l -> p r = true -> f r = Ok r' -> P r r') ->
  rewrite_rows_checked p f l = Ok l' ->
  Forall2 P l l'.
Proof.
  intros Hrefl. revert l'.
  induction l as [|a l IH]; simpl; intros l' Hf H.
  - injection H as <-. constructor.
  - destruct (p a) eqn:Hp.
    + destruct (f a) as [a'|] eqn:Hfa; [|discriminate].
      destruct (rewrite_rows_checked p f l) as [rest|] eqn:Hrest; [|discriminate].
      injection H as <-. constructor.
      * apply Hf; auto using in_eq.
      * apply IH; auto; intros r r' Hr; apply Hf; now right.
    + destruct (rewrite_rows_checked p f l) as [rest|] eqn:Hrest; [|discriminate].
      injection H as <-. constructor; [apply Hrefl|].
      apply IH; auto; intros r r' Hr; apply Hf; now right.
Qed.


(** ** [startCall] *)

Lemma activeCall_of_None (callerId calleeId : string) (w : World) :
  CallService.activeCall_of callerId calleeId w = None <->
  (forall c, In c (calls w) -> CallService.non_terminal (Call.status c) = true ->
     CallService.involves callerId c = false /\ CallService.involves calleeId c = false).
Proof.
  unfold CallService.activeCall_of, CallService.involves. split.
  - intros H c Hin Hnt.
    pose proof (find_none _ _ H c Hin) as Hf. simpl in Hf.
    rewrite Hnt, andb_true_r in Hf.
    repeat (apply orb_false_elim in Hf as [Hf ?]).
    split; apply orb_false_intro; assumption.
  - intros H.
    destruct (find _ (calls w)) as [c|] eqn:E; [|reflexivity].
    apply find_some in E as [Hin Hc].
    apply andb_prop in Hc as [Hinv Hnt].
    destruct (H c Hin Hnt) as [Ha Hb].
    apply orb_false_elim in Ha as [Ha1 Ha2].
    apply orb_false_elim in Hb as [Hb1 Hb2].
    rewrite Ha1, Ha2, Hb1, Hb2 in Hinv. discriminate.
Qed.

Lemma startCall_insert_run (callerId calleeId : string) (callType : CallType)
    (w : World) :
  references_user callerId w = true -> references_user calleeId w = true ->
  let call :=
    Call.mk (uuid w (uuids_drawn w)) callerId calleeId callType initiated
            (clock w (clock_reads w)) None None None None
            (Some (JObj [("created_via", JStr "api");
                         ("client_timestamp", JIsoDate (clock w (S (clock_reads w))))]))
            (clock w (S (S (clock_reads w)))) (clock w (S (S (clock_reads w)))) in
  CallService.startCall_insert callerId calleeId callType w =
  (Ok call,
   mkWorld (users w) (calls w ++ [call]) (messages w)
           (clock w) (S (S (S (clock_reads w)))) (uuid w) (S (uuids_drawn w))).
Proof.
  intros Ha Hb.
  unfold CallService.startCall_insert, insert_call, bind, new_Date,
    gen_random_uuid, modify, ret, set_calls, references_user in *.
  simpl. rewrite Ha, Hb. reflexivity.
Qed.

Lemma startCall_insert_throws (callerId calleeId : string) (callType : CallType)
    (w : World) :
  references_user callerId w && references_user calleeId w = false ->
  exists e w', CallService.startCall_insert callerId calleeId callType w = (Throw e, w')
               /\ calls w' = calls w.
Proof.
  intros H.
  unfold CallService.startCall_insert, insert_call, bind, new_Date,
    references_user in *.
  simpl. rewrite H. eauto.
Qed.

Lemma startCall_run (callerId calleeId : string) (callType : CallType) (w : World) :
  CallService.startCall callerId calleeId callType w =
  match active_user calleeId w with
  | None => (Throw (AppError "Callee not found" 404), w)
  | Some _ =>
      if String.eqb callerId calleeId
      then (Throw (AppError "Cannot call yourself" 400), w)
      else
        match CallService.activeCall_of callerId calleeId w with
        | Some _ => (Throw (AppError "User is already in a call" 409), w)
        | None => CallService.startCall_insert callerId calleeId callType w
        end
  end.
Proof.
  unfold CallService.startCall, CallService.startCall_checks, bind, gets, throw, ret.
  destruct (active_user calleeId w); [|reflexivity].
  destruct (String.eqb callerId calleeId); [reflexivity|].
  destruct (CallService.activeCall_of callerId calleeId w); reflexivity.
Qed.



Lemma startCall_calls (callerId calleeId : string) (callType : CallType) (w : World) :
  let w' := snd (CallService.startCall callerId calleeId callType w) in
  calls w' = calls w
  \/ (CallService.activeCall_of callerId calleeId w = None
      /\ exists call, calls w' = calls w ++ [call]
                      /\ Call.caller_id call = callerId
                      /\ Call.callee_id call = calleeId
                      /\ Call.status call = initiated
                      /\ metadata_ready call = true).
Proof.
  cbv zeta. rewrite startCall_run.
  destruct (active_user calleeId w); [|now left].
  destruct (String.eqb callerId calleeId); [now left|].
  destruct (CallService.activeCall_of callerId calleeId w) eqn:Hbusy; [now left|].
  destruct (references_user callerId w && references_user calleeId w) eqn:Href.
  - apply andb_prop in Href as [Ha Hb].
    rewrite startCall_insert_run by assumption.
    right. split; [reflexivity|]. eexists. simpl. repeat split; reflexivity.
  - destruct (startCall_insert_throws callerId calleeId callType w Href)
      as (e & w1 & E & Hcalls).
    rewrite E. now left.
Qed.

(** ** Status updates *)

Lemma updateData_for_run (status : Status) (call : Call.t) (w : World) :
  exists (u : CallUpdate) (w1 : World),
    CallService.updateData_for status call w = (Ok u, w1)
    /\ calls w1 = calls w /\ users w1 = users w /\ messages w1 = messages w
    /\ set_status u = Some status
    /\ set_end_reason u = None
    /\ (CallService.non_terminal status = false ->
        set_ended_at u = Some (clock w (S (clock_reads w)))
        /\ set_duration_seconds u =
           match Call.answered_at call with
           | Some t_answered =>
               Some ((clock w (S (S (clock_reads w))) - t_answered) / 1000)
           | None => None
           end).
Proof.
  unfold CallService.updateData_for, bind, new_Date, ret.
  destruct status; simpl;
    try (destruct (Call.answered_at call); simpl);
    do 2 eexists; (split; [reflexivity|]); simpl;
    repeat split; try reflexivity; discriminate.
Qed.

Lemma updateCallStatus_run (callId : string) (status : Status)
    (userId : option string) (w : World) :
  CallService.updateCallStatus callId status userId w =
  match find (CallService.has_id callId) (calls w) with
  | None => (Throw (AppError "Call not found" 404), w)
  | Some call =>
      if CallService.not_a_party userId call
      then (Throw (AppError "Unauthorized to update this call" 403), w)
      else
        match CallService.updateData_for status call w with
        | (Ok u, w1) =>
            (Ok (head (map (apply_update u)
                           (List.filter (CallService.has_id callId) (calls w1)))),
             set_calls (rewrite_rows (CallService.has_id callId) (apply_update u)) w1)
        | (Throw e, w1) => (Throw e, w1)
        end
  end.
Proof.
  unfold CallService.updateCallStatus, bind, gets, throw, ret, update_calls.
  destruct (find _ (calls w)) as [call|]; [|reflexivity].
  destruct (CallService.not_a_party userId call); [reflexivity|].
  destruct (CallService.updateData_for status call w) as [[u|e] w1]; reflexivity.
Qed.

Lemma endCall_run (callId userId : string) (endReason : option string) (w : World) :
  CallService.endCall callId userId endReason w =
  match find (fun c => CallService.has_id callId c && CallService.involves userId c)
             (calls w) with
  | None => (Throw (AppError "Call not found or unauthorized" 404), w)
  | Some call =>
      if Status_eqb (Call.status call) ended
      then (Throw (AppError "Call already ended" 400), w)
      else
        let endedAt := clock w (clock_reads w) in
        let u := mkCallUpdate (Some ended) None (Some endedAt)
                   (Some match Call.answered_at call with
                         | Some t_answered => (endedAt - t_answered) / 1000
                         | None => 0
                         end)
                   (Some (or_keep endReason "completed")) (Some endedAt) in
        (Ok (head (map (apply_update u)
                       (List.filter (CallService.has_id callId) (calls w)))),
         mkWorld (users w)
                 (rewrite_rows (CallService.has_id callId) (apply_update u) (calls w))
                 (messages w) (clock w) (S (clock_reads w)) (uuid w) (uuids_drawn w))
  end.
Proof.
  unfold CallService.endCall, bind, gets, throw, ret, update_calls, new_Date.
  cbv zeta.
  destruct (find _ (calls w)) as [call|]; [|reflexivity].
  destruct (Status_eqb (Call.status call) ended); reflexivity.
Qed.


(** C2, as stated, fails: the call of [Sample.hung_up] is in [ended], and
    the request to move it to [answered] returns the call in [answered]
    instead of failing. *)
Lemma transition_from_ended_returns :
  option_map Call.status
    (find (CallService.has_id Sample.id_0) (calls Sample.hung_up)) = Some ended
  /\ match CallService.updateCallStatus Sample.id_0 answered (Some Sample.bob)
             Sample.hung_up with
     | (Ok (Some updated), w') =>
         Call.status updated = answered
         /\ option_map Call.status
              (find (CallService.has_id Sample.id_0) (calls w')) = Some answered
     | _ => False
     end.
Proof. split; [reflexivity|]. vm_compute; split; reflexivity. Qed.

(** C2, amended.  [endCall] on a call in [ended], asked by its caller or
    callee, throws the 400 error "Call already ended" and leaves the store
    as it was.  [updateCallStatus] does not look at the current status: on
    every stored call, terminal ones included, a request with no acting
    identity or with a party's returns the call in the requested status. *)
Theorem requests_on_terminal_calls (w : World) (callId : string) (call : Call.t) :
  find (CallService.has_id callId) (calls w) = Some call ->
  (forall (userId : string) (endReason : option string),
     CallService.involves userId call = true ->
     Call.status call = ended ->
     CallService.endCall callId userId endReason w =
     (Throw (AppError "Call already ended" 400), w))
  /\ (forall (target : Status) (userId : option string),
        CallService.not_a_party userId call = false ->
        exists (updated : Call.t) (w' : World),
          CallService.updateCallStatus callId target userId w = (Ok (Some updated), w')
          /\ Call.status updated = target
          /\ In updated (calls w')).
Proof.
  intros Hfind. split.
  - intros userId endReason Hparty Hended.
    rewrite endCall_run.
    rewrite (find_first_of _ (CallService.involves userId) _ _ Hfind Hparty).
    rewrite Hended. reflexivity.
  - intros target userId Hparty.
    rewrite updateCallStatus_run, Hfind, Hparty.
    destruct (updateData_for_run target call w)
      as (u & w1 & E & Hcalls & _ & _ & Hstatus & _).
    rewrite E, head_map_filter, Hcalls, Hfind. simpl.
    do 2 eexists. split; [reflexivity|]. simpl.
    split; [now rewrite Hstatus|].
    rewrite Hcalls. apply find_some in Hfind as [Hin Hid].
    now apply rewrite_rows_In.
Qed.

(** The theorem at the ended call of [Sample.hung_up]. *)
Lemma requests_on_terminal_calls_witness :
  CallService.endCall Sample.id_0 Sample.bob None Sample.hung_up =
  (Throw (AppError "Call already ended" 400), Sample.hung_up)
  /\ exists (updated : Call.t) (w' : World),
       CallService.updateCallStatus Sample.id_0 missed None Sample.hung_up =
       (Ok (Some updated), w')
       /\ Call.status updated = missed
       /\ In updated (calls w').
Proof.
  refine (let H := requests_on_terminal_calls Sample.hung_up Sample.id_0 _ eq_refl in _).
  destruct H as [Hend Hupdate]. split.
  - apply Hend; reflexivity.
  - apply Hupdate. reflexivity.
Defined.




(** ** The one-active-call invariant *)

Lemma no_more_active_refl (c : Call.t) : no_more_active c c.
Proof. intros U H. exact H. Qed.

Lemma invariant_pairwise (w w' : World) :
  Forall2 no_more_active (calls w) (calls w') ->
  one_active_call_per_user w -> one_active_call_per_user w'.
Proof.
  intros Hpairs Hinv U. unfold CallService.getActiveCall_rows.
  etransitivity; [|apply (Hinv U)].
  apply filter_length_Forall2.
  induction Hpairs as [|c c' l l' Hcc' _ IH]; constructor; auto.
Qed.

Lemma invariant_same_calls (w w' : World) :
  calls w' = calls w -> one_active_call_per_user w -> one_active_call_per_user w'.
Proof.
  intros E Hinv U. unfold CallService.getActiveCall_rows. rewrite E. apply Hinv.
Qed.

Lemma filter_filter_length {A : Type} (q p : A -> bool) (l : list A) :
  (length (List.filter q (List.filter p l)) <= length (List.filter q l))%nat.
Proof.
  induction l as [|a l IH]; simpl; [lia|].
  destruct (p a); simpl; destruct (q a); simpl; lia.
Qed.

Lemma filter_all_false {A : Type} (q : A -> bool) (l : list A) :
  (forall x, In x l -> q x = false) -> List.filter q l = [].
Proof.
  induction l as [|a l IH]; simpl; intros H; [reflexivity|].
  rewrite (H a) by now left. apply IH. intros x Hx. apply H. now right.
Qed.

Lemma startCall_preserves (callerId calleeId : string) (callType : CallType)
    (w : World) :
  one_active_call_per_user w ->
  one_active_call_per_user (serve (start_call callerId calleeId callType) w).
Proof.
  intros Hinv. simpl.
  destruct (startCall_calls callerId calleeId callType w)
    as [Hsame | (Hfree & call & Hcalls & Hcaller & Hcallee & _)].
  - now apply (invariant_same_calls w).
  - intros U. unfold CallService.getActiveCall_rows.
    rewrite Hcalls, List.filter_app, List.length_app. simpl.
    destruct (CallService.involves U call) eqn:Hinvolves; simpl.
    + rewrite filter_all_false; [destruct (CallService.non_terminal _); simpl; lia|].
      intros c Hin.
      destruct (CallService.non_terminal (Call.status c)) eqn:Hnt;
        [|apply andb_false_r].
      destruct (proj1 (activeCall_of_None _ _ _) Hfree c Hin Hnt) as [Ha Hb].
      unfold CallService.involves in Hinvolves.
      rewrite Hcaller, Hcallee in Hinvolves.
      apply orb_prop in Hinvolves as [E|E]; apply String.eqb_eq in E; subst U;
        [rewrite Ha | rewrite Hb]; reflexivity.
    + specialize (Hinv U). unfold CallService.getActiveCall_rows in Hinv. lia.
Qed.

Lemma apply_update_no_more_active (u : CallUpdate) (status : Status) (c : Call.t) :
  set_status u = Some status ->
  (CallService.non_terminal status = true ->
   CallService.non_terminal (Call.status c) = true) ->
  no_more_active c (apply_update u c).
Proof.
  intros Hstatus Hlive U. unfold CallService.involves. simpl. rewrite Hstatus. simpl.
  intros H. apply andb_prop in H as [Hinv Hnt].
  now rewrite Hinv, (Hlive Hnt).
Qed.

Lemma updateCallStatus_calls (callId : string) (status : Status)
    (userId : option string) (w : World) :
  let w' := snd (CallService.updateCallStatus callId status userId w) in
  calls w' = calls w
  \/ exists u, set_status u = Some status
               /\ calls w' = rewrite_rows (CallService.has_id callId)
                                          (apply_update u) (calls w).
Proof.
  cbv zeta. rewrite updateCallStatus_run.
  destruct (find _ (calls w)) as [call|]; [|now left].
  destruct (CallService.not_a_party userId call); [now left|].
  destruct (updateData_for_run status call w)
    as (u & w1 & E & Hcalls & _ & _ & Hstatus & _).
  rewrite E. right. exists u. split; [exact Hstatus|].
  simpl. now rewrite Hcalls.
Qed.

Lemma endCall_calls (callId userId : string) (endReason : option string) (w : World) :
  let w' := snd (CallService.endCall callId userId endReason w) in
  calls w' = calls w
  \/ exists u, set_status u = Some ended
               /\ calls w' = rewrite_rows (CallService.has_id callId)
                                          (apply_update u) (calls w).
Proof.
  cbv zeta. rewrite endCall_run.
  destruct (find _ (calls w)) as [call|]; [|now left].
  destruct (Status_eqb (Call.status call) ended); [now left|].
  right. eexists. split; [|reflexivity]. reflexivity.
Qed.

Lemma deleteCall_calls (callId userId : string) (w : World) :
  calls (snd (CallService.deleteCall callId userId w)) =
  List.filter (fun c => negb (CallService.has_id callId c
                              && CallService.involves userId c)) (calls w).
Proof.
  unfold CallService.deleteCall, bind, gets, modify, throw, ret. simpl.
  destruct (Nat.eqb _ 0); reflexivity.
Qed.

Lemma update_calls_checked_calls (p : Call.t -> bool) (f : Call.t -> Outcome Call.t)
    (w : World) :
  let w' := snd (update_calls_checked p f w) in
  calls w' = calls w \/ rewrite_rows_checked p f (calls w) = Ok (calls w').
Proof.
  cbv zeta. unfold update_calls_checked.
  destruct (rewrite_rows_checked p f (calls w)) as [rows|e]; simpl; auto.
Qed.

Lemma metadata_rewrite_pairs (p : Call.t -> bool) (g : Call.t -> Outcome (option Json))
    (stamp : Z) (l l' : list Call.t) :
  rewrite_rows_checked p
    (fun c => match g c with
              | Ok md => Ok (with_metadata md stamp c)
              | Throw e => Throw e
              end) l = Ok l' ->
  Forall2 same_call_state l l'.
Proof.
  apply Forall2_rewrite_rows_checked.
  - intros r. repeat split.
  - intros r r' _ _. destruct (g r); [|discriminate].
    intros [= <-]. repeat split.
Qed.

Lemma same_call_state_no_more_active (l l' : list Call.t) :
  Forall2 same_call_state l l' -> Forall2 no_more_active l l'.
Proof.
  induction 1 as [|c c' l l' (_ & Hcaller & Hcallee & Hstatus) _ IH];
    constructor; [|exact IH].
  intros U. unfold CallService.involves. now rewrite Hcaller, Hcallee, Hstatus.
Qed.

Lemma createOffer_run (callId : string) (offer : Json) (w : World) :
  CallService.createOffer callId offer w =
  if jsonb_accepts offer
  then
    match uuid_in callId with
    | Some id =>
        update_calls_checked (CallService.has_id id)
          (fun c =>
             match jsonb_set (Call.metadata c) "offer" offer with
             | Ok md => Ok (with_metadata md (clock w (clock_reads w)) c)
             | Throw e => Throw e
             end)
          (snd (new_Date w))
    | None =>
        (Throw (DatabaseError "invalid input syntax for type uuid"),
         snd (new_Date w))
    end
  else (Throw (DatabaseError "unsupported Unicode escape sequence"),
        snd (new_Date w)).
Proof.
  unfold CallService.createOffer, bind, new_Date, jsonb_param, uuid_param.
  cbv beta iota.
  destruct (jsonb_accepts offer); [|reflexivity].
  destruct (uuid_in callId); reflexivity.
Qed.

Lemma addIceCandidate_run (callId : string) (candidate : Json) (w : World) :
  CallService.addIceCandidate callId candidate w =
  if jsonb_accepts candidate
  then
    match uuid_in callId with
    | Some id =>
        update_calls_checked (CallService.has_id id)
          (fun c =>
             match jsonb_set (Call.metadata c) "ice_candidates"
                     (jsonb_concat_array
                        (or_keep (jsonb_get (Call.metadata c) "ice_candidates")
                                 (JArr []))
                        [candidate]) with
             | Ok md => Ok (with_metadata md (clock w (clock_reads w)) c)
             | Throw e => Throw e
             end)
          (snd (new_Date w))
    | None =>
        (Throw (DatabaseError "invalid input syntax for type uuid"),
         snd (new_Date w))
    end
  else (Throw (DatabaseError "unsupported Unicode escape sequence"),
        snd (new_Date w)).
Proof.
  unfold CallService.addIceCandidate, bind, new_Date, jsonb_param, uuid_param.
  cbv beta iota.
  destruct (jsonb_accepts candidate); [|reflexivity].
  destruct (uuid_in callId); reflexivity.
Qed.

Lemma signalling_calls (r : Request) (w : World) :
  match r with webrtc_offer _ _ | webrtc_ice_candidate _ _ => True | _ => False end ->
  calls (serve r w) = calls w \/ Forall2 same_call_state (calls w) (calls (serve r w)).
Proof.
  destruct r as [| | | | callId offer | callId candidate];
    try contradiction; intros _; cbn [serve];
    rewrite ?createOffer_run, ?addIceCandidate_run;
    (destruct (jsonb_accepts _); [|left; reflexivity]);
    (destruct (uuid_in callId) as [id|]; [|left; reflexivity]);
    match goal with
    | |- context [update_calls_checked ?p ?f ?w1] =>
        destruct (update_calls_checked_calls p f w1) as [E|E]
    end;
    [ left; exact E | right; apply metadata_rewrite_pairs in E; exact E
    | left; exact E | right; apply metadata_rewrite_pairs in E; exact E ].
Qed.

Lemma serve_preserves (r : Request) (w : World) :
  revives r w = false ->
  one_active_call_per_user w -> one_active_call_per_user (serve r w).
Proof.
  intros Hrev Hinv. destruct r as [a b t | callId status userId | callId userId reason
                                   | callId userId | callId offer | callId candidate].
  - now apply startCall_preserves.
  - simpl. destruct (updateCallStatus_calls callId status userId w)
      as [E | (u & Hstatus & E)].
    + now apply (invariant_same_calls w).
    + apply (invariant_pairwise w); [|exact Hinv]. rewrite E.
      apply Forall2_rewrite_rows; [apply no_more_active_refl|].
      intros c Hin Hid. apply (apply_update_no_more_active u status); [exact Hstatus|].
      intros Hnt. simpl in Hrev. rewrite Hnt in Hrev. simpl in Hrev.
      destruct (CallService.non_terminal (Call.status c)) eqn:Hc; [reflexivity|].
      exfalso. apply not_true_iff_false in Hrev. apply Hrev.
      apply existsb_exists. exists c. split; [exact Hin|]. now rewrite Hid, Hc.
  - simpl. destruct (endCall_calls callId userId reason w) as [E | (u & Hstatus & E)].
    + now apply (invariant_same_calls w).
    + apply (invariant_pairwise w); [|exact Hinv]. rewrite E.
      apply Forall2_rewrite_rows; [apply no_more_active_refl|].
      intros c Hin Hid. apply (apply_update_no_more_active u ended); [exact Hstatus|].
      discriminate.
  - intros U. simpl. unfold CallService.getActiveCall_rows.
    rewrite deleteCall_calls.
    etransitivity; [apply filter_filter_length | apply (Hinv U)].
  - destruct (signalling_calls (webrtc_offer callId offer) w I) as [E|E].
    + now apply (invariant_same_calls w).
    + apply (invariant_pairwise w); [|exact Hinv].
      now apply same_call_state_no_more_active.
  - destruct (signalling_calls (webrtc_ice_candidate callId candidate) w I) as [E|E].
    + now apply (invariant_same_calls w).
    + apply (invariant_pairwise w); [|exact Hinv].
      now apply same_call_state_no_more_active.
Qed.

(** C1, as stated, fails: [Sample.double_booked] is reached from an empty
    table by four requests, and it holds two calls of Alice in a
    non-terminal status. *)
Lemma revived_call_breaks_invariant :
  reachable Sample.double_booked
  /\ map Call.status (CallService.getActiveCall_rows Sample.alice Sample.double_booked)
     = [ringing; initiated]
  /\ ~ one_active_call_per_user Sample.double_booked.
Proof.
  split; [|split].
  - unfold Sample.double_booked, Sample.hung_up, Sample.dialing.
    repeat apply reachable_step. now apply reachable_init.
  - reflexivity.
  - intros H. specialize (H Sample.alice). vm_compute in H. lia.
Qed.

(** The existence check and the insertion of [startCall] are separate
    statements: when the checks of two requests both run before either
    insertion, both insert. *)
Remark interleaved_starts_both_insert :
  let checked_1 := CallService.startCall_checks Sample.alice Sample.bob Sample.fresh in
  let checked_2 := CallService.startCall_checks Sample.alice Sample.carol (snd checked_1) in
  let inserted_1 := CallService.startCall_insert Sample.alice Sample.bob voice (snd checked_2) in
  let inserted_2 := CallService.startCall_insert Sample.alice Sample.carol video (snd inserted_1) in
  fst checked_1 = Ok tt /\ fst checked_2 = Ok tt
  /\ map Call.status (CallService.getActiveCall_rows Sample.alice (snd inserted_2))
     = [initiated; initiated].
Proof. repeat split. Qed.

(** C1, amended.  In every store reached from an empty [calls] table by
    requests served one after the other, none of which moves a call that
    is in a terminal status to a non-terminal one, each user is caller or
    callee of at most one call in [initiated], [ringing] or [answered];
    and [startCall], by its existence check, keeps the invariant of any
    store that has it. *)
Theorem one_active_call_invariant :
  (forall w : World, reachable_without_revival w -> one_active_call_per_user w)
  /\ (forall (w : World) (callerId calleeId : string) (callType : CallType),
        one_active_call_per_user w ->
        one_active_call_per_user
          (snd (CallService.startCall callerId calleeId callType w))).
Proof.
  split.
  - induction 1 as [w Hempty | w r _ IH Hrev].
    + intros U. unfold CallService.getActiveCall_rows. rewrite Hempty. simpl. lia.
    + now apply serve_preserves.
  - intros w callerId calleeId callType Hinv.
    exact (startCall_preserves callerId calleeId callType w Hinv).
Qed.

(** The theorem at [Sample.talked] and a further call by Alice. *)
Lemma one_active_call_invariant_witness :
  reachable_without_revival Sample.talked
  /\ (length (CallService.getActiveCall_rows Sample.alice
               (snd (CallService.startCall Sample.alice Sample.carol video Sample.talked)))
      <= 1)%nat.
Proof.
  assert (H : reachable_without_revival Sample.talked).
  { unfold Sample.talked, Sample.dialing.
    repeat (apply rwr_step; [|reflexivity]). now apply rwr_init. }
  split; [exact H|].
  destruct one_active_call_invariant as [Hreach Hstart].
  apply Hstart. apply Hreach. exact H.
Defined.

(** ** Signalling metadata *)

Lemma obj_get_set_eq (key : string) (v : Json) (fields : list (string * Json)) :
  obj_get key (obj_set key v fields) = Some v.
Proof.
  induction fields as [|[k v0] rest IH]; simpl.
  - now rewrite String.eqb_refl.
  - destruct (String.eqb k key) eqn:E; simpl; now rewrite E.
Qed.

Lemma obj_get_set_ne (key key' : string) (v : Json) (fields : list (string * Json)) :
  key <> key' -> obj_get key' (obj_set key v fields) = obj_get key' fields.
Proof.
  intros Hne. induction fields as [|[k v0] rest IH]; simpl.
  - apply String.eqb_neq in Hne. now rewrite Hne.
  - destruct (String.eqb k key) eqn:E; simpl.
    + apply String.eqb_eq in E. subst k.
      apply String.eqb_neq in Hne. now rewrite Hne.
    + now rewrite IH.
Qed.

Lemma rewrite_rows_checked_pairs {R : Type} (P : R -> R -> Prop) (p : R -> bool)
    (f : R -> Outcome R) (l : list R) :
  (forall r, In r l ->
     if p r then exists r', f r = Ok r' /\ P r r' else P r r) ->
  exists l', rewrite_rows_checked p f l = Ok l' /\ Forall2 P l l'.
Proof.
  induction l as [|a l IH]; simpl; intros H.
  - exists []. split; [reflexivity | constructor].
  - destruct IH as (l' & E & Hpairs); [intros r Hr; apply H; now right|].
    pose proof (H a (or_introl eq_refl)) as Ha.
    rewrite E. destruct (p a).
    + destruct Ha as (a' & -> & Haa'). exists (a' :: l'). split; [reflexivity|].
      now constructor.
    + exists (a :: l'). split; [reflexivity|]. now constructor.
Qed.

Lemma Forall2_chain {A : Type} (P Q R : A -> A -> Prop) (l1 l2 l3 : list A) :
  (forall a b c, P a b -> Q b c -> R a c) ->
  Forall2 P l1 l2 -> Forall2 Q l2 l3 -> Forall2 R l1 l3.
Proof.
  intros Hchain H12. revert l3.
  induction H12 as [|a b l1 l2 Hab _ IH]; intros l3 H23; inversion H23; subst;
    constructor; eauto.
Qed.

Lemma appended_nil (callId : string) (c : Call.t) :
  metadata_ready c = true -> appended callId [] c c.
Proof.
  intros Hready. split; [repeat split|]. split; [exact Hready|].
  destruct (CallService.has_id callId c); [now rewrite app_nil_r | reflexivity].
Qed.

Lemma appended_chain (callId : string) (first rest : list Json) (a b c : Call.t) :
  appended callId first a b -> appended callId rest b c ->
  appended callId (first ++ rest) a c.
Proof.
  intros ((Hid & Hcaller & Hcallee & Hstatus) & _ & Hab)
         ((Hid' & Hcaller' & Hcallee' & Hstatus') & Hready & Hbc).
  split; [repeat split; congruence|]. split; [exact Hready|].
  unfold CallService.has_id in *. rewrite Hid in Hbc. rewrite Hbc, Hab.
  destruct (String.eqb (Call.id a) callId); [now rewrite app_assoc | reflexivity].
Qed.

Lemma appended_ready (callId : string) (candidates : list Json) (l l' : list Call.t) :
  Forall2 (appended callId candidates) l l' ->
  Forall (fun c => metadata_ready c = true) l'.
Proof.
  induction 1 as [|c c' l l' (_ & Hc' & _) _ IH]; constructor; assumption.
Qed.

Lemma addIceCandidate_row (callId : string) (candidate : Json) (stamp : Z)
    (c : Call.t) :
  metadata_ready c = true ->
  exists c',
    match jsonb_set (Call.metadata c) "ice_candidates"
            (jsonb_concat_array
               (or_keep (jsonb_get (Call.metadata c) "ice_candidates") (JArr []))
               [candidate]) with
    | Ok md => Ok (with_metadata md stamp c)
    | Throw e => Throw e
    end = Ok c'
    /\ same_call_state c c'
    /\ metadata_ready c' = true
    /\ ice_candidates c' = ice_candidates c ++ [candidate].
Proof.
  unfold metadata_ready, ice_candidates, jsonb_get.
  destruct (Call.metadata c) as [[| | | | | |fields]|]; try discriminate.
  destruct (obj_get "ice_candidates" fields) as [[| | | | |items|]|] eqn:Hheld;
    try discriminate; intros _; simpl;
    (eexists; split; [reflexivity|]; split; [repeat split|]; simpl;
     rewrite obj_get_set_eq; split; reflexivity).
Qed.

Lemma addIceCandidate_step (callId id : string) (candidate : Json) (w : World) :
  uuid_in callId = Some id ->
  jsonb_accepts candidate = true ->
  Forall (fun c => metadata_ready c = true) (calls w) ->
  exists w',
    CallService.addIceCandidate callId candidate w = (Ok tt, w')
    /\ Forall2 (appended id [candidate]) (calls w) (calls w').
Proof.
  intros Hid Haccepts Hready.
  rewrite addIceCandidate_run, Haccepts, Hid.
  unfold update_calls_checked, new_Date. cbn [snd calls].
  match goal with
  | |- context [rewrite_rows_checked ?p ?f (calls w)] =>
      destruct (rewrite_rows_checked_pairs (appended id [candidate]) p f (calls w))
        as (l' & E & Hpairs)
  end.
  - intros c Hin.
    pose proof (proj1 (List.Forall_forall _ _) Hready c Hin) as Hc.
    destruct (CallService.has_id id c) eqn:Hc_id.
    + destruct (addIceCandidate_row id candidate (clock w (clock_reads w)) c Hc)
        as (c' & E & Hsame & Hready' & Hheld).
      exists c'. split; [exact E|]. split; [exact Hsame|]. split; [exact Hready'|].
      now rewrite Hc_id.
    + split; [repeat split|]. split; [exact Hc|]. now rewrite Hc_id.
  - rewrite E. eexists. split; [reflexivity|]. exact Hpairs.
Qed.

Lemma addIceCandidate_rejects (callId : string) (candidate : Json) (w : World) :
  jsonb_accepts candidate = false \/ uuid_in callId = None ->
  exists message,
    CallService.addIceCandidate callId candidate w
    = (Throw (DatabaseError message), snd (new_Date w)).
Proof.
  rewrite addIceCandidate_run. intros [Hpayload|Hid].
  - rewrite Hpayload. eauto.
  - rewrite Hid. destruct (jsonb_accepts candidate); eauto.
Qed.

Lemma for_each_addIceCandidate (callId id : string) (candidates : list Json)
    (w : World) :
  uuid_in callId = Some id ->
  forallb jsonb_accepts candidates = true ->
  Forall (fun c => metadata_ready c = true) (calls w) ->
  exists w',
    for_each (CallService.addIceCandidate callId) candidates w = (Ok tt, w')
    /\ Forall2 (appended id candidates) (calls w) (calls w').
Proof.
  intros Hid. revert w.
  induction candidates as [|candidate rest IH]; intros w Haccepts Hready.
  - exists w. split; [reflexivity|].
    induction Hready; constructor; auto using appended_nil.
  - cbn [forallb] in Haccepts. apply andb_prop in Haccepts as [Hfirst Hrest].
    destruct (addIceCandidate_step callId id candidate w Hid Hfirst Hready)
      as (w1 & E1 & H1).
    pose proof (appended_ready _ _ _ _ H1) as Hready1.
    destruct (IH w1 Hrest Hready1) as (w2 & E2 & H2).
    exists w2. split.
    + simpl. unfold bind. now rewrite E1.
    + apply (Forall2_chain _ _ _ _ _ _ (appended_chain id [candidate] rest) H1 H2).
Qed.

Lemma createOffer_row (offer : Json) (stamp : Z) (c c' : Call.t) :
  metadata_ready c = true ->
  match jsonb_set (Call.metadata c) "offer" offer with
  | Ok md => Ok (with_metadata md stamp c)
  | Throw e => Throw e
  end = Ok c' ->
  metadata_ready c' = true.
Proof.
  unfold metadata_ready.
  destruct (Call.metadata c) as [[| | | | | |fields]|]; try discriminate.
  intros Hready [= <-]. simpl.
  now rewrite obj_get_set_ne by discriminate.
Qed.

Lemma Forall_pairs {A : Type} (P : A -> Prop) (l l' : list A) :
  Forall2 (fun a a' => P a -> P a') l l' -> Forall P l -> Forall P l'.
Proof.
  induction 1 as [|a a' l l' Haa' _ IH]; intros Hl; [constructor|].
  inversion Hl; subst. constructor; auto.
Qed.

Lemma serve_metadata_ready (r : Request) (w : World) :
  Forall (fun c => metadata_ready c = true) (calls w) ->
  Forall (fun c => metadata_ready c = true) (calls (serve r w)).
Proof.
  intros Hready.
  assert (Hrewrite : forall p u,
    Forall (fun c => metadata_ready c = true) (rewrite_rows p (apply_update u) (calls w))).
  { intros p u. apply (Forall_pairs _ (calls w)); [|exact Hready].
    apply Forall2_rewrite_rows; [auto|]. intros c _ _ Hc. exact Hc. }
  destruct r as [a b t | callId status userId | callId userId reason
                | callId userId | callId offer | callId candidate]; simpl.
  - destruct (startCall_calls a b t w) as [E | (_ & call & E & _ & _ & _ & Hcall)];
      rewrite E; [exact Hready|].
    apply List.Forall_app. split; [exact Hready|]. now constructor.
  - destruct (updateCallStatus_calls callId status userId w) as [E | (u & _ & E)];
      rewrite E; [exact Hready | apply Hrewrite].
  - destruct (endCall_calls callId userId reason w) as [E | (u & _ & E)];
      rewrite E; [exact Hready | apply Hrewrite].
  - rewrite deleteCall_calls.
    apply List.Forall_forall. intros c Hc. apply filter_In in Hc as [Hin _].
    exact (proj1 (List.Forall_forall _ _) Hready c Hin).
  - rewrite createOffer_run.
    destruct (jsonb_accepts offer); [|exact Hready].
    destruct (uuid_in callId) as [id|]; [|exact Hready].
    match goal with
    | |- context [update_calls_checked ?p ?f ?w1] =>
        destruct (update_calls_checked_calls p f w1) as [E|E]
    end; [rewrite E; exact Hready|].
    apply (Forall_pairs _ (calls w)); [|exact Hready].
    eapply Forall2_rewrite_rows_checked; [| |exact E]; [auto|].
    intros c c' _ _ Hrow Hc. exact (createOffer_row _ _ _ _ Hc Hrow).
  - destruct (jsonb_accepts candidate) eqn:Haccepts;
      [destruct (uuid_in callId) as [id|] eqn:Hid|].
    + destruct (addIceCandidate_step callId id candidate w Hid Haccepts Hready)
        as (w' & E & Hpairs).
      rewrite E. simpl. exact (appended_ready _ _ _ _ Hpairs).
    + destruct (addIceCandidate_rejects callId candidate w (or_intror Hid))
        as (message & ->). exact Hready.
    + destruct (addIceCandidate_rejects callId candidate w (or_introl Haccepts))
        as (message & ->). exact Hready.
Qed.

Lemma reachable_metadata_ready (w : World) :
  reachable w -> Forall (fun c => metadata_ready c = true) (calls w).
Proof.
  induction 1 as [w Hempty | w r _ IH].
  - rewrite Hempty. constructor.
  - now apply serve_metadata_ready.
Qed.

(** C9, as stated, fails: a candidate holding the character U+0000 is a
    JSON value that [jsonb] cannot hold; the statement of
    [addIceCandidate] is rejected and the call of [Sample.dialing] keeps
    the candidates it had, here none. *)
Lemma candidate_with_nul_is_rejected :
  let candidate := JStr (String Ascii.zero "") in
  let result := CallService.addIceCandidate Sample.id_0 candidate Sample.dialing in
  fst result = Throw (DatabaseError "unsupported Unicode escape sequence")
  /\ map ice_candidates (calls Sample.dialing) = [[]]
  /\ map ice_candidates (calls (snd result)) = [[]].
Proof. vm_compute. repeat split. Qed.

(** C9, amended.  In every store reached from an empty [calls] table, a
    sequence of [addIceCandidate] invocations on one call identifier in
    uuid syntax, with candidates that [jsonb] can hold, all return, and
    leave in the metadata of that call the candidates it held followed by
    the new ones in the order of the invocations; the candidates of the
    other calls, and the identity, parties and status of every call, are
    as before.  An invocation with a candidate that [jsonb] cannot hold
    throws and leaves every call as it was. *)
Theorem ice_candidates_accumulate (w : World) (callId id : string)
    (candidates : list Json) :
  reachable w ->
  uuid_in callId = Some id ->
  forallb jsonb_accepts candidates = true ->
  (exists w',
     for_each (CallService.addIceCandidate callId) candidates w = (Ok tt, w')
     /\ Forall2 (appended id candidates) (calls w) (calls w'))
  /\ (forall candidate : Json,
        jsonb_accepts candidate = false ->
        exists message,
          fst (CallService.addIceCandidate callId candidate w)
          = Throw (DatabaseError message)
          /\ calls (snd (CallService.addIceCandidate callId candidate w)) = calls w).
Proof.
  intros Hreach Hid Haccepts. split.
  - apply for_each_addIceCandidate; [exact Hid | exact Haccepts |].
    now apply reachable_metadata_ready.
  - intros candidate Hrefused.
    destruct (addIceCandidate_rejects callId candidate w (or_introl Hrefused))
      as (message & ->).
    exists message. split; reflexivity.
Qed.

(** The theorem at three candidates for the call of [Sample.dialing]. *)
Lemma ice_candidates_accumulate_witness :
  exists w',
    for_each (CallService.addIceCandidate Sample.id_0)
             [JStr "host"; JStr "srflx"; JStr "relay"] Sample.dialing = (Ok tt, w')
    /\ Forall2 (appended Sample.id_0 [JStr "host"; JStr "srflx"; JStr "relay"])
               (calls Sample.dialing) (calls w').
Proof.
  apply (ice_candidates_accumulate Sample.dialing Sample.id_0 Sample.id_0);
    [|reflexivity|reflexivity].
  unfold Sample.dialing. apply reachable_step. now apply reachable_init.
Defined.

(** The scenario of the specification: three candidates appended to one
    call are all held, in the order they came. *)
Example three_candidates_in_order :
  map ice_candidates
      (calls (snd (for_each (CallService.addIceCandidate Sample.id_0)
                            [JStr "host"; JStr "srflx"; JStr "relay"]
                            Sample.dialing)))
  = [[JStr "host"; JStr "srflx"; JStr "relay"]].
Proof. reflexivity. Qed.

(** ** Presence *)

(** C4, as stated, fails: after Alice's second connection the registry maps
    her to the second session, and the disconnection of the first, stale
    session then leaves her with no mapping at all. *)
Lemma stale_disconnect_evicts_newer_session :
  SocketHandler.userSocketMap Sample.reconnected !! Sample.alice = Some "sock-a2"
  /\ SocketHandler.userSocketMap
       (snd (SocketHandler.handleDisconnection Sample.alice_1 Sample.reconnected))
       !! Sample.alice = None
  /\ SocketHandler.userSocketMap
       (snd (SocketHandler.handleDisconnection Sample.alice_1 Sample.reconnected))
       !! Sample.alice <> Some "sock-a2".
Proof. vm_compute. repeat split. discriminate. Qed.

Lemma handleConnection_run (socket : SocketHandler.AuthenticatedSocket)
    (s : SocketHandler.Server) :
  SocketHandler.handleConnection socket s =
  (Ok tt,
   SocketHandler.mkServer
     (snd (new_Date (snd (new_Date (SocketHandler.world s)))))
     (<[SocketHandler.socket_id socket :=
          SocketHandler.mkSocketUser (SocketHandler.socket_userId socket)
            (SocketHandler.socket_id socket) true
            (clock (SocketHandler.world s) (clock_reads (SocketHandler.world s)))]>
        (SocketHandler.connectedUsers s))
     (<[SocketHandler.socket_userId socket := SocketHandler.socket_id socket]>
        (SocketHandler.userSocketMap s))
     (SocketHandler.emitted s ++
        [SocketHandler.mkEmission None
           (SocketHandler.user_status (SocketHandler.socket_userId socket) true
              (clock (SocketHandler.world s)
                     (S (clock_reads (SocketHandler.world s)))))])).
Proof. reflexivity. Qed.

Lemma handleDisconnection_run (socket : SocketHandler.AuthenticatedSocket)
    (s : SocketHandler.Server) :
  SocketHandler.handleDisconnection socket s =
  (Ok tt,
   SocketHandler.mkServer
     (snd (new_Date (SocketHandler.world s)))
     (delete (SocketHandler.socket_id socket) (SocketHandler.connectedUsers s))
     (delete (SocketHandler.socket_userId socket) (SocketHandler.userSocketMap s))
     (SocketHandler.emitted s ++
        [SocketHandler.mkEmission None
           (SocketHandler.user_status (SocketHandler.socket_userId socket) false
              (clock (SocketHandler.world s) (clock_reads (SocketHandler.world s))))])).
Proof. reflexivity. Qed.

(** C4, amended.  After the sessions [h1] and then [h2] of a user
    connected, the registry maps the user to [h2].  The disconnection of
    [h1] removes the user's mapping whatever session it holds (no session
    identifier is compared), so the user is then looked up as absent. *)
Theorem last_connection_wins_until_any_disconnect (s : SocketHandler.Server)
    (U h1 h2 : string) :
  let s2 := snd (SocketHandler.handleConnection (SocketHandler.mkSocket h2 U)
              (snd (SocketHandler.handleConnection (SocketHandler.mkSocket h1 U) s))) in
  let s3 := snd (SocketHandler.handleDisconnection (SocketHandler.mkSocket h1 U) s2) in
  SocketHandler.userSocketMap s2 !! U = Some h2
  /\ SocketHandler.userSocketMap s3 !! U = None
  /\ SocketHandler.getUserOnlineStatus U s3 = false.
Proof.
  cbv zeta. rewrite !handleConnection_run, handleDisconnection_run.
  cbn [snd SocketHandler.userSocketMap SocketHandler.socket_userId
       SocketHandler.getUserOnlineStatus].
  split; [apply lookup_insert_eq|].
  unfold SocketHandler.getUserOnlineStatus.
  cbn [SocketHandler.userSocketMap].
  rewrite lookup_delete_eq. split; [reflexivity|].
  apply bool_decide_eq_false. intros [x Hx]. discriminate.
Qed.

(** ** Read marks *)

Lemma markMessageAsRead_run (messageId userId : string) (w : World) :
  MessageService.markMessageAsRead messageId userId w =
  match uuid_in messageId, uuid_in userId with
  | Some id, Some recipient_id =>
      (Ok tt,
       mkWorld (users w) (calls w)
         (rewrite_rows
            (fun m => String.eqb (Message.id m) id
                      && String.eqb (Message.recipient_id m) recipient_id
                      && negb (Message.is_read m))
            (mark_row_read (clock w (clock_reads w)) (clock w (S (clock_reads w))))
            (messages w))
         (clock w) (S (S (clock_reads w))) (uuid w) (uuids_drawn w))
  | _, _ =>
      (Throw (DatabaseError "invalid input syntax for type uuid"),
       snd (new_Date (snd (new_Date w))))
  end.
Proof.
  unfold MessageService.markMessageAsRead, bind, new_Date, uuid_param.
  cbv beta iota.
  destruct (uuid_in messageId); [|reflexivity].
  destruct (uuid_in userId); reflexivity.
Qed.

Lemma markMessagesAsRead_run (senderId recipientId : string) (w : World) :
  MessageService.markMessagesAsRead senderId recipientId w =
  match uuid_in senderId, uuid_in recipientId with
  | Some sender_id, Some recipient_id =>
      let selected := fun m => String.eqb (Message.sender_id m) sender_id
                               && String.eqb (Message.recipient_id m) recipient_id
                               && negb (Message.is_read m) in
      (Ok (length (List.filter selected (messages w))),
       mkWorld (users w) (calls w)
         (rewrite_rows selected
            (mark_row_read (clock w (clock_reads w)) (clock w (S (clock_reads w))))
            (messages w))
         (clock w) (S (S (clock_reads w))) (uuid w) (uuids_drawn w))
  | _, _ =>
      (Throw (DatabaseError "invalid input syntax for type uuid"),
       snd (new_Date (snd (new_Date w))))
  end.
Proof.
  unfold MessageService.markMessagesAsRead, bind, new_Date, uuid_param.
  cbv beta iota.
  destruct (uuid_in senderId); [|reflexivity].
  destruct (uuid_in recipientId); reflexivity.
Qed.

Lemma markMessageAsRead_malformed (messageId userId : string) (w : World) :
  uuid_in messageId = None \/ uuid_in userId = None ->
  MessageService.markMessageAsRead messageId userId w
  = (Throw (DatabaseError "invalid input syntax for type uuid"),
     snd (new_Date (snd (new_Date w)))).
Proof.
  rewrite markMessageAsRead_run. intros [-> | ->]; [reflexivity|].
  destruct (uuid_in messageId); reflexivity.
Qed.

Lemma markMessagesAsRead_malformed (senderId recipientId : string) (w : World) :
  uuid_in senderId = None \/ uuid_in recipientId = None ->
  MessageService.markMessagesAsRead senderId recipientId w
  = (Throw (DatabaseError "invalid input syntax for type uuid"),
     snd (new_Date (snd (new_Date w)))).
Proof.
  rewrite markMessagesAsRead_run. intros [-> | ->]; [reflexivity|].
  destruct (uuid_in senderId); reflexivity.
Qed.

(** C10, as stated, fails: ["m9"] is not a uuid, and the statements of
    [markMessageAsRead] and [markMessagesAsRead] given it are rejected by
    the database.  The [mark_read] listener passes the identifiers of the
    event on as they came, and acknowledges such a request with the
    failure. *)
Lemma mark_read_of_malformed_identifier_throws :
  fst (MessageService.markMessageAsRead "m9" Sample.alice Sample.mailbox)
  = Throw (DatabaseError "invalid input syntax for type uuid")
  /\ fst (MessageService.markMessagesAsRead "m9" Sample.alice Sample.mailbox)
     = Throw (DatabaseError "invalid input syntax for type uuid")
  /\ (exists error,
        fst (SocketHandler.on_mark_read Sample.alice_1
               (SocketHandler.mkMarkReadData (Some "m9") None) Sample.bob_online)
        = SocketHandler.failure error)
  /\ messages (snd (MessageService.markMessageAsRead "m9" Sample.alice Sample.mailbox))
     = messages Sample.mailbox.
Proof. vm_compute. repeat split. eexists. reflexivity. Qed.

(** C10, amended.  With identifiers in uuid syntax, [markMessageAsRead]
    and [markMessagesAsRead] return and never throw.  When no stored
    message has both the given identifier and the acting user as recipient
    (the message does not exist, or the user is not its recipient), the
    messages are left as they were; in every case a row other than an
    unread one with that identifier and recipient is left as it was.  With
    a message or sender identifier that is not a uuid, both throw the
    error of the database and leave the messages as they were. *)
Theorem markRead_is_silent_on_uuids (w : World)
    (messageId userId id recipient_id : string) :
  uuid_in messageId = Some id ->
  uuid_in userId = Some recipient_id ->
  fst (MessageService.markMessageAsRead messageId userId w) = Ok tt
  /\ (forall senderId sender_id : string,
        uuid_in senderId = Some sender_id ->
        exists n, fst (MessageService.markMessagesAsRead senderId userId w) = Ok n)
  /\ ((forall m, In m (messages w) -> Message.id m = id ->
                 Message.recipient_id m <> recipient_id) ->
      messages (snd (MessageService.markMessageAsRead messageId userId w))
      = messages w)
  /\ Forall2 (fun m m' =>
               m' = m \/ (Message.id m = id
                          /\ Message.recipient_id m = recipient_id
                          /\ Message.is_read m = false))
             (messages w)
             (messages (snd (MessageService.markMessageAsRead messageId userId w)))
  /\ (forall malformed : string,
        uuid_in malformed = None ->
        exists message,
          fst (MessageService.markMessageAsRead malformed userId w)
          = Throw (DatabaseError message)
          /\ fst (MessageService.markMessagesAsRead malformed userId w)
             = Throw (DatabaseError message)
          /\ messages (snd (MessageService.markMessageAsRead malformed userId w))
             = messages w
          /\ messages (snd (MessageService.markMessagesAsRead malformed userId w))
             = messages w).
Proof.
  intros Hid Hto.
  split; [now rewrite markMessageAsRead_run, Hid, Hto|]. split; [|split; [|split]].
  - intros senderId sender_id Hfrom.
    rewrite markMessagesAsRead_run, Hfrom, Hto. cbv zeta. eexists. reflexivity.
  - rewrite markMessageAsRead_run, Hid, Hto. cbn [snd messages].
    intros Hnone. apply rewrite_rows_none. intros m Hin.
    destruct (String.eqb (Message.id m) id) eqn:Hm; [|reflexivity].
    apply String.eqb_eq in Hm.
    pose proof (Hnone m Hin Hm) as Hother. apply String.eqb_neq in Hother.
    now rewrite Hother.
  - rewrite markMessageAsRead_run, Hid, Hto. cbn [snd messages].
    apply Forall2_rewrite_rows; [now left|].
    intros m _ Hm. right.
    apply andb_prop in Hm as [Hm Hread]. apply andb_prop in Hm as [Hm Hrecipient].
    apply String.eqb_eq in Hm, Hrecipient. apply negb_true_iff in Hread. auto.
  - intros malformed Hmalformed. eexists.
    rewrite (markMessageAsRead_malformed malformed userId w (or_introl Hmalformed)).
    rewrite (markMessagesAsRead_malformed malformed userId w (or_introl Hmalformed)).
    repeat split.
Qed.

(** The theorem at an unknown message and at a user who is not the
    recipient. *)
Lemma markRead_is_silent_on_uuids_witness :
  messages (snd (MessageService.markMessageAsRead Sample.m9 Sample.alice Sample.mailbox))
  = messages Sample.mailbox
  /\ messages (snd (MessageService.markMessageAsRead Sample.m1 Sample.bob Sample.mailbox))
     = messages Sample.mailbox.
Proof.
  split.
  - apply (markRead_is_silent_on_uuids Sample.mailbox Sample.m9 Sample.alice
             Sample.m9 Sample.alice eq_refl eq_refl).
    intros m [<-|[<-|[<-|[]]]]; discriminate.
  - apply (markRead_is_silent_on_uuids Sample.mailbox Sample.m1 Sample.bob
             Sample.m1 Sample.bob eq_refl eq_refl).
    intros m [<-|[<-|[<-|[]]]]; discriminate.
Defined.

Lemma uuid_nonempty (text id : string) : uuid_in text = Some id -> text <> "".
Proof. intros H ->. discriminate H. Qed.

Lemma on_mark_read_run (socket : SocketHandler.AuthenticatedSocket)
    (messageId id recipient_id : string) (senderId : option string)
    (s : SocketHandler.Server) :
  uuid_in messageId = Some id ->
  uuid_in (SocketHandler.socket_userId socket) = Some recipient_id ->
  let userId := SocketHandler.socket_userId socket in
  let target := match senderId with
                | Some k => SocketHandler.userSocketMap s !! k
                | None => None
                end in
  let marked := snd (MessageService.markMessageAsRead messageId userId
                       (SocketHandler.world s)) in
  SocketHandler.on_mark_read socket
    (SocketHandler.mkMarkReadData (Some messageId) senderId) s =
  (SocketHandler.success None,
   if truthy target
   then SocketHandler.mkServer (snd (new_Date marked))
          (SocketHandler.connectedUsers s) (SocketHandler.userSocketMap s)
          (SocketHandler.emitted s ++
             [SocketHandler.mkEmission (Some (SocketHandler.the target))
                (SocketHandler.message_read userId (Some messageId)
                   (clock (SocketHandler.world s)
                          (S (S (clock_reads (SocketHandler.world s))))))])
   else SocketHandler.mkServer marked
          (SocketHandler.connectedUsers s) (SocketHandler.userSocketMap s)
          (SocketHandler.emitted s)).
Proof.
  intros Huuid Hrecipient. pose proof (uuid_nonempty _ _ Huuid) as Hid. cbv zeta.
  assert (Ht : truthy (Some messageId) = true).
  { simpl. apply String.eqb_neq in Hid. now rewrite Hid. }
  unfold SocketHandler.on_mark_read, SocketHandler.try_catch, bind.
  cbn [SocketHandler.messageId SocketHandler.senderId].
  rewrite Ht.
  change (SocketHandler.the (Some messageId)) with messageId.
  unfold SocketHandler.service at 1.
  rewrite markMessageAsRead_run, Huuid, Hrecipient. cbv beta iota.
  unfold SocketHandler.userSocketMap_get, gets. cbv beta iota.
  cbn [SocketHandler.userSocketMap].
  destruct (truthy match senderId with
                   | Some k => SocketHandler.userSocketMap s !! k
                   | None => None
                   end) eqn:Htarget; reflexivity.
Qed.

(** C6, as stated, fails: with Bob connected, Alice acknowledges his
    message [m1] twice; the second request finds the message read and
    changes no row, and a second [message_read] is pushed to Bob all the
    same. *)
Lemma repeated_mark_read_pushes_again :
  fst (SocketHandler.on_mark_read Sample.alice_1 Sample.ack_m1
         Sample.acknowledged_once) = SocketHandler.success None
  /\ messages (SocketHandler.world Sample.acknowledged_twice)
     = messages (SocketHandler.world Sample.acknowledged_once)
  /\ SocketHandler.emitted Sample.acknowledged_once
     = SocketHandler.emitted Sample.bob_online
       ++ [SocketHandler.mkEmission (Some "sock-b1")
             (SocketHandler.message_read Sample.alice (Some Sample.m1) 1700000002800)]
  /\ SocketHandler.emitted Sample.acknowledged_twice
     = SocketHandler.emitted Sample.acknowledged_once
       ++ [SocketHandler.mkEmission (Some "sock-b1")
             (SocketHandler.message_read Sample.alice (Some Sample.m1) 1700000004900)].
Proof. vm_compute. repeat split. Qed.

(** C6, amended.  A [mark_read] request, with identifiers in uuid syntax,
    for a message that is already read is acknowledged with success and leaves every message row, [is_read]
    and [read_at] included, as it was.  The handler does not learn whether
    a row was written: it pushes one [message_read] to the session of the
    sender identity named in the request whenever that identity is
    registered, on a repeated request as on the first. *)
Theorem mark_read_on_read_message (s : SocketHandler.Server)
    (socket : SocketHandler.AuthenticatedSocket) (messageId id recipient_id : string)
    (senderId : option string) :
  uuid_in messageId = Some id ->
  uuid_in (SocketHandler.socket_userId socket) = Some recipient_id ->
  (forall m, In m (messages (SocketHandler.world s)) ->
             Message.id m = id -> Message.is_read m = true) ->
  let target := match senderId with
                | Some k => SocketHandler.userSocketMap s !! k
                | None => None
                end in
  let run := SocketHandler.on_mark_read socket
               (SocketHandler.mkMarkReadData (Some messageId) senderId) s in
  fst run = SocketHandler.success None
  /\ messages (SocketHandler.world (snd run)) = messages (SocketHandler.world s)
  /\ SocketHandler.emitted (snd run)
     = SocketHandler.emitted s
       ++ (if truthy target
           then [SocketHandler.mkEmission (Some (SocketHandler.the target))
                   (SocketHandler.message_read
                      (SocketHandler.socket_userId socket) (Some messageId)
                      (clock (SocketHandler.world s)
                             (S (S (clock_reads (SocketHandler.world s))))))]
           else []).
Proof.
  intros Hid Hrecipient Hread. cbv zeta.
  rewrite (on_mark_read_run socket messageId id recipient_id senderId s Hid Hrecipient).
  cbv zeta.
  assert (Hkept : messages (snd (MessageService.markMessageAsRead messageId
                                   (SocketHandler.socket_userId socket)
                                   (SocketHandler.world s)))
                  = messages (SocketHandler.world s)).
  { rewrite markMessageAsRead_run, Hid, Hrecipient. cbn [snd messages].
    apply rewrite_rows_none. intros m Hin.
    destruct (String.eqb (Message.id m) id) eqn:E; [|reflexivity].
    apply String.eqb_eq in E. rewrite (Hread m Hin E). apply andb_false_r. }
  split; [reflexivity|].
  destruct (truthy _); simpl; rewrite ?app_nil_r; auto.
Qed.

(** The theorem at Alice's request for [m2], which is already read, with
    Bob connected. *)
Lemma mark_read_on_read_message_witness :
  fst (SocketHandler.on_mark_read Sample.alice_1
         (SocketHandler.mkMarkReadData (Some Sample.m2) (Some Sample.bob))
         Sample.bob_online) = SocketHandler.success None
  /\ messages (SocketHandler.world
                 (snd (SocketHandler.on_mark_read Sample.alice_1
                         (SocketHandler.mkMarkReadData (Some Sample.m2) (Some Sample.bob))
                         Sample.bob_online))) = messages Sample.mailbox
  /\ SocketHandler.emitted
       (snd (SocketHandler.on_mark_read Sample.alice_1
               (SocketHandler.mkMarkReadData (Some Sample.m2) (Some Sample.bob))
               Sample.bob_online))
     = SocketHandler.emitted Sample.bob_online
       ++ [SocketHandler.mkEmission (Some "sock-b1")
             (SocketHandler.message_read Sample.alice (Some Sample.m2) 1700000002800)].
Proof.
  apply (mark_read_on_read_message Sample.bob_online Sample.alice_1
           Sample.m2 Sample.m2 Sample.alice (Some Sample.bob)).
  - reflexivity.
  - reflexivity.
  - intros m [<-|[<-|[<-|[]]]]; simpl; intros H;
      first [reflexivity | discriminate H].
Defined.

(** ** Sending a message *)




Lemma truthy_Some (v : option string) :
  truthy v = true -> v = Some (SocketHandler.the v).
Proof. destruct v; [reflexivity | discriminate]. Qed.




(** ** Soft-deleted messages *)

Lemma filter_absorb {A : Type} (p q : A -> bool) (l : list A) :
  (forall x, p x = true -> q x = true) ->
  List.filter p (List.filter q l) = List.filter p l.
Proof.
  intros Hpq. induction l as [|a l IH]; simpl; [reflexivity|].
  destruct (q a) eqn:Hq; simpl.
  - now rewrite IH.
  - destruct (p a) eqn:Hp; [|exact IH].
    rewrite (Hpq a Hp) in Hq. discriminate.
Qed.

Lemma filter_flat_map_absorb {A B : Type} (p : B -> bool) (q : A -> bool)
    (f : A -> list B) (l : list A) :
  (forall a, q a = false -> List.filter p (f a) = []) ->
  List.filter p (flat_map f (List.filter q l)) = List.filter p (flat_map f l).
Proof.
  intros Hq. induction l as [|a l IH]; simpl; [reflexivity|].
  destruct (q a) eqn:E; simpl; rewrite !List.filter_app.
  - now rewrite IH.
  - now rewrite (Hq a E), IH.
Qed.

Lemma In_insert_desc {R : Type} (key : R -> Z) (x y : R) (l : list R) :
  In y (insert_desc key x l) -> y = x \/ In y l.
Proof.
  induction l as [|a l IH]; simpl.
  - intros [<-|[]]. now left.
  - destruct (key a <? key x); simpl.
    + intros [<-|[<-|H]]; auto.
    + intros [<-|H]; auto. destruct (IH H); auto.
Qed.

Lemma In_order_by_desc {R : Type} (key : R -> Z) (y : R) (l : list R) :
  In y (order_by_desc key l) -> In y l.
Proof.
  unfold order_by_desc. induction l as [|a l IH]; simpl; [auto|].
  intros H. apply In_insert_desc in H as [->|H]; auto.
Qed.

Lemma In_firstn {A : Type} (n : nat) (l : list A) (x : A) :
  In x (firstn n l) -> In x l.
Proof.
  revert l. induction n as [|n IH]; intros [|a l]; simpl; try tauto.
  intros [H|H]; [now left | right; now apply IH].
Qed.

Lemma In_skipn {A : Type} (n : nat) (l : list A) (x : A) :
  In x (skipn n l) -> In x l.
Proof.
  revert l. induction n as [|n IH]; intros [|a l]; simpl; try tauto.
  intros H. right. now apply IH.
Qed.

Lemma limit_offset_In {R : Type} (limit offset : Z) (l l' : list R) (x : R) :
  limit_offset limit offset l = Ok l' -> In x l' -> In x l.
Proof.
  unfold limit_offset.
  destruct (offset <? 0); [discriminate|].
  destruct (limit <? 0); [discriminate|].
  intros [= <-] H. now apply In_firstn, In_skipn in H.
Qed.

Lemma knex_limit_offset_In {R : Type} (limit offset : Z) (l l' : list R) (x : R) :
  knex_limit_offset limit offset l = Ok l' -> In x l' -> In x l.
Proof.
  unfold knex_limit_offset.
  destruct (offset <? 0); [discriminate | apply limit_offset_In].
Qed.

Lemma In_first_of_each {R : Type} (key : R -> string) (seen : list string)
    (l : list R) (x : R) :
  In x (MessageService.first_of_each key seen l) -> In x l.
Proof.
  revert seen. induction l as [|a l IH]; simpl; intros seen; [auto|].
  destruct (existsb _ seen).
  - intros H. right. exact (IH _ H).
  - intros [<-|H]; [now left | right; exact (IH _ H)].
Qed.

Lemma with_names_message (w : World) (m : Message.t) (row : MessageService.Found) :
  In row (MessageService.with_names w m) -> MessageService.message row = m.
Proof.
  unfold MessageService.with_names. intros H.
  apply in_flat_map in H as (sender & _ & H).
  apply in_map_iff in H as (recipient & <- & _). reflexivity.
Qed.

Lemma getMessageHistory_run (userId otherUserId : string) (page limit : Z) (w : World) :
  let selected := fun m => MessageService.between userId otherUserId m
                           && negb (Message.is_deleted m) in
  MessageService.getMessageHistory userId otherUserId page limit w =
  match active_user otherUserId w with
  | None => (Throw (AppError "User not found" 404), w)
  | Some _ =>
      match knex_limit_offset limit ((page - 1) * limit)
              (order_by_desc Message.created_at (List.filter selected (messages w))) with
      | Ok rows =>
          (Ok (mkPaginated (rev rows)
                 (pagination_of page limit
                    (length (List.filter selected (messages w))))), w)
      | Throw e => (Throw e, w)
      end
  end.
Proof.
  cbv zeta. unfold MessageService.getMessageHistory, bind, gets, throw, ret, run_query.
  destruct (active_user otherUserId w); [|reflexivity].
  destruct (knex_limit_offset _ _ _); reflexivity.
Qed.

Lemma searchMessages_run (ilike : string -> string -> bool) (userId query : string)
    (page limit : Z) (w : World) :
  MessageService.searchMessages ilike userId query page limit w =
  match knex_limit_offset limit ((page - 1) * limit)
          (order_by_desc (fun r => Message.created_at (MessageService.message r))
             (List.filter
                (fun r => MessageService.matching ilike userId query
                            (MessageService.message r))
                (flat_map (MessageService.with_names w) (messages w)))) with
  | Ok rows =>
      (Ok (mkPaginated rows
             (pagination_of page limit
                (length (List.filter (MessageService.matching ilike userId query)
                                     (messages w))))), w)
  | Throw e => (Throw e, w)
  end.
Proof.
  unfold MessageService.searchMessages, bind, gets, ret, run_query.
  destruct (knex_limit_offset _ _ _); reflexivity.
Qed.

Lemma getConversations_run (userId : string) (page limit : Z) (w : World) :
  MessageService.getConversations userId page limit w =
  match limit_offset limit ((page - 1) * limit)
          (order_by_desc MessageService.created_at
             (flat_map (MessageService.joined userId w)
                       (MessageService.latest_messages userId w))) with
  | Ok rows =>
      (Ok (mkPaginated rows
             (pagination_of page limit
                (length (MessageService.distinct []
                   (List.filter
                      (fun other =>
                         existsb (fun u => String.eqb (User.id u) other
                                           && User.is_active u) (users w))
                      (map (MessageService.other_user_of userId)
                           (List.filter (MessageService.visible_to userId)
                                        (messages w)))))))), w)
  | Throw e => (Throw e, w)
  end.
Proof.
  unfold MessageService.getConversations, bind, gets, ret, run_query.
  destruct (limit_offset _ _ _); reflexivity.
Qed.

Lemma visible_without_deleted (userId : string) (w : World) :
  List.filter (MessageService.visible_to userId) (messages (without_deleted w))
  = List.filter (MessageService.visible_to userId) (messages w).
Proof.
  apply filter_absorb. intros m H.
  now apply andb_prop in H as [_ H].
Qed.

Lemma unread_without_deleted (userId sender : string) (w : World) :
  MessageService.unread_from userId sender (without_deleted w)
  = MessageService.unread_from userId sender w.
Proof.
  unfold MessageService.unread_from. f_equal.
  apply filter_absorb. intros m H.
  apply andb_prop in H as [H _]. now apply andb_prop in H as [_ H].
Qed.

Lemma joined_without_deleted (userId : string) (w : World) (lm : Message.t) :
  MessageService.joined userId (without_deleted w) lm = MessageService.joined userId w lm.
Proof.
  unfold MessageService.joined. cbv zeta.
  now rewrite unread_without_deleted.
Qed.

Lemma conversation_row_source (userId : string) (w : World)
    (row : MessageService.Conversation) :
  In row (flat_map (MessageService.joined userId w)
                   (MessageService.latest_messages userId w)) ->
  exists m, In m (messages w)
            /\ Message.is_deleted m = false
            /\ MessageService.id row = Message.id m
            /\ MessageService.content row = Message.content m
            /\ MessageService.created_at row = Message.created_at m
            /\ MessageService.unread_count row
               = MessageService.unread_from userId
                   (MessageService.other_user_id row) w.
Proof.
  intros H. apply in_flat_map in H as (lm & Hlatest & Hrow).
  unfold MessageService.latest_messages in Hlatest.
  apply In_first_of_each, In_order_by_desc, filter_In in Hlatest as [Hin Hvisible].
  apply andb_prop in Hvisible as [_ Hkept]. apply negb_true_iff in Hkept.
  unfold MessageService.joined in Hrow.
  apply in_map_iff in Hrow as (u & <- & _).
  exists lm. simpl. repeat split; assumption.
Qed.

(** C7.  The three listings read the store as if its soft-deleted messages
    were not there: [getMessageHistory], [searchMessages] and
    [getConversations] return, for every user, the same result on a store
    and on that store without its deleted messages (rows, totals, latest
    message and unread count alike).  A message with [is_deleted = true]
    is no row of a history and the message of no search result, and every
    conversation row shows a stored message that is not deleted, with an
    unread count taken over messages that are not deleted. *)
Theorem deleted_messages_are_never_listed (w : World) :
  (forall (userId otherUserId : string) (page limit : Z),
     fst (MessageService.getMessageHistory userId otherUserId page limit
            (without_deleted w))
     = fst (MessageService.getMessageHistory userId otherUserId page limit w))
  /\ (forall (ilike : string -> string -> bool) (userId query : string)
             (page limit : Z),
        fst (MessageService.searchMessages ilike userId query page limit
               (without_deleted w))
        = fst (MessageService.searchMessages ilike userId query page limit w))
  /\ (forall (userId : string) (page limit : Z),
        fst (MessageService.getConversations userId page limit (without_deleted w))
        = fst (MessageService.getConversations userId page limit w))
  /\ (forall m : Message.t,
        Message.is_deleted m = true ->
        (forall (userId otherUserId : string) (page limit : Z) found,
           fst (MessageService.getMessageHistory userId otherUserId page limit w)
           = Ok found ->
           ~ In m (data found))
        /\ (forall (ilike : string -> string -> bool) (userId query : string)
                   (page limit : Z) found,
              fst (MessageService.searchMessages ilike userId query page limit w)
              = Ok found ->
              forall row, In row (data found) -> MessageService.message row <> m))
  /\ (forall (userId : string) (page limit : Z) found,
        fst (MessageService.getConversations userId page limit w) = Ok found ->
        forall row, In row (data found) ->
        exists m', In m' (messages w)
                   /\ Message.is_deleted m' = false
                   /\ MessageService.id row = Message.id m'
                   /\ MessageService.content row = Message.content m'
                   /\ MessageService.created_at row = Message.created_at m'
                   /\ MessageService.unread_count row
                      = MessageService.unread_from userId
                          (MessageService.other_user_id row) w).
Proof.
  split; [|split; [|split; [|split]]].
  - intros userId otherUserId page limit.
    rewrite !getMessageHistory_run. cbv zeta.
    change (active_user otherUserId (without_deleted w))
      with (active_user otherUserId w).
    destruct (active_user otherUserId w); [|reflexivity].
    unfold without_deleted. simpl messages.
    rewrite filter_absorb.
    + destruct (knex_limit_offset _ _ _); reflexivity.
    + intros m H. now apply andb_prop in H as [_ H].
  - intros ilike userId query page limit.
    rewrite !searchMessages_run.
    change (MessageService.with_names (without_deleted w))
      with (MessageService.with_names w).
    unfold without_deleted. simpl messages.
    rewrite filter_flat_map_absorb, filter_absorb.
    + destruct (knex_limit_offset _ _ _); reflexivity.
    + intros m H. unfold MessageService.matching in H.
      apply andb_prop in H as [H _]. now apply andb_prop in H as [_ H].
    + intros m Hm. apply filter_all_false. intros row Hrow.
      rewrite (with_names_message _ _ _ Hrow).
      unfold MessageService.matching. apply negb_false_iff in Hm. rewrite Hm.
      now rewrite andb_false_r.
  - intros userId page limit.
    rewrite !getConversations_run.
    unfold MessageService.latest_messages.
    rewrite visible_without_deleted.
    rewrite (flat_map_ext _ _ (joined_without_deleted userId w)).
    change (users (without_deleted w)) with (users w).
    destruct (limit_offset _ _ _); reflexivity.
  - intros m Hdeleted. split.
    + intros userId otherUserId page limit found.
      rewrite getMessageHistory_run. cbv zeta.
      destruct (active_user otherUserId w); [|discriminate].
      destruct (knex_limit_offset _ _ _) as [rows|] eqn:Hrows; [|discriminate].
      intros [= <-] Hin. simpl in Hin. apply in_rev in Hin.
      apply (knex_limit_offset_In _ _ _ _ _ Hrows), In_order_by_desc, filter_In in Hin
        as [_ Hin].
      apply andb_prop in Hin as [_ Hin]. rewrite Hdeleted in Hin. discriminate.
    + intros ilike userId query page limit found.
      rewrite searchMessages_run.
      destruct (knex_limit_offset _ _ _) as [rows|] eqn:Hrows; [|discriminate].
      intros [= <-] row Hin Hm. simpl in Hin.
      apply (knex_limit_offset_In _ _ _ _ _ Hrows), In_order_by_desc, filter_In in Hin
        as [_ Hin].
      unfold MessageService.matching in Hin. rewrite Hm, Hdeleted in Hin.
      now rewrite andb_false_r in Hin.
  - intros userId page limit found.
    rewrite getConversations_run.
    destruct (limit_offset _ _ _) as [rows|] eqn:Hrows; [|discriminate].
    intros [= <-] row Hin. simpl in Hin.
    apply (limit_offset_In _ _ _ _ _ Hrows), In_order_by_desc in Hin.
    now apply conversation_row_source.
Qed.

(** The theorem at the deleted message [m3] of [Sample.mailbox]. *)
Lemma deleted_messages_are_never_listed_witness :
  ~ In (Sample.hello Sample.m3 false true 300)
       (match fst (MessageService.getMessageHistory Sample.alice Sample.bob 1 20 Sample.mailbox)
        with Ok found => data found | Throw _ => [] end)
  /\ map MessageService.unread_count
         (match fst (MessageService.getConversations Sample.alice 1 20 Sample.mailbox)
          with Ok found => data found | Throw _ => [] end) = [1%nat].
Proof.
  destruct (deleted_messages_are_never_listed Sample.mailbox)
    as (_ & _ & _ & Hnever & _).
  destruct (Hnever (Sample.hello Sample.m3 false true 300) eq_refl) as [Hhistory _].
  split; [|reflexivity].
  destruct (fst (MessageService.getMessageHistory Sample.alice Sample.bob 1 20 Sample.mailbox))
    as [found|] eqn:E; [|intros []].
  exact (Hhistory Sample.alice Sample.bob 1 20 found E).
Defined.

(** ** Scenarios of the specification *)

(** Alice calls Bob while he is not connected: the record is stored in
    [initiated], and [getActiveCall] returns it to Bob. *)
Example offline_callee_finds_the_call :
  option_map (fun c => (Call.id c, Call.caller_id c, Call.status c))
    (match fst (CallService.getActiveCall Sample.bob Sample.dialing) with
     | Ok found => found
     | Throw _ => None
     end)
  = Some (Sample.id_0, Sample.alice, initiated).
Proof. reflexivity. Qed.

(** A call answered at [T0] and ended 42 s later lasts 42 seconds. *)
Example forty_two_seconds (T0 : Z) :
  let call := Call.mk "c" Sample.alice Sample.bob voice answered (T0 - 5000) (Some T0)
                      None None None None (T0 - 5000) T0 in
  let w := mkWorld Sample.people [call] [] (fun _ => T0 + 42000) 0
                   Sample.numbered 0 in
  option_map Call.duration_seconds
    (match fst (CallService.endCall "c" Sample.bob None w) with
     | Ok updated => updated
     | Throw _ => None
     end)
  = Some (Some 42).
Proof.
  cbv zeta. rewrite endCall_run. simpl.
  replace (T0 + 42000 - T0) with (42 * 1000) by lia.
  now rewrite Z.div_mul.
Qed.

(** Bob's unread count is 1 after Alice's message and 0 after he marks it
    read. *)
Example unread_count_follows_the_read_mark :
  let sent := snd (MessageService.sendMessage Sample.alice Sample.bob "hi" None None
                     Sample.fresh) in
  let marked := snd (MessageService.markMessageAsRead Sample.id_0 Sample.bob sent) in
  fst (MessageService.getUnreadMessagesCount Sample.bob sent) = Ok 1%nat
  /\ fst (MessageService.getUnreadMessagesCount Sample.bob marked) = Ok 0%nat.
Proof. split; reflexivity. Qed.

(** * Further properties of the services and the socket handler *)

(** ** Reading and deleting calls *)

Lemma truthy_nonempty (v : string) : v <> "" -> truthy (Some v) = true.
Proof. intros H. simpl. apply String.eqb_neq in H. now rewrite H. Qed.






Lemma find_rewrite_rows {R : Type} (p q : R -> bool) (f : R -> R) (l : list R) :
  (forall r, p (f r) = p r) ->
  find p (rewrite_rows q f l)
  = option_map (fun r => if q r then f r else r) (find p l).
Proof.
  intros Hp. unfold rewrite_rows.
  induction l as [|a l IH]; simpl; [reflexivity|].
  destruct (q a) eqn:Hq; rewrite ?Hp; destruct (p a); simpl; rewrite ?Hq; auto.
Qed.









(** ** The active call *)

Lemma startCall_returns (callerId calleeId : string) (callType : CallType)
    (w w' : World) (call : Call.t) :
  CallService.startCall callerId calleeId callType w = (Ok call, w') ->
  CallService.activeCall_of callerId calleeId w = None
  /\ callerId <> calleeId
  /\ calls w' = calls w ++ [call]
  /\ Call.caller_id call = callerId
  /\ Call.callee_id call = calleeId
  /\ Call.status call = initiated
  /\ Call.id call = uuid w (uuids_drawn w)
  /\ users w' = users w
  /\ clock w' = clock w
  /\ clock_reads w' = S (S (S (clock_reads w))).
Proof.
  rewrite startCall_run.
  destruct (active_user calleeId w); [|discriminate].
  destruct (String.eqb callerId calleeId) eqn:Hsame; [discriminate|].
  apply String.eqb_neq in Hsame.
  destruct (CallService.activeCall_of callerId calleeId w) eqn:Hfree; [discriminate|].
  destruct (references_user callerId w && references_user calleeId w) eqn:Href.
  - apply andb_prop in Href as [Ha Hb].
    rewrite startCall_insert_run by assumption.
    intros [= <- <-]. simpl. repeat split; auto.
  - destruct (startCall_insert_throws callerId calleeId callType w Href)
      as (e & w1 & E & _).
    rewrite E. discriminate.
Qed.

Lemma order_by_desc_one {R : Type} (key : R -> Z) (x : R) :
  order_by_desc key [x] = [x].
Proof. reflexivity. Qed.

(** X6.  After [startCall] has returned a call, [getActiveCall] returns
    that very call to the caller and to the callee. *)
Theorem started_call_is_the_active_call (w w' : World) (callerId calleeId : string)
    (callType : CallType) (call : Call.t) :
  CallService.startCall callerId calleeId callType w = (Ok call, w') ->
  fst (CallService.getActiveCall callerId w') = Ok (Some call)
  /\ fst (CallService.getActiveCall calleeId w') = Ok (Some call).
Proof.
  intros Hstart.
  destruct (startCall_returns _ _ _ _ _ _ Hstart)
    as (Hfree & _ & Hcalls & Hcaller & Hcallee & Hstatus & _).
  pose proof (proj1 (activeCall_of_None _ _ _) Hfree) as Hnone.
  assert (Hrows : forall U, CallService.involves U call = true ->
            (forall c, In c (calls w) ->
                       CallService.non_terminal (Call.status c) = true ->
                       CallService.involves U c = false) ->
            CallService.getActiveCall_rows U w' = [call]).
  { intros U HU Hidle. unfold CallService.getActiveCall_rows.
    rewrite Hcalls, List.filter_app. simpl. rewrite HU, Hstatus. simpl.
    rewrite filter_all_false; [reflexivity|].
    intros c Hin.
    destruct (CallService.non_terminal (Call.status c)) eqn:Hnt;
      [|apply andb_false_r].
    now rewrite (Hidle c Hin Hnt). }
  unfold CallService.getActiveCall, gets. cbn [fst]. split.
  - rewrite Hrows; [reflexivity| |].
    + unfold CallService.involves. rewrite Hcaller, String.eqb_refl. reflexivity.
    + intros c Hin Hnt. apply (Hnone c Hin Hnt).
  - rewrite Hrows; [reflexivity| |].
    + unfold CallService.involves. rewrite Hcallee, String.eqb_refl.
      apply orb_true_r.
    + intros c Hin Hnt. apply (Hnone c Hin Hnt).
Qed.

(** The theorem at Alice calling Bob in [Sample.fresh]. *)
Lemma started_call_is_the_active_call_witness :
  option_map Call.id
    (match fst (CallService.getActiveCall Sample.bob Sample.dialing) with
     | Ok found => found
     | Throw _ => None
     end) = Some Sample.id_0.
Proof.
  destruct (CallService.startCall Sample.alice Sample.bob voice Sample.fresh)
    as [[call|] w'] eqn:E; [|discriminate E].
  destruct (started_call_is_the_active_call _ _ _ _ _ _ E) as [_ Hcallee].
  assert (Hw : w' = Sample.dialing).
  { unfold Sample.dialing, serve. now rewrite E. }
  rewrite <- Hw, Hcallee. simpl.
  destruct (startCall_returns _ _ _ _ _ _ E) as (_ & _ & _ & _ & _ & _ & Hid & _).
  now rewrite Hid.
Defined.




(** ** Listings in order *)

Lemma In_insert_desc_iff {R : Type} (key : R -> Z) (x y : R) (l : list R) :
  In y (insert_desc key x l) <-> y = x \/ In y l.
Proof.
  split; [apply In_insert_desc|].
  induction l as [|a l IH]; simpl.
  - intros [->|[]]. now left.
  - destruct (key a <? key x); simpl; intros [->|[->|H]]; auto.
Qed.

Lemma insert_desc_descending {R : Type} (key : R -> Z) (x : R) (l : list R) :
  descending key l -> descending key (insert_desc key x l).
Proof.
  induction l as [|a l IH]; simpl;
    [intros _; split; [intros y []|exact I]|].
  intros [Ha Hl]. destruct (key a <? key x) eqn:E; simpl.
  - apply Z.ltb_lt in E. repeat split; auto.
    intros y [<-|Hy]; [lia|]. specialize (Ha y Hy). lia.
  - apply Z.ltb_ge in E. split; [|auto].
    intros y Hy. apply In_insert_desc in Hy as [->|Hy]; auto.
Qed.

Lemma order_by_desc_descending {R : Type} (key : R -> Z) (l : list R) :
  descending key (order_by_desc key l).
Proof.
  unfold order_by_desc. induction l as [|a l IH]; simpl; [exact I|].
  now apply insert_desc_descending.
Qed.

Lemma descending_skipn {R : Type} (key : R -> Z) (n : nat) (l : list R) :
  descending key l -> descending key (skipn n l).
Proof.
  revert l. induction n as [|n IH]; intros [|a l]; simpl; auto.
  intros [_ Hl]. now apply IH.
Qed.

Lemma descending_firstn {R : Type} (key : R -> Z) (n : nat) (l : list R) :
  descending key l -> descending key (firstn n l).
Proof.
  revert l. induction n as [|n IH]; intros [|a l]; simpl; auto.
  intros [Ha Hl]. split; [|now apply IH].
  intros y Hy. apply Ha. now apply In_firstn in Hy.
Qed.

Lemma ascending_snoc {R : Type} (key : R -> Z) (l : list R) (x : R) :
  ascending key l -> (forall y, In y l -> key y <= key x) ->
  ascending key (l ++ [x]).
Proof.
  induction l as [|a l IH]; simpl.
  - intros _ _. split; [intros y []|exact I].
  - intros [Ha Hl] Hx. split.
    + intros y Hy. apply in_app_or in Hy as [Hy|[<-|[]]]; auto.
    + apply IH; auto.
Qed.

Lemma descending_rev {R : Type} (key : R -> Z) (l : list R) :
  descending key l -> ascending key (rev l).
Proof.
  induction l as [|a l IH]; simpl; [auto|].
  intros [Ha Hl]. apply ascending_snoc; [now apply IH|].
  intros y Hy. apply in_rev in Hy. auto.
Qed.

Lemma limit_offset_rows {R : Type} (key : R -> Z) (limit offset : Z) (l l' : list R) :
  limit_offset limit offset l = Ok l' ->
  (descending key l -> descending key l')
  /\ Z.of_nat (length l') <= limit.
Proof.
  unfold limit_offset.
  destruct (offset <? 0); [discriminate|].
  destruct (limit <? 0) eqn:E; [discriminate|].
  apply Z.ltb_ge in E. intros [= <-]. split.
  - intros H. now apply descending_firstn, descending_skipn.
  - rewrite List.length_firstn. lia.
Qed.

Lemma knex_limit_offset_rows {R : Type} (key : R -> Z) (limit offset : Z)
    (l l' : list R) :
  knex_limit_offset limit offset l = Ok l' ->
  (descending key l -> descending key l')
  /\ Z.of_nat (length l') <= limit.
Proof.
  unfold knex_limit_offset.
  destruct (offset <? 0); [discriminate | apply limit_offset_rows].
Qed.

Lemma getCallHistory_run (userId : string) (page limit : Z)
    (callType : option CallType) (status : option string) (w : World) :
  CallHistory.getCallHistory userId page limit callType status w =
  match knex_limit_offset limit ((page - 1) * limit)
          (order_by_desc (fun r => Call.started_at (CallHistory.call r))
             (List.filter
                (fun r => CallHistory.selected userId callType status
                            (CallHistory.call r))
                (flat_map (CallHistory.with_names w) (calls w)))) with
  | Ok rows =>
      (Ok (mkPaginated rows
             (pagination_of page limit
                (length (List.filter (CallHistory.selected userId callType status)
                                     (calls w))))), w)
  | Throw e => (Throw e, w)
  end.
Proof.
  unfold CallHistory.getCallHistory, bind, gets, ret, run_query.
  destruct (knex_limit_offset _ _ _); reflexivity.
Qed.

(** X8.  A page of [getCallHistory] lists stored calls to which the user is
    party, newest [started_at] first, no more than [limit] of them; with a
    call type given every listed call has that type, and with a non-empty
    status given every listed call has that status. *)
Theorem getCallHistory_page (w : World) (userId : string) (page limit : Z)
    (callType : option CallType) (status : option string)
    (found : Paginated CallHistory.Row) :
  fst (CallHistory.getCallHistory userId page limit callType status w) = Ok found ->
  descending (fun r => Call.started_at (CallHistory.call r)) (data found)
  /\ Z.of_nat (length (data found)) <= limit
  /\ forall row, In row (data found) ->
       In (CallHistory.call row) (calls w)
       /\ CallService.involves userId (CallHistory.call row) = true
       /\ (forall t, callType = Some t -> Call.call_type (CallHistory.call row) = t)
       /\ (forall st, status = Some st -> st <> "" ->
                      status_text (Call.status (CallHistory.call row)) = st).
Proof.
  rewrite getCallHistory_run.
  destruct (knex_limit_offset _ _ _) as [rows|] eqn:Hrows; [|discriminate].
  intros [= <-]. cbn [data].
  destruct (knex_limit_offset_rows
              (fun r => Call.started_at (CallHistory.call r)) _ _ _ _ Hrows)
    as [Hsorted Hlength].
  split; [apply Hsorted, order_by_desc_descending|]. split; [exact Hlength|].
  intros row Hin.
  apply (knex_limit_offset_In _ _ _ _ _ Hrows), In_order_by_desc, filter_In in Hin
    as [Hjoin Hselected].
  apply in_flat_map in Hjoin as (c & Hc & Hrow).
  assert (Hcall : CallHistory.call row = c).
  { unfold CallHistory.with_names in Hrow.
    apply in_flat_map in Hrow as (caller & _ & Hrow).
    apply in_map_iff in Hrow as (callee & <- & _). reflexivity. }
  rewrite Hcall in *. unfold CallHistory.selected in Hselected.
  apply andb_prop in Hselected as [Hselected Hstatus].
  apply andb_prop in Hselected as [Hparty Htype].
  repeat split; auto.
  - intros t ->. destruct (Call.call_type c), t; simpl in Htype; congruence.
  - intros st -> Hst. rewrite (truthy_nonempty _ Hst) in Hstatus.
    now apply String.eqb_eq in Hstatus.
Qed.

(** The theorem at Alice's calls in [Sample.double_booked]. *)
Lemma getCallHistory_page_witness :
  map (fun r => Call.id (CallHistory.call r))
      (match fst (CallHistory.getCallHistory Sample.alice 1 20 None None
                    Sample.double_booked) with
       | Ok found => data found
       | Throw _ => []
       end) = [Sample.id_1; Sample.id_0]
  /\ forall found,
       fst (CallHistory.getCallHistory Sample.alice 1 20 (Some video) (Some "initiated")
              Sample.double_booked) = Ok found ->
       forall row, In row (data found) ->
                   Call.call_type (CallHistory.call row) = video.
Proof.
  split; [reflexivity|].
  intros found E row Hin.
  destruct (getCallHistory_page _ _ _ _ _ _ _ E) as (_ & _ & Hrows).
  destruct (Hrows row Hin) as (_ & _ & Htype & _). now apply Htype.
Defined.

(** ** The offer and the candidates *)

Lemma ready_object (c : Call.t) :
  metadata_ready c = true ->
  exists fields, Call.metadata c = Some (JObj fields).
Proof.
  unfold metadata_ready.
  destruct (Call.metadata c) as [[| | | | | |fields]|]; try discriminate. eauto.
Qed.

Lemma signalling_rows (P : Call.t -> Call.t -> Prop) (callId : string)
    (g : Call.t -> Outcome (option Json)) (stamp : Z) (l : list Call.t) :
  Forall (fun c => metadata_ready c = true) l ->
  (forall c, metadata_ready c = true ->
             if CallService.has_id callId c
             then exists md, g c = Ok md /\ P c (with_metadata md stamp c)
             else P c c) ->
  exists l',
    rewrite_rows_checked (CallService.has_id callId)
      (fun c => match g c with
                | Ok md => Ok (with_metadata md stamp c)
                | Throw e => Throw e
                end) l = Ok l'
    /\ Forall2 P l l'.
Proof.
  intros Hready Hrow. apply rewrite_rows_checked_pairs.
  intros c Hin.
  pose proof (proj1 (List.Forall_forall _ _) Hready c Hin) as Hc.
  specialize (Hrow c Hc).
  destruct (CallService.has_id callId c); [|exact Hrow].
  destruct Hrow as (md & -> & HP). eauto.
Qed.

(** X9.  In every store reached from an empty [calls] table, with a call
    identifier in uuid syntax and a payload that [jsonb] can hold,
    [createOffer] returns and leaves the given offer under [offer] in the metadata of the
    calls with the given identifier, in place of any earlier offer, with
    their accumulated candidates as before and every other call untouched;
    and [addIceCandidate] returns and leaves the offer of every call as it
    was. *)
Theorem offer_and_candidates_do_not_clobber (w : World) (callId id : string)
    (payload : Json) :
  reachable w ->
  uuid_in callId = Some id ->
  jsonb_accepts payload = true ->
  (exists w',
     CallService.createOffer callId payload w = (Ok tt, w')
     /\ Forall2 (fun c c' =>
                   if CallService.has_id id c
                   then same_call_state c c'
                        /\ jsonb_get (Call.metadata c') "offer" = Some payload
                        /\ ice_candidates c' = ice_candidates c
                   else c' = c)
                (calls w) (calls w'))
  /\ (exists w',
        CallService.addIceCandidate callId payload w = (Ok tt, w')
        /\ Forall2 (fun c c' =>
                      jsonb_get (Call.metadata c') "offer"
                      = jsonb_get (Call.metadata c) "offer")
                   (calls w) (calls w')).
Proof.
  intros Hreach Hid Haccepts.
  pose proof (reachable_metadata_ready w Hreach) as Hready.
  split.
  - rewrite createOffer_run, Haccepts, Hid.
    unfold update_calls_checked, new_Date. cbn [snd calls].
    destruct (signalling_rows
                (fun c c' =>
                   if CallService.has_id id c
                   then same_call_state c c'
                        /\ jsonb_get (Call.metadata c') "offer" = Some payload
                        /\ ice_candidates c' = ice_candidates c
                   else c' = c)
                id (fun c => jsonb_set (Call.metadata c) "offer" payload)
                (clock w (clock_reads w)) (calls w) Hready)
      as (l' & E & Hpairs).
    + intros c Hc. cbv beta.
      destruct (CallService.has_id id c) eqn:Hc_id; [|reflexivity].
      destruct (ready_object c Hc) as (fields & Hmd).
      rewrite Hmd. simpl jsonb_set. eexists. split; [reflexivity|].
      split; [repeat split|].
      unfold ice_candidates. simpl. rewrite Hmd. simpl.
      rewrite obj_get_set_eq. split; [reflexivity|].
      now rewrite obj_get_set_ne by discriminate.
    + rewrite E. eexists. split; [reflexivity|]. exact Hpairs.
  - rewrite addIceCandidate_run, Haccepts, Hid.
    unfold update_calls_checked, new_Date. cbn [snd calls].
    destruct (signalling_rows
                (fun c c' => jsonb_get (Call.metadata c') "offer"
                             = jsonb_get (Call.metadata c) "offer")
                id
                (fun c => jsonb_set (Call.metadata c) "ice_candidates"
                            (jsonb_concat_array
                               (or_keep (jsonb_get (Call.metadata c) "ice_candidates")
                                        (JArr []))
                               [payload]))
                (clock w (clock_reads w)) (calls w) Hready)
      as (l' & E & Hpairs).
    + intros c Hc. cbv beta.
      destruct (CallService.has_id id c); [|reflexivity].
      destruct (ready_object c Hc) as (fields & Hmd).
      rewrite Hmd. simpl jsonb_set. eexists. split; [reflexivity|].
      simpl. now rewrite obj_get_set_ne by discriminate.
    + rewrite E. eexists. split; [reflexivity|]. exact Hpairs.
Qed.

(** The theorem at an offer for the call of [Sample.dialing]. *)
Lemma offer_and_candidates_do_not_clobber_witness :
  exists w',
    CallService.createOffer Sample.id_0 (JStr "sdp") Sample.dialing = (Ok tt, w')
    /\ map (fun c => jsonb_get (Call.metadata c) "offer") (calls w')
       = [Some (JStr "sdp")].
Proof.
  assert (Hreach : reachable Sample.dialing).
  { unfold Sample.dialing. apply reachable_step. now apply reachable_init. }
  destruct (offer_and_candidates_do_not_clobber Sample.dialing Sample.id_0 Sample.id_0
              (JStr "sdp") Hreach eq_refl eq_refl) as [(w' & E & Hpairs) _].
  exists w'. split; [exact E|].
  change (calls Sample.dialing)
    with [Call.mk Sample.id_0 Sample.alice Sample.bob voice initiated 1700000000000
            None None None None
            (Some (JObj [("created_via", JStr "api");
                         ("client_timestamp", JIsoDate 1700000000700)]))
            1700000001400 1700000001400] in Hpairs.
  inversion Hpairs as [|c c' l l' Hc Hrest]; subst.
  inversion Hrest; subst. simpl in Hc.
  destruct Hc as (_ & Hoffer & _). simpl. now rewrite Hoffer.
Defined.

(** ** Sending, fetching and deleting messages *)

Lemma find_app_last {A : Type} (p : A -> bool) (l : list A) (x : A) :
  (forall a, In a l -> p a = false) -> p x = true -> find p (l ++ [x]) = Some x.
Proof.
  intros Hl Hx. induction l as [|a l IH]; simpl.
  - now rewrite Hx.
  - rewrite (Hl a (or_introl eq_refl)). apply IH.
    intros b Hb. apply Hl. now right.
Qed.



Lemma Forall2_rewrite_rows_cases {R : Type} (P : R -> R -> Prop) (p : R -> bool)
    (f : R -> R) (l : list R) :
  (forall r, p r = true -> P r (f r)) -> (forall r, p r = false -> P r r) ->
  Forall2 P l (rewrite_rows p f l).
Proof.
  intros Hyes Hno. unfold rewrite_rows.
  induction l as [|a l IH]; simpl; constructor; [|exact IH].
  destruct (p a) eqn:E; auto.
Qed.





Lemma between_sym (a b : string) (m : Message.t) :
  MessageService.between a b m = MessageService.between b a m.
Proof. unfold MessageService.between. apply orb_comm. Qed.




(** ** Read marks and unread counts *)

Lemma filter_length_split {A : Type} (p q : A -> bool) (l : list A) :
  length (List.filter p l)
  = (length (List.filter (fun a => p a && q a) l)
     + length (List.filter (fun a => p a && negb (q a)) l))%nat.
Proof.
  induction l as [|a l IH]; simpl; [reflexivity|].
  destruct (p a), (q a); simpl; lia.
Qed.

Lemma filter_rewrite_rows {A : Type} (p sel : A -> bool) (f : A -> A) (l : list A) :
  length (List.filter p (rewrite_rows sel f l))
  = length (List.filter (fun a => p (if sel a then f a else a)) l).
Proof.
  unfold rewrite_rows. induction l as [|a l IH]; simpl; [reflexivity|].
  destruct (p (if sel a then f a else a)); simpl; now rewrite IH.
Qed.

Lemma filter_length_ext {A : Type} (p q : A -> bool) (l : list A) :
  (forall a, p a = q a) -> length (List.filter p l) = length (List.filter q l).
Proof.
  intros H. induction l as [|a l IH]; simpl; [reflexivity|].
  rewrite H. destruct (q a); simpl; now rewrite IH.
Qed.

(** X13.  With identifiers in uuid syntax, [markMessagesAsRead] returns the
    number of unread messages from the sender to the recipient, deleted
    ones included, and does not throw.  Afterwards the recipient has no unread message from that sender, the
    recipient's unread count has dropped by exactly the unread messages
    shown from that sender, and every message other than those marked is
    as it was. *)
Theorem markMessagesAsRead_clears_the_sender (w : World)
    (senderId recipientId sender_id recipient_id : string) :
  uuid_in senderId = Some sender_id ->
  uuid_in recipientId = Some recipient_id ->
  let w' := snd (MessageService.markMessagesAsRead senderId recipientId w) in
  let marked := fun m => String.eqb (Message.sender_id m) sender_id
                         && String.eqb (Message.recipient_id m) recipient_id
                         && negb (Message.is_read m) in
  fst (MessageService.markMessagesAsRead senderId recipientId w)
  = Ok (length (List.filter marked (messages w)))
  /\ MessageService.unread_from recipient_id sender_id w' = 0%nat
  /\ (exists before after_ : nat,
        fst (MessageService.getUnreadMessagesCount recipient_id w) = Ok before
        /\ fst (MessageService.getUnreadMessagesCount recipient_id w') = Ok after_
        /\ before
           = (after_ + MessageService.unread_from recipient_id sender_id w)%nat)
  /\ Forall2 (fun m m' => if marked m
                          then Message.is_read m' = true
                               /\ Message.read_at m' = Some (clock w (clock_reads w))
                          else m' = m)
             (messages w) (messages w').
Proof.
  intros Hfrom Hto. cbv zeta. rewrite markMessagesAsRead_run, Hfrom, Hto.
  cbv zeta. cbn [fst snd].
  split; [reflexivity|]. split; [|split].
  - unfold MessageService.unread_from. cbn [messages].
    rewrite filter_all_false; [reflexivity|].
    intros m' Hin. unfold rewrite_rows in Hin.
    apply in_map_iff in Hin as (m & <- & _).
    destruct (String.eqb (Message.sender_id m) sender_id) eqn:Hs;
      destruct (String.eqb (Message.recipient_id m) recipient_id) eqn:Hr;
      destruct (Message.is_read m) eqn:Hread; simpl;
      rewrite ?Hs, ?Hr, ?Hread; simpl;
      rewrite ?andb_false_r; reflexivity.
  - unfold MessageService.getUnreadMessagesCount, MessageService.unread_from, gets.
    cbn [fst messages]. do 2 eexists. split; [reflexivity|]. split; [reflexivity|].
    rewrite filter_rewrite_rows.
    rewrite (filter_length_split
               (fun m => String.eqb (Message.recipient_id m) recipient_id
                         && negb (Message.is_read m)
                         && negb (Message.is_deleted m))
               (fun m => String.eqb (Message.sender_id m) sender_id) (messages w)).
    rewrite Nat.add_comm. f_equal; apply filter_length_ext; intros m;
      destruct (String.eqb (Message.sender_id m) sender_id) eqn:Hs;
      destruct (String.eqb (Message.recipient_id m) recipient_id) eqn:Hr;
      destruct (Message.is_read m) eqn:Hread;
      destruct (Message.is_deleted m) eqn:Hdel; simpl;
      rewrite ?Hs, ?Hr, ?Hread, ?Hdel; reflexivity.
  - cbn [messages]. apply Forall2_rewrite_rows_cases; intros m Hm; rewrite Hm;
      [simpl; auto | reflexivity].
Qed.

(** The theorem at Alice marking all of Bob's messages: two were unread,
    one of them deleted. *)
Lemma markMessagesAsRead_clears_the_sender_witness :
  fst (MessageService.markMessagesAsRead Sample.bob Sample.alice Sample.mailbox)
  = Ok 2%nat
  /\ fst (MessageService.getUnreadMessagesCount Sample.alice
            (snd (MessageService.markMessagesAsRead Sample.bob Sample.alice
                    Sample.mailbox))) = Ok 0%nat.
Proof.
  pose proof (markMessagesAsRead_clears_the_sender Sample.mailbox
                Sample.bob Sample.alice Sample.bob Sample.alice eq_refl eq_refl) as H.
  cbv zeta in H. destruct H as (Hcount & _ & _ & _).
  rewrite Hcount. split; reflexivity.
Defined.

Lemma rewrite_rows_settled {A : Type} (sel : A -> bool) (f g : A -> A) (l : list A) :
  (forall a, sel a = true -> sel (f a) = false) ->
  rewrite_rows sel g (rewrite_rows sel f l) = rewrite_rows sel f l.
Proof.
  intros Hsettled. unfold rewrite_rows. rewrite map_map.
  apply map_ext. intros a. destruct (sel a) eqn:E.
  - now rewrite (Hsettled a E).
  - now rewrite E.
Qed.

(** X14.  [markMessageAsRead] is idempotent on the store: a second call
    with the same arguments leaves every message as the first call left
    it, so the first [read_at] is kept.  After a call with identifiers in
    uuid syntax, no stored message with the given identifier and the
    acting user as recipient is unread. *)
Theorem markMessageAsRead_idempotent (w : World) (messageId userId : string) :
  let once := snd (MessageService.markMessageAsRead messageId userId w) in
  let twice := snd (MessageService.markMessageAsRead messageId userId once) in
  messages twice = messages once
  /\ forall id recipient_id : string,
       uuid_in messageId = Some id -> uuid_in userId = Some recipient_id ->
       forall m, In m (messages once) -> Message.id m = id ->
                 Message.recipient_id m = recipient_id -> Message.is_read m = true.
Proof.
  cbv zeta. rewrite !markMessageAsRead_run.
  destruct (uuid_in messageId) as [id|]; [destruct (uuid_in userId) as [to|]|].
  - cbn [snd messages clock clock_reads]. split.
    + apply rewrite_rows_settled. intros m _. simpl. apply andb_false_r.
    + intros id' to' [= <-] [= <-] m' Hin Hid Hto. unfold rewrite_rows in Hin.
      apply in_map_iff in Hin as (m & Hm & _).
      destruct (Message.is_read m) eqn:Hread.
      * rewrite andb_false_r in Hm. now subst m'.
      * rewrite andb_true_r in Hm.
        destruct (String.eqb (Message.id m) id
                  && String.eqb (Message.recipient_id m) to) eqn:Hsel.
        -- now subst m'.
        -- subst m'. apply String.eqb_eq in Hid, Hto. rewrite Hid, Hto in Hsel.
           discriminate.
  - split; [reflexivity | discriminate].
  - split; [reflexivity | discriminate].
Qed.

(** The theorem at Alice marking [m1] twice. *)
Lemma markMessageAsRead_idempotent_witness :
  map Message.read_at
      (messages (snd (MessageService.markMessageAsRead Sample.m1 Sample.alice
                        (snd (MessageService.markMessageAsRead Sample.m1 Sample.alice
                                Sample.mailbox)))))
  = [Some 1700000000000; Some 205; None]
  /\ Message.is_read
       (Message.mk Sample.m1 Sample.bob Sample.alice "hello" "text" None true
                   (Some 1700000000000) false None None 100 1700000000700) = true.
Proof.
  destruct (markMessageAsRead_idempotent Sample.mailbox Sample.m1 Sample.alice)
    as [Hsame Hread].
  split; [rewrite Hsame; reflexivity|].
  apply (Hread Sample.m1 Sample.alice eq_refl eq_refl);
    [left; reflexivity | reflexivity | reflexivity].
Defined.

(** ** What the message listings show *)

(** X15.  The reads show a user only messages of that user:
    [getMessageById] returns a stored, undeleted message with the given
    identifier of which the user is sender or recipient; every row of
    [getMessageHistory] is a stored message between the two users; every
    result of [searchMessages] is a stored message of which the user is
    sender or recipient; and every row of [getConversations] shows a
    message of the user, with [other_user_id] its other party. *)
Theorem listings_show_only_own_messages (w : World) (userId : string) :
  (forall (messageId : string) (m : Message.t),
     fst (MessageService.getMessageById messageId userId w) = Ok (Some m) ->
     In m (messages w) /\ Message.id m = messageId
     /\ MessageService.party userId m = true /\ Message.is_deleted m = false)
  /\ (forall (otherUserId : string) (page limit : Z) found,
        fst (MessageService.getMessageHistory userId otherUserId page limit w)
        = Ok found ->
        forall m, In m (data found) ->
                  In m (messages w)
                  /\ MessageService.between userId otherUserId m = true)
  /\ (forall (ilike : string -> string -> bool) (query : string) (page limit : Z)
             found,
        fst (MessageService.searchMessages ilike userId query page limit w)
        = Ok found ->
        forall row, In row (data found) ->
                    In (MessageService.message row) (messages w)
                    /\ MessageService.party userId (MessageService.message row) = true
                    /\ ilike (Message.content (MessageService.message row))
                             ("%" +:+ query +:+ "%") = true)
  /\ (forall (page limit : Z) found,
        fst (MessageService.getConversations userId page limit w) = Ok found ->
        forall row, In row (data found) ->
                    (MessageService.sender_id row = userId
                     \/ MessageService.recipient_id row = userId)
                    /\ MessageService.other_user_id row
                       = if String.eqb (MessageService.sender_id row) userId
                         then MessageService.recipient_id row
                         else MessageService.sender_id row).
Proof.
  split; [|split; [|split]].
  - intros messageId m. unfold MessageService.getMessageById, gets. cbn [fst].
    intros [= Hfind]. apply find_some in Hfind as [Hin Hsel].
    apply andb_prop in Hsel as [Hsel Hkept]. apply andb_prop in Hsel as [Hid Hparty].
    apply String.eqb_eq in Hid. apply negb_true_iff in Hkept. auto.
  - intros otherUserId page limit found. rewrite getMessageHistory_run. cbv zeta.
    destruct (active_user otherUserId w); [|discriminate].
    destruct (knex_limit_offset _ _ _) as [rows|] eqn:Hrows; [|discriminate].
    intros [= <-] m Hin. cbn [data] in Hin. apply in_rev in Hin.
    apply (knex_limit_offset_In _ _ _ _ _ Hrows), In_order_by_desc, filter_In in Hin
      as [Hin Hsel].
    now apply andb_prop in Hsel as [Hsel _].
  - intros ilike query page limit found. rewrite searchMessages_run.
    destruct (knex_limit_offset _ _ _) as [rows|] eqn:Hrows; [|discriminate].
    intros [= <-] row Hin. cbn [data] in Hin.
    apply (knex_limit_offset_In _ _ _ _ _ Hrows), In_order_by_desc, filter_In in Hin
      as [Hjoin Hsel].
    apply in_flat_map in Hjoin as (m & Hm & Hrow).
    rewrite (with_names_message _ _ _ Hrow) in *.
    unfold MessageService.matching in Hsel.
    apply andb_prop in Hsel as [Hsel Hlike]. apply andb_prop in Hsel as [Hparty _].
    auto.
  - intros page limit found. rewrite getConversations_run.
    destruct (limit_offset _ _ _) as [rows|] eqn:Hrows; [|discriminate].
    intros [= <-] row Hin. cbn [data] in Hin.
    apply (limit_offset_In _ _ _ _ _ Hrows), In_order_by_desc in Hin.
    apply in_flat_map in Hin as (lm & Hlatest & Hrow).
    unfold MessageService.latest_messages in Hlatest.
    apply In_first_of_each, In_order_by_desc, filter_In in Hlatest as [_ Hvisible].
    apply andb_prop in Hvisible as [Hparty _].
    unfold MessageService.joined in Hrow.
    apply in_map_iff in Hrow as (u & <- & _). simpl.
    unfold MessageService.party in Hparty. unfold MessageService.other_user_of.
    split; [|reflexivity].
    apply orb_prop in Hparty as [H|H]; apply String.eqb_eq in H; auto.
Qed.

(** The theorem at Carol asking for Bob's message to Alice. *)
Lemma listings_show_only_own_messages_witness :
  fst (MessageService.getMessageById Sample.m1 Sample.carol Sample.mailbox) = Ok None.
Proof.
  destruct (fst (MessageService.getMessageById Sample.m1 Sample.carol Sample.mailbox))
    as [[m|]|] eqn:E; [|reflexivity|discriminate E].
  destruct (proj1 (listings_show_only_own_messages Sample.mailbox Sample.carol) Sample.m1 m E)
    as (Hin & _ & Hparty & _).
  destruct Hin as [<-|[<-|[<-|[]]]]; discriminate Hparty.
Defined.

(** X16.  A page of [getMessageHistory] is in chronological order, oldest
    [created_at] first, and holds no more than [limit] messages; [total]
    counts the undeleted messages between the two users, whatever the
    page. *)
Theorem getMessageHistory_is_chronological (w : World) (userId otherUserId : string)
    (page limit : Z) (found : Paginated Message.t) :
  fst (MessageService.getMessageHistory userId otherUserId page limit w) = Ok found ->
  ascending Message.created_at (data found)
  /\ Z.of_nat (length (data found)) <= limit
  /\ total (pagination found)
     = Z.of_nat (length (List.filter
                           (fun m => MessageService.between userId otherUserId m
                                     && negb (Message.is_deleted m))
                           (messages w))).
Proof.
  rewrite getMessageHistory_run. cbv zeta.
  destruct (active_user otherUserId w); [|discriminate].
  destruct (knex_limit_offset _ _ _) as [rows|] eqn:Hrows; [|discriminate].
  intros [= <-]. cbn [data pagination].
  destruct (knex_limit_offset_rows Message.created_at _ _ _ _ Hrows)
    as [Hsorted Hlength].
  split; [|split].
  - apply descending_rev, Hsorted, order_by_desc_descending.
  - now rewrite List.length_rev.
  - reflexivity.
Qed.

(** The theorem at Alice's history with Bob. *)
Lemma getMessageHistory_is_chronological_witness :
  map Message.created_at
      (match fst (MessageService.getMessageHistory Sample.alice Sample.bob 1 20 Sample.mailbox)
       with Ok found => data found | Throw _ => [] end) = [100; 200]
  /\ forall found,
       fst (MessageService.getMessageHistory Sample.alice Sample.bob 1 20 Sample.mailbox)
       = Ok found ->
       total (pagination found) = 2.
Proof.
  split; [reflexivity|]. intros found E.
  destruct (getMessageHistory_is_chronological _ _ _ _ _ _ E) as (_ & _ & Htotal).
  rewrite Htotal. reflexivity.
Defined.

(** X17.  The two users of a conversation are shown the same history: when
    both are active accounts, [getMessageHistory] gives one of them, for a
    page and a limit, the very result it gives the other. *)
Theorem history_is_the_same_for_both (w : World) (userId otherUserId : string)
    (page limit : Z) :
  active_user userId w <> None ->
  active_user otherUserId w <> None ->
  fst (MessageService.getMessageHistory userId otherUserId page limit w)
  = fst (MessageService.getMessageHistory otherUserId userId page limit w).
Proof.
  intros Hu Ho. rewrite !getMessageHistory_run. cbv zeta.
  destruct (active_user userId w); [|congruence].
  destruct (active_user otherUserId w); [|congruence].
  assert (Hfilter : List.filter
                      (fun m => MessageService.between userId otherUserId m
                                && negb (Message.is_deleted m)) (messages w)
                    = List.filter
                        (fun m => MessageService.between otherUserId userId m
                                  && negb (Message.is_deleted m)) (messages w)).
  { apply filter_ext. intros m. now rewrite between_sym. }
  rewrite Hfilter. destruct (knex_limit_offset _ _ _); reflexivity.
Qed.

(** The theorem at Alice and Bob. *)
Lemma history_is_the_same_for_both_witness :
  fst (MessageService.getMessageHistory Sample.alice Sample.bob 1 20 Sample.mailbox)
  = fst (MessageService.getMessageHistory Sample.bob Sample.alice 1 20 Sample.mailbox).
Proof.
  apply (history_is_the_same_for_both Sample.mailbox Sample.alice Sample.bob 1 20);
    discriminate.
Defined.

(** ** Conversations *)

Lemma first_of_each_unseen {R : Type} (key : R -> string) (seen : list string)
    (l : list R) (x : R) :
  In x (MessageService.first_of_each key seen l) ->
  existsb (String.eqb (key x)) seen = false.
Proof.
  revert seen. induction l as [|r rest IH]; simpl; intros seen; [intros []|].
  destruct (existsb (String.eqb (key r)) seen) eqn:Hseen.
  - apply IH.
  - intros [<-|Hx]; [exact Hseen|].
    specialize (IH _ Hx). simpl in IH. now apply orb_false_elim in IH as [_ IH].
Qed.

Lemma first_of_each_latest {R : Type} (key : R -> string) (at_ : R -> Z)
    (seen : list string) (l : list R) (x y : R) :
  descending at_ l ->
  In x (MessageService.first_of_each key seen l) ->
  In y l -> key y = key x -> at_ y <= at_ x.
Proof.
  revert seen. induction l as [|r rest IH]; simpl; intros seen; [intros _ []|].
  intros [Hr Hrest].
  destruct (existsb (String.eqb (key r)) seen) eqn:Hseen.
  - intros Hx [<-|Hy] Hkey; [|now apply (IH seen)].
    apply first_of_each_unseen in Hx. rewrite <- Hkey in Hx. congruence.
  - intros [<-|Hx] [<-|Hy] Hkey.
    + lia.
    + now apply Hr.
    + apply first_of_each_unseen in Hx. simpl in Hx.
      rewrite <- Hkey, String.eqb_refl in Hx. discriminate.
    + eapply IH; eauto.
Qed.

Lemma In_order_by_desc_iff {R : Type} (key : R -> Z) (y : R) (l : list R) :
  In y (order_by_desc key l) <-> In y l.
Proof.
  split; [apply In_order_by_desc|].
  unfold order_by_desc. induction l as [|a l IH]; simpl; [auto|].
  intros [<-|H]; apply In_insert_desc_iff; auto.
Qed.

(** X18.  [getConversations] lists conversations newest first, and the
    message shown for a counterpart is the latest one: no undeleted
    message of the user with the same counterpart has a later
    [created_at] than the row shown. *)
Theorem conversation_shows_latest_message (w : World) (userId : string)
    (page limit : Z) (found : Paginated MessageService.Conversation) :
  fst (MessageService.getConversations userId page limit w) = Ok found ->
  descending MessageService.created_at (data found)
  /\ forall row m,
       In row (data found) -> In m (messages w) ->
       MessageService.visible_to userId m = true ->
       MessageService.other_user_of userId m = MessageService.other_user_id row ->
       Message.created_at m <= MessageService.created_at row.
Proof.
  rewrite getConversations_run.
  destruct (limit_offset _ _ _) as [rows|] eqn:Hrows; [|discriminate].
  intros [= <-]. cbn [data]. split.
  - apply (limit_offset_rows MessageService.created_at _ _ _ _ Hrows).
    apply order_by_desc_descending.
  - intros row m Hrow Hm Hvisible Hother.
    apply (limit_offset_In _ _ _ _ _ Hrows), In_order_by_desc in Hrow.
    apply in_flat_map in Hrow as (lm & Hlatest & Hrow).
    unfold MessageService.joined in Hrow.
    apply in_map_iff in Hrow as (u & <- & _). simpl in *.
    unfold MessageService.latest_messages in Hlatest.
    apply (first_of_each_latest (MessageService.other_user_of userId)
             Message.created_at [] _ lm m (order_by_desc_descending _ _) Hlatest);
      [|exact Hother].
    apply In_order_by_desc_iff, filter_In. auto.
Qed.

(** The theorem at Alice's conversation with Bob, which shows [m2] and not
    the older [m1]. *)
Lemma conversation_shows_latest_message_witness :
  map MessageService.id
      (match fst (MessageService.getConversations Sample.alice 1 20 Sample.mailbox)
       with Ok found => data found | Throw _ => [] end) = [Sample.m2]
  /\ forall found row,
       fst (MessageService.getConversations Sample.alice 1 20 Sample.mailbox) = Ok found ->
       In row (data found) -> MessageService.other_user_id row = Sample.bob ->
       100 <= MessageService.created_at row.
Proof.
  split; [reflexivity|]. intros found row E Hrow Hother.
  destruct (conversation_shows_latest_message _ _ _ _ _ E) as [_ Hlatest].
  apply (Hlatest row (Sample.hello Sample.m1 false false 100) Hrow);
    [left; reflexivity | reflexivity | now rewrite Hother].
Defined.

Lemma first_of_each_NoDup {R : Type} (key : R -> string) (seen : list string)
    (l : list R) :
  List.NoDup (map key (MessageService.first_of_each key seen l)).
Proof.
  revert seen. induction l as [|r rest IH]; simpl; intros seen; [constructor|].
  destruct (existsb (String.eqb (key r)) seen); [apply IH|].
  simpl. constructor; [|apply IH].
  intros Hin. apply in_map_iff in Hin as (x & Hkey & Hx).
  apply first_of_each_unseen in Hx. simpl in Hx.
  rewrite Hkey, String.eqb_refl in Hx. discriminate.
Qed.

Lemma unique_user_rows (p : User.t -> bool) (k : string) (l : list User.t) :
  List.NoDup (map User.id l) ->
  (length (List.filter (fun u => String.eqb (User.id u) k && p u) l) <= 1)%nat.
Proof.
  induction l as [|u l IH]; simpl; [lia|].
  intros Hnodup. inversion Hnodup as [|? ? Hfresh Hrest]; subst.
  specialize (IH Hrest).
  destruct (String.eqb (User.id u) k) eqn:Hk; simpl; [|exact IH].
  apply String.eqb_eq in Hk.
  assert (Hnone : List.filter (fun v => String.eqb (User.id v) k && p v) l = []).
  { apply filter_all_false. intros v Hv.
    destruct (String.eqb (User.id v) k) eqn:Hvk; [|reflexivity].
    apply String.eqb_eq in Hvk. exfalso. apply Hfresh.
    rewrite Hk, <- Hvk. now apply in_map. }
  rewrite Hnone. destruct (p u); simpl; lia.
Qed.

Lemma insert_desc_Permutation {R : Type} (key : R -> Z) (x : R) (l : list R) :
  Permutation (insert_desc key x l) (x :: l).
Proof.
  induction l as [|a l IH]; simpl; [reflexivity|].
  destruct (key a <? key x); [reflexivity|].
  rewrite IH. apply perm_swap.
Qed.

Lemma order_by_desc_Permutation {R : Type} (key : R -> Z) (l : list R) :
  Permutation (order_by_desc key l) l.
Proof.
  unfold order_by_desc. induction l as [|a l IH]; simpl; [reflexivity|].
  rewrite insert_desc_Permutation. now constructor.
Qed.

Lemma NoDup_map_firstn {A B : Type} (f : A -> B) (n : nat) (l : list A) :
  List.NoDup (map f l) -> List.NoDup (map f (firstn n l)).
Proof.
  revert l. induction n as [|n IH]; intros [|a l]; simpl; try constructor.
  - inversion H as [|? ? Hfresh Hrest]; subst.
    intros Hin. apply Hfresh. apply in_map_iff in Hin as (x & <- & Hx).
    apply in_map. now apply In_firstn in Hx.
  - inversion H; subst. now apply IH.
Qed.

Lemma NoDup_map_skipn {A B : Type} (f : A -> B) (n : nat) (l : list A) :
  List.NoDup (map f l) -> List.NoDup (map f (skipn n l)).
Proof.
  revert l. induction n as [|n IH]; intros [|a l]; simpl; auto.
  intros H. inversion H; subst. now apply IH.
Qed.

Lemma joined_keys (userId : string) (w : World) (lm : Message.t) :
  List.NoDup (map User.id (users w)) ->
  map MessageService.other_user_id (MessageService.joined userId w lm) = []
  \/ map MessageService.other_user_id (MessageService.joined userId w lm)
     = [MessageService.other_user_of userId lm].
Proof.
  intros Hnodup. unfold MessageService.joined. cbv zeta.
  pose proof (unique_user_rows User.is_active
                (MessageService.other_user_of userId lm) (users w) Hnodup) as Hle.
  destruct (List.filter _ (users w)) as [|u [|v rest]]; simpl in *; auto; lia.
Qed.

(** X19.  With user identifiers unique in [users], a page of
    [getConversations] holds at most one row for each counterpart. *)
Theorem one_conversation_per_counterpart (w : World) (userId : string)
    (page limit : Z) (found : Paginated MessageService.Conversation) :
  List.NoDup (map User.id (users w)) ->
  fst (MessageService.getConversations userId page limit w) = Ok found ->
  List.NoDup (map MessageService.other_user_id (data found)).
Proof.
  intros Hnodup. rewrite getConversations_run.
  destruct (limit_offset _ _ _) as [rows|] eqn:Hrows; [|discriminate].
  intros [= <-]. cbn [data].
  unfold limit_offset in Hrows.
  repeat match type of Hrows with
         | (if ?b then _ else _) = _ => destruct b; [discriminate|]
         end.
  injection Hrows as <-.
  apply NoDup_map_firstn, NoDup_map_skipn.
  eapply Permutation_NoDup;
    [symmetry; apply Permutation_map, order_by_desc_Permutation|].
  unfold MessageService.latest_messages.
  pose proof (first_of_each_NoDup (MessageService.other_user_of userId) []
                (order_by_desc Message.created_at
                   (List.filter (MessageService.visible_to userId) (messages w))))
    as Hkeys.
  induction (MessageService.first_of_each _ _ _) as [|lm rest IH]; simpl;
    [constructor|].
  inversion Hkeys as [|? ? Hfresh Hrest]; subst.
  rewrite map_app.
  assert (Hsub : forall k,
            In k (map MessageService.other_user_id
                      (flat_map (MessageService.joined userId w) rest)) ->
            In k (map (MessageService.other_user_of userId) rest)).
  { intros k Hk. apply in_map_iff in Hk as (row & <- & Hrow).
    apply in_flat_map in Hrow as (lm' & Hlm' & Hrow).
    unfold MessageService.joined in Hrow.
    apply in_map_iff in Hrow as (u & <- & _). simpl. now apply in_map. }
  destruct (joined_keys userId w lm Hnodup) as [-> | ->]; simpl.
  - now apply IH.
  - constructor; [|now apply IH].
    intros Hin. apply Hfresh. now apply Hsub.
Qed.

(** The theorem at Alice's conversations. *)
Lemma one_conversation_per_counterpart_witness :
  List.NoDup
    (map MessageService.other_user_id
         (match fst (MessageService.getConversations Sample.alice 1 20 Sample.mailbox)
          with Ok found => data found | Throw _ => [] end)).
Proof.
  destruct (fst (MessageService.getConversations Sample.alice 1 20 Sample.mailbox))
    as [found|] eqn:E; [|constructor].
  apply (one_conversation_per_counterpart Sample.mailbox Sample.alice 1 20 found);
    [|exact E].
  simpl. repeat constructor; simpl; intuition discriminate.
Defined.

(** ** The session registry *)

(** X20.  [getConversationRoom] names the same room whichever of the two
    users is given first. *)
Theorem getConversationRoom_symmetric (userId1 userId2 : string) :
  SocketEvents.getConversationRoom userId1 userId2
  = SocketEvents.getConversationRoom userId2 userId1.
Proof.
  unfold SocketEvents.getConversationRoom, SocketEvents.sorted_pair, String.ltb.
  rewrite (String.compare_antisym userId1 userId2).
  destruct (String.compare userId2 userId1) eqn:Hcmp; simpl; try reflexivity.
  apply String.compare_eq_iff in Hcmp. now subst.
Qed.

Lemma same_sessions_refl (s : SocketHandler.Server) : same_sessions s s.
Proof. split; reflexivity. Qed.

Lemma same_sessions_trans (s1 s2 s3 : SocketHandler.Server) :
  same_sessions s1 s2 -> same_sessions s2 s3 -> same_sessions s1 s3.
Proof. intros [A B] [C D]. split; congruence. Qed.

Lemma bind_sessions {A B : Type} (m : M SocketHandler.Server A)
    (k : A -> M SocketHandler.Server B) (s : SocketHandler.Server) :
  (forall s0, same_sessions s0 (snd (m s0))) ->
  (forall a s0, same_sessions s0 (snd (k a s0))) ->
  same_sessions s (snd (bind m k s)).
Proof.
  intros Hm Hk. unfold bind. specialize (Hm s).
  destruct (m s) as [[a|e] s1]; cbn [snd] in *; [|exact Hm].
  exact (same_sessions_trans _ _ _ Hm (Hk a s1)).
Qed.

Lemma service_sessions {A : Type} (m : M World A) (s : SocketHandler.Server) :
  same_sessions s (snd (SocketHandler.service m s)).
Proof.
  unfold SocketHandler.service. destruct (m (SocketHandler.world s)).
  split; reflexivity.
Qed.

Lemma try_catch_sessions (body : M SocketHandler.Server SocketHandler.Ack)
    (s : SocketHandler.Server) :
  (forall s0, same_sessions s0 (snd (body s0))) ->
  same_sessions s (snd (SocketHandler.try_catch body s)).
Proof.
  intros Hbody. unfold SocketHandler.try_catch. specialize (Hbody s).
  destruct (body s) as [[ack|e] s1]; exact Hbody.
Qed.

Ltac sessions :=
  repeat first
    [ apply same_sessions_refl
    | apply service_sessions
    | solve [split; reflexivity]
    | apply bind_sessions; intros
    | match goal with
      | |- same_sessions _ (snd ((if ?b then _ else _) _)) => destruct b
      end ].

Lemma on_send_message_sessions (socket : SocketHandler.AuthenticatedSocket)
    (data : SocketHandler.SendMessageData) (s : SocketHandler.Server) :
  same_sessions s (snd (SocketHandler.on_send_message socket data s)).
Proof.
  unfold SocketHandler.on_send_message. apply try_catch_sessions. intros s0.
  sessions.
Qed.

Lemma on_mark_read_sessions (socket : SocketHandler.AuthenticatedSocket)
    (data : SocketHandler.MarkReadData) (s : SocketHandler.Server) :
  same_sessions s (snd (SocketHandler.on_mark_read socket data s)).
Proof.
  unfold SocketHandler.on_mark_read. apply try_catch_sessions. intros s0.
  sessions.
Qed.

Lemma same_sessions_live (s s' : SocketHandler.Server) :
  same_sessions s s' -> registry_live s -> registry_live s'.
Proof. intros [Hc Hu] Hlive u sid. rewrite Hc, Hu. apply Hlive. Qed.

(** X21.  In every handler state reached by connections of new sessions,
    disconnections of connected sessions and message events, each user the
    registry holds is mapped to a session that is connected and belongs to
    that user. *)
Theorem registered_sessions_are_live (s : SocketHandler.Server) :
  sessions_reachable s -> registry_live s.
Proof.
  induction 1 as [w | s socket _ IH Hnew | s socket held _ IH Hheld Howner
                  | s socket data _ IH | s socket data _ IH].
  - intros u sid. cbn [SocketHandler.userSocketMap].
    rewrite lookup_empty. discriminate.
  - rewrite handleConnection_run. intros u sid.
    cbn [snd SocketHandler.userSocketMap SocketHandler.connectedUsers].
    destruct (decide (u = SocketHandler.socket_userId socket)) as [->|Hu].
    + rewrite lookup_insert_eq. intros [= <-].
      rewrite lookup_insert_eq. eexists. split; reflexivity.
    + rewrite lookup_insert_ne by congruence. intros Hsid.
      destruct (IH u sid Hsid) as (su & Hsu & Hown).
      exists su. split; [|exact Hown].
      rewrite lookup_insert_ne; [exact Hsu|]. intros <-. congruence.
  - rewrite handleDisconnection_run. intros u sid.
    cbn [snd SocketHandler.userSocketMap SocketHandler.connectedUsers].
    destruct (decide (u = SocketHandler.socket_userId socket)) as [->|Hu].
    + rewrite lookup_delete_eq. discriminate.
    + rewrite lookup_delete_ne by congruence. intros Hsid.
      destruct (IH u sid Hsid) as (su & Hsu & Hown).
      exists su. split; [|exact Hown].
      rewrite lookup_delete_ne; [exact Hsu|]. intros <-. congruence.
  - exact (same_sessions_live _ _ (on_send_message_sessions socket data s) IH).
  - exact (same_sessions_live _ _ (on_mark_read_sessions socket data s) IH).
Qed.

(** The theorem after Bob's first connection. *)
Lemma registered_sessions_are_live_witness :
  registry_live
    (snd (SocketHandler.handleConnection Sample.bob_1
            (SocketHandler.mkServer Sample.mailbox ∅ ∅ []))).
Proof.
  apply registered_sessions_are_live.
  apply sessions_connect; [apply sessions_init | reflexivity].
Defined.

(** ** The call listeners *)

Lemma has_id_apply_update (callId : string) (u : CallUpdate) (c : Call.t) :
  CallService.has_id callId (apply_update u c) = CallService.has_id callId c.
Proof. reflexivity. Qed.

Lemma on_start_call_run (socket : SocketHandler.AuthenticatedSocket)
    (data : SocketEvents.StartCallData) (h : SocketEvents.Hub) :
  let userId := SocketHandler.socket_userId socket in
  let s := SocketEvents.server h in
  let store w := SocketHandler.mkServer w (SocketHandler.connectedUsers s)
                   (SocketHandler.userSocketMap s) (SocketHandler.emitted s) in
  let calleeSocketId := SocketHandler.userSocketMap s !! SocketEvents.calleeId data in
  SocketEvents.on_start_call socket data h =
  match CallService.startCall userId (SocketEvents.calleeId data)
          (SocketEvents.callType data) (SocketHandler.world s) with
  | (Throw e, w1) =>
      (SocketEvents.call_failure (SocketHandler.error_message e),
       SocketEvents.mkHub (store w1) (SocketEvents.signalled h))
  | (Ok call, w1) =>
      if truthy calleeSocketId
      then
        let pushed :=
          SocketEvents.signalled h
          ++ [(SocketHandler.the calleeSocketId,
               SocketEvents.incoming_call (Call.id call) userId "Unknown"
                 (SocketEvents.callType data))] in
        match CallService.updateCallStatus (Call.id call) ringing None w1 with
        | (Ok _, w2) =>
            (SocketEvents.call_success (Some call), SocketEvents.mkHub (store w2) pushed)
        | (Throw e, w2) =>
            (SocketEvents.call_failure (SocketHandler.error_message e),
             SocketEvents.mkHub (store w2) pushed)
        end
      else (SocketEvents.call_success (Some call),
            SocketEvents.mkHub (store w1) (SocketEvents.signalled h))
  end.
Proof.
  cbv zeta. unfold SocketEvents.on_start_call, SocketEvents.try_catch.
  unfold bind at 1. unfold SocketEvents.service at 1, SocketHandler.service at 1.
  destruct (CallService.startCall _ _ _ _) as [[call|e] w1]; [|reflexivity].
  unfold bind at 1. unfold SocketEvents.lookup_session, gets at 1.
  cbn [SocketEvents.server SocketHandler.userSocketMap].
  destruct (truthy (SocketHandler.userSocketMap (SocketEvents.server h)
                      !! SocketEvents.calleeId data)); [|reflexivity].
  unfold bind, SocketEvents.signal, modify, SocketEvents.service,
    SocketHandler.service, ret.
  cbn [SocketEvents.server SocketHandler.world SocketHandler.connectedUsers
       SocketHandler.userSocketMap SocketHandler.emitted SocketEvents.signalled].
  destruct (CallService.updateCallStatus _ _ _ w1) as [[updated|e] w2]; reflexivity.
Qed.

(** X22.  The listener of [start_call], when [startCall] returns a call
    whose identifier no earlier call has: the acknowledgement carries the
    call as inserted, in [initiated].  If the callee is registered, one
    [incoming_call] naming the call and the caller is sent to the callee's
    session and the stored call is then in [ringing]; if not, nothing is
    sent and the store is as [startCall] left it. *)
Theorem start_call_rings_registered_callee (h : SocketEvents.Hub)
    (socket : SocketHandler.AuthenticatedSocket) (data : SocketEvents.StartCallData)
    (call : Call.t) (w1 : World) :
  let userId := SocketHandler.socket_userId socket in
  let s := SocketEvents.server h in
  let result := SocketEvents.on_start_call socket data h in
  let s' := SocketEvents.server (snd result) in
  CallService.startCall userId (SocketEvents.calleeId data)
    (SocketEvents.callType data) (SocketHandler.world s) = (Ok call, w1) ->
  (forall c, In c (calls (SocketHandler.world s)) -> Call.id c <> Call.id call) ->
  fst result = SocketEvents.call_success (Some call)
  /\ Call.status call = initiated
  /\ match SocketHandler.userSocketMap s !! SocketEvents.calleeId data with
     | Some sid =>
         sid <> "" ->
         SocketEvents.signalled (snd result)
         = SocketEvents.signalled h
           ++ [(sid, SocketEvents.incoming_call (Call.id call) userId "Unknown"
                       (SocketEvents.callType data))]
         /\ option_map Call.status
              (find (CallService.has_id (Call.id call))
                    (calls (SocketHandler.world s'))) = Some ringing
     | None =>
         SocketEvents.signalled (snd result) = SocketEvents.signalled h
         /\ SocketHandler.world s' = w1
     end.
Proof.
  intros userId s result s' Hstart Hfresh.
  destruct (startCall_returns _ _ _ _ _ _ Hstart)
    as (_ & _ & Hcalls & _ & _ & Hstatus & _).
  assert (Hfound : find (CallService.has_id (Call.id call)) (calls w1) = Some call).
  { rewrite Hcalls. apply find_app_last.
    - intros c Hc. apply String.eqb_neq. now apply Hfresh.
    - apply String.eqb_refl. }
  destruct (updateData_for_run ringing call w1)
    as (u & w2 & Hdata & Hcalls2 & _ & _ & Hset & _).
  assert (Hring : CallService.updateCallStatus (Call.id call) ringing None w1
                  = (Ok (head (map (apply_update u)
                                 (List.filter (CallService.has_id (Call.id call))
                                              (calls w2)))),
                     set_calls (rewrite_rows (CallService.has_id (Call.id call))
                                             (apply_update u)) w2)).
  { rewrite updateCallStatus_run, Hfound. cbn [CallService.not_a_party].
    now rewrite Hdata. }
  subst result s'. rewrite on_start_call_run. fold userId s. cbv zeta.
  rewrite Hstart, Hring.
  destruct (SocketHandler.userSocketMap s !! SocketEvents.calleeId data)
    as [sid|] eqn:Hsid.
  - split; [destruct (truthy (Some sid)); reflexivity|]. split; [exact Hstatus|].
    intros Hne. apply String.eqb_neq in Hne.
    unfold truthy. rewrite Hne. cbn [negb]. cbv iota zeta.
    change (SocketHandler.the (Some sid)) with sid.
    cbn [snd SocketEvents.signalled SocketEvents.server SocketHandler.world].
    split; [reflexivity|].
    unfold set_calls. cbn [calls].
    rewrite find_rewrite_rows by apply has_id_apply_update.
    rewrite Hcalls2, Hfound. cbn [option_map].
    unfold CallService.has_id at 1. rewrite String.eqb_refl.
    cbn [apply_update Call.status]. now rewrite Hset.
  - cbn [truthy]. cbv iota. cbn [fst snd SocketEvents.signalled SocketEvents.server
                                  SocketHandler.world].
    split; [reflexivity|]. split; [exact Hstatus|]. split; reflexivity.
Qed.

Lemma bob_online_registry :
  SocketHandler.userSocketMap Sample.bob_online !! Sample.bob = Some "sock-b1".
Proof.
  unfold Sample.bob_online, Sample.after. rewrite handleConnection_run.
  cbn [snd SocketHandler.userSocketMap]. apply lookup_insert_eq.
Qed.

(** The theorem at Alice calling Bob, who is connected. *)
Lemma start_call_rings_registered_callee_witness :
  let result :=
    SocketEvents.on_start_call Sample.alice_1 (SocketEvents.mkStartCallData Sample.bob voice)
      (SocketEvents.mkHub Sample.bob_online []) in
  map fst (SocketEvents.signalled (snd result)) = ["sock-b1"]
  /\ option_map Call.status
       (find (CallService.has_id Sample.id_0)
             (calls (SocketHandler.world (SocketEvents.server (snd result)))))
     = Some ringing.
Proof.
  intros result.
  destruct (CallService.startCall Sample.alice Sample.bob voice
              (SocketHandler.world Sample.bob_online))
    as [[call|] w1] eqn:E; [|discriminate E].
  destruct (start_call_rings_registered_callee
              (SocketEvents.mkHub Sample.bob_online []) Sample.alice_1
              (SocketEvents.mkStartCallData Sample.bob voice) call w1 E)
    as (_ & _ & Hcase).
  { intros c []. }
  cbn [SocketEvents.server SocketEvents.calleeId] in Hcase.
  rewrite bob_online_registry in Hcase.
  destruct Hcase as [Hpushed Hstored]; [discriminate|].
  destruct (startCall_returns _ _ _ _ _ _ E) as (_ & _ & _ & _ & _ & _ & Hid & _).
  change (Call.id call = Sample.id_0) in Hid.
  fold result in Hpushed, Hstored. rewrite Hpushed, <- Hid. split; [reflexivity|].
  exact Hstored.
Defined.




Lemma on_call_reply_run (status : Status) (pushed : string -> string -> SocketEvents.Signal)
    (socket : SocketHandler.AuthenticatedSocket) (callId : string)
    (h : SocketEvents.Hub) :
  let userId := SocketHandler.socket_userId socket in
  let s := SocketEvents.server h in
  let store w := SocketHandler.mkServer w (SocketHandler.connectedUsers s)
                   (SocketHandler.userSocketMap s) (SocketHandler.emitted s) in
  SocketEvents.on_call_reply status pushed socket callId h =
  match CallService.updateCallStatus callId status (Some userId)
          (SocketHandler.world s) with
  | (Throw e, w1) =>
      (SocketEvents.call_failure (SocketHandler.error_message e),
       SocketEvents.mkHub (store w1) (SocketEvents.signalled h))
  | (Ok None, w1) =>
      (SocketEvents.undefined_call,
       SocketEvents.mkHub (store w1) (SocketEvents.signalled h))
  | (Ok (Some call), w1) =>
      let callerSocketId := SocketHandler.userSocketMap s !! Call.caller_id call in
      (SocketEvents.call_success (Some call),
       SocketEvents.mkHub (store w1)
         (SocketEvents.signalled h
          ++ if truthy callerSocketId
             then [(SocketHandler.the callerSocketId, pushed callId userId)]
             else []))
  end.
Proof.
  cbv zeta. unfold SocketEvents.on_call_reply, SocketEvents.try_catch.
  unfold bind at 1. unfold SocketEvents.service at 1, SocketHandler.service at 1.
  destruct (CallService.updateCallStatus _ _ _ _) as [[[call|]|e] w1];
    try reflexivity.
  unfold bind at 1. unfold SocketEvents.lookup_session, gets at 1.
  cbn [SocketEvents.server SocketHandler.userSocketMap].
  unfold SocketEvents.signal_if_online.
  destruct (truthy (SocketHandler.userSocketMap (SocketEvents.server h) !! _)).
  - reflexivity.
  - unfold bind, ret. cbn [SocketEvents.signalled]. now rewrite app_nil_r.
Qed.

Lemma on_call_reply_party (status : Status)
    (pushed : string -> string -> SocketEvents.Signal)
    (socket : SocketHandler.AuthenticatedSocket) (callId : string)
    (h : SocketEvents.Hub) (call : Call.t) :
  let userId := SocketHandler.socket_userId socket in
  let s := SocketEvents.server h in
  let result := SocketEvents.on_call_reply status pushed socket callId h in
  find (CallService.has_id callId) (calls (SocketHandler.world s)) = Some call ->
  CallService.not_a_party (Some userId) call = false ->
  (exists updated,
     fst result = SocketEvents.call_success (Some updated)
     /\ Call.status updated = status
     /\ Call.caller_id updated = Call.caller_id call)
  /\ SocketEvents.signalled (snd result)
     = SocketEvents.signalled h
       ++ match SocketHandler.userSocketMap s !! Call.caller_id call with
          | Some sid => if String.eqb sid "" then [] else [(sid, pushed callId userId)]
          | None => []
          end.
Proof.
  intros userId s result Hfind Hparty.
  subst result. rewrite on_call_reply_run. fold userId s. cbv zeta.
  rewrite updateCallStatus_run, Hfind, Hparty.
  destruct (updateData_for_run status call (SocketHandler.world s))
    as (u & w1 & -> & Hcalls & _ & _ & Hset & _).
  rewrite head_map_filter, Hcalls, Hfind. cbn [option_map].
  cbn [apply_update Call.caller_id fst snd SocketEvents.signalled]. split.
  - eexists. split; [reflexivity|].
    cbn [apply_update Call.status Call.caller_id].
    rewrite Hset. split; reflexivity.
  - f_equal. destruct (SocketHandler.userSocketMap s !! Call.caller_id call)
      as [sid|]; [|reflexivity].
    unfold truthy. destruct (String.eqb sid ""); reflexivity.
Qed.

(** X24.  The listeners of [answer_call] and [reject_call], for a call
    the sender takes part in: whatever the status of the call and whichever
    party the sender is, the call is returned in [answered], resp.
    [rejected], and the event [call_answered], resp. [call_rejected],
    naming the sender goes to the session of the call's caller when the
    caller is registered, and to nobody otherwise. *)
Theorem call_reply_notifies_the_caller (h : SocketEvents.Hub)
    (socket : SocketHandler.AuthenticatedSocket) (callId : string) (call : Call.t) :
  let userId := SocketHandler.socket_userId socket in
  let s := SocketEvents.server h in
  let to_caller e :=
    match SocketHandler.userSocketMap s !! Call.caller_id call with
    | Some sid => if String.eqb sid "" then [] else [(sid, e)]
    | None => []
    end in
  find (CallService.has_id callId) (calls (SocketHandler.world s)) = Some call ->
  CallService.not_a_party (Some userId) call = false ->
  ((exists updated,
      fst (SocketEvents.on_answer_call socket callId h)
      = SocketEvents.call_success (Some updated)
      /\ Call.status updated = answered)
   /\ SocketEvents.signalled (snd (SocketEvents.on_answer_call socket callId h))
      = SocketEvents.signalled h
        ++ to_caller (SocketEvents.call_answered callId userId))
  /\ ((exists updated,
         fst (SocketEvents.on_reject_call socket callId h)
         = SocketEvents.call_success (Some updated)
         /\ Call.status updated = rejected)
      /\ SocketEvents.signalled (snd (SocketEvents.on_reject_call socket callId h))
         = SocketEvents.signalled h
           ++ to_caller (SocketEvents.call_rejected callId userId)).
Proof.
  intros userId s to_caller Hfind Hparty.
  unfold SocketEvents.on_answer_call, SocketEvents.on_reject_call.
  split.
  - destruct (on_call_reply_party answered SocketEvents.call_answered socket callId
                h call Hfind Hparty) as [(updated & Hack & Hstatus & _) Hpushed].
    split; [eauto|]. rewrite Hpushed. subst to_caller. cbv beta.
    destruct (SocketHandler.userSocketMap _ !! _) as [sid|]; [|reflexivity].
    destruct (String.eqb sid ""); reflexivity.
  - destruct (on_call_reply_party rejected SocketEvents.call_rejected socket callId
                h call Hfind Hparty) as [(updated & Hack & Hstatus & _) Hpushed].
    split; [eauto|]. rewrite Hpushed. subst to_caller. cbv beta.
    destruct (SocketHandler.userSocketMap _ !! _) as [sid|]; [|reflexivity].
    destruct (String.eqb sid ""); reflexivity.
Qed.

(** The theorem at Alice, the caller, answering her own call of
    [Sample.dialing]: the request is accepted and the event comes back to
    her own session. *)
Lemma call_reply_notifies_the_caller_witness :
  SocketEvents.signalled
    (snd (SocketEvents.on_answer_call Sample.alice_1 Sample.id_0
            (SocketEvents.mkHub
               (Sample.after (SocketHandler.handleConnection Sample.alice_1)
                             (Sample.idle Sample.dialing)) [])))
  = [("sock-a1", SocketEvents.call_answered Sample.id_0 Sample.alice)].
Proof.
  destruct (call_reply_notifies_the_caller
              (SocketEvents.mkHub
                 (Sample.after (SocketHandler.handleConnection Sample.alice_1)
                               (Sample.idle Sample.dialing)) [])
              Sample.alice_1 Sample.id_0 _ eq_refl eq_refl) as [[_ Hpushed] _].
  rewrite Hpushed. reflexivity.
Defined.

(** ** The signalling relays *)

Lemma createOffer_returns (callId id : string) (offer : Json) (w : World) :
  uuid_in callId = Some id ->
  jsonb_accepts offer = true ->
  Forall (fun c => metadata_ready c = true) (calls w) ->
  exists w', CallService.createOffer callId offer w = (Ok tt, w').
Proof.
  intros Hid Haccepts Hready.
  rewrite createOffer_run, Haccepts, Hid.
  unfold update_calls_checked, new_Date. cbn [snd calls].
  destruct (signalling_rows (fun _ _ => True) id
              (fun c => jsonb_set (Call.metadata c) "offer" offer)
              (clock w (clock_reads w)) (calls w) Hready)
    as (l' & E & _).
  - intros c Hc. destruct (CallService.has_id id c); [|exact I].
    destruct (ready_object c Hc) as (fields & Hmd).
    rewrite Hmd. simpl jsonb_set. eexists. split; [reflexivity | exact I].
  - rewrite E. eauto.
Qed.

Lemma createOffer_rejects (callId : string) (offer : Json) (w : World) :
  jsonb_accepts offer = false \/ uuid_in callId = None ->
  exists message,
    CallService.createOffer callId offer w
    = (Throw (DatabaseError message), snd (new_Date w)).
Proof.
  rewrite createOffer_run. intros [Hpayload|Hid].
  - rewrite Hpayload. eauto.
  - rewrite Hid. destruct (jsonb_accepts offer); eauto.
Qed.

Lemma relay_run (effect : M World unit) (target : option string)
    (e : SocketEvents.Signal) (h : SocketEvents.Hub) :
  let s := SocketEvents.server h in
  let store w := SocketHandler.mkServer w (SocketHandler.connectedUsers s)
                   (SocketHandler.userSocketMap s) (SocketHandler.emitted s) in
  let targetSocketId := match target with
                        | Some k => SocketHandler.userSocketMap s !! k
                        | None => None
                        end in
  (let* _ := SocketEvents.service effect in
   let* targetSocketId := SocketEvents.lookup_session target in
   SocketEvents.signal_if_online targetSocketId e) h
  = match effect (SocketHandler.world s) with
    | (Ok _, w1) =>
        (Ok tt,
         SocketEvents.mkHub (store w1)
           (SocketEvents.signalled h
            ++ if truthy targetSocketId
               then [(SocketHandler.the targetSocketId, e)] else []))
    | (Throw failure, w1) =>
        (Throw failure, SocketEvents.mkHub (store w1) (SocketEvents.signalled h))
    end.
Proof.
  cbv zeta.
  unfold bind at 1. unfold SocketEvents.service at 1, SocketHandler.service at 1.
  destruct (effect (SocketHandler.world (SocketEvents.server h))) as [[[]|failure] w1];
    [|reflexivity].
  unfold bind at 1. unfold SocketEvents.lookup_session, gets at 1.
  cbn [SocketEvents.server SocketHandler.userSocketMap].
  unfold SocketEvents.signal_if_online.
  destruct (truthy _).
  - reflexivity.
  - unfold ret. cbn [SocketEvents.signalled]. now rewrite app_nil_r.
Qed.

(** X25.  The listeners of [webrtc_ice_candidate] and [webrtc_offer], in a
    store whose calls all hold an object as metadata, with an array under
    [ice_candidates] when the key is present (as the calls [startCall]
    inserts do).  With a call identifier in uuid syntax and a payload that
    [jsonb] can hold they return, for every sender and target: the store is
    changed exactly as by [addIceCandidate], resp. [createOffer], and the
    payload is forwarded unchanged, with the sender as [fromUserId], to the
    session of the target user when that user is registered, and to nobody
    otherwise; neither the sender nor the target has to take part in the
    call.  With any other call identifier or payload the statement is
    rejected: the listener, which has no [catch], fails with the error of
    the database, and nothing is forwarded. *)
Theorem signalling_is_stored_and_forwarded (h : SocketEvents.Hub)
    (socket : SocketHandler.AuthenticatedSocket) (data : SocketEvents.RelayData) :
  let userId := SocketHandler.socket_userId socket in
  let s := SocketEvents.server h in
  let w := SocketHandler.world s in
  let callId := SocketEvents.relay_callId data in
  let payload := SocketEvents.payload data in
  let to_target e :=
    match SocketEvents.targetUserId data with
    | Some target =>
        match SocketHandler.userSocketMap s !! target with
        | Some sid => if String.eqb sid "" then [] else [(sid, e)]
        | None => []
        end
    | None => []
    end in
  let relayed (result : Outcome unit * SocketEvents.Hub) (w1 : World) e :=
    fst result = Ok tt
    /\ SocketHandler.world (SocketEvents.server (snd result)) = w1
    /\ same_sessions s (SocketEvents.server (snd result))
    /\ SocketEvents.signalled (snd result) = SocketEvents.signalled h ++ to_target e in
  let refused (result : Outcome unit * SocketEvents.Hub) :=
    (exists message, fst result = Throw (DatabaseError message))
    /\ calls (SocketHandler.world (SocketEvents.server (snd result))) = calls w
    /\ same_sessions s (SocketEvents.server (snd result))
    /\ SocketEvents.signalled (snd result) = SocketEvents.signalled h in
  Forall (fun c => metadata_ready c = true) (calls w) ->
  (jsonb_accepts payload = true -> uuid_in callId <> None ->
   relayed (SocketEvents.on_webrtc_ice_candidate socket data h)
           (snd (CallService.addIceCandidate callId payload w))
           (SocketEvents.webrtc_ice_candidate callId payload userId)
   /\ relayed (SocketEvents.on_webrtc_offer socket data h)
              (snd (CallService.createOffer callId payload w))
              (SocketEvents.webrtc_offer callId payload userId))
  /\ (jsonb_accepts payload = false \/ uuid_in callId = None ->
      refused (SocketEvents.on_webrtc_ice_candidate socket data h)
      /\ refused (SocketEvents.on_webrtc_offer socket data h)).
Proof.
  intros userId s w callId payload to_target relayed refused Hready.
  assert (Hforward : forall e,
    (if truthy match SocketEvents.targetUserId data with
               | Some k => SocketHandler.userSocketMap s !! k
               | None => None
               end
     then [(SocketHandler.the match SocketEvents.targetUserId data with
                              | Some k => SocketHandler.userSocketMap s !! k
                              | None => None
                              end, e)]
     else []) = to_target e).
  { intros e. subst to_target. cbv beta.
    destruct (SocketEvents.targetUserId data) as [target|]; [|reflexivity].
    destruct (SocketHandler.userSocketMap s !! target) as [sid|]; [|reflexivity].
    unfold truthy. destruct (String.eqb sid ""); reflexivity. }
  unfold SocketEvents.on_webrtc_ice_candidate, SocketEvents.on_webrtc_offer.
  cbv zeta. rewrite !relay_run. fold userId s w callId payload. cbv zeta.
  split.
  - intros Haccepts Hid.
    destruct (uuid_in callId) as [id|] eqn:Hid'; [clear Hid | contradiction].
    destruct (createOffer_returns callId id payload w Hid' Haccepts Hready)
      as (w1 & Hoffer).
    destruct (addIceCandidate_step callId id payload w Hid' Haccepts Hready)
      as (w2 & Hice & _).
    subst relayed. cbv beta. rewrite Hice, Hoffer, !Hforward.
    split; repeat split.
  - intros Hmalformed.
    destruct (createOffer_rejects callId payload w Hmalformed) as (m1 & Hoffer).
    destruct (addIceCandidate_rejects callId payload w Hmalformed) as (m2 & Hice).
    subst refused. cbv beta. rewrite Hice, Hoffer.
    split; (split; [eexists; reflexivity | repeat split]).
Qed.

(** The theorem at Carol, who is not in the call of [Sample.dialing],
    sending a candidate for it to Bob. *)
Lemma signalling_is_stored_and_forwarded_witness :
  let result :=
    SocketEvents.on_webrtc_ice_candidate (SocketHandler.mkSocket "sock-c1" Sample.carol)
      (SocketEvents.mkRelayData Sample.id_0 (JStr "host") (Some Sample.bob))
      (SocketEvents.mkHub
         (Sample.after (SocketHandler.handleConnection Sample.bob_1)
                       (Sample.idle Sample.dialing)) []) in
  SocketEvents.signalled (snd result)
  = [("sock-b1", SocketEvents.webrtc_ice_candidate Sample.id_0 (JStr "host") Sample.carol)]
  /\ map ice_candidates
         (calls (SocketHandler.world (SocketEvents.server (snd result))))
     = [[JStr "host"]].
Proof.
  intros result.
  destruct (signalling_is_stored_and_forwarded
              (SocketEvents.mkHub
                 (Sample.after (SocketHandler.handleConnection Sample.bob_1)
                               (Sample.idle Sample.dialing)) [])
              (SocketHandler.mkSocket "sock-c1" Sample.carol)
              (SocketEvents.mkRelayData Sample.id_0 (JStr "host") (Some Sample.bob)))
    as [Hrelayed _].
  { repeat constructor. }
  destruct Hrelayed as [(_ & Hstore & _ & Hpushed) _];
    [reflexivity | discriminate |].
  fold result in Hstore, Hpushed. rewrite Hstore, Hpushed. split; reflexivity.
Defined.
